(** * A shallow embedding of [adafruit_dotstar.DotStar]

    The driver keeps a frame buffer (a Python [bytearray]) laid out as the
    APA102 wire protocol wants it, and pushes it out either through a
    hardware SPI peripheral or by toggling a clock and a data pin.

    Modelling choices.
    - Python integers are [Z]; [//] and [%] are [Z.div] and [Z.modulo]
      (both floor, like Python); [>>], [<<], [&] and [|] are [Z.shiftr],
      [Z.shiftl], [Z.land] and [Z.lor].
    - Python floats are IEEE 754 binary64 values ([spec_float] with 53 bits
      of precision), NaN, the infinities and the two zeros included; a
      product or a difference is rounded to the nearest float, ties to
      even, as the hardware does.  A number is an [int] or a [float]; an
      [int] that meets a [float] in an operation is converted first, and an
      [int] is compared with a [float] exactly, as CPython does.
    - [math.ceil(n / index)] is computed on the exact quotient.  The driver
      evaluates it only when [index > n]; on a strip that [__init__] let
      through ([0 <= n]) the quotient lies in [[0, 1)], where rounding it
      to a float does not change its ceiling.
    - A [bytearray] is a [list Z] living in a store, so that two names of
      the same object alias.  Reading or writing it follows CPython: a
      negative index counts from the end, an index outside the array raises
      [IndexError], a stored value outside [range(0, 256)] raises
      [ValueError].  Which of the two checks of a store comes first differs
      between CPython versions; no result below depends on it.
    - Methods are computations in a state-and-exception monad.  An exception
      does not roll the state back: bytes stored before it stay stored. *)

From Stdlib Require Import ZArith QArith Qround Lia Bool SpecFloat.
From stdpp Require Import base tactics option list list_numbers.

Local Open Scope Z_scope.

(** ** Python values, exceptions and the monad *)

Inductive exn : Type :=
  | IndexError
  | ValueError
  | TypeError
  | ZeroDivisionError
  | AttributeError
  | OverflowError.

Inductive res (A : Type) : Type :=
  | Ok (a : A)
  | Raise (e : exn).
Arguments Ok {A} a.
Arguments Raise {A} e.

Definition res_bind {A B} (r : res A) (k : A → res B) : res B :=
  match r with
  | Ok a => k a
  | Raise e => Raise e
  end.

(** ** Python numbers *)

(** A [float] is a binary64 value. *)
Definition float : Type := spec_float.
Definition prec : Z := 53.
Definition emax : Z := 1024.

(** [x * y] and [x - y] on floats. *)
Definition fmul : float → float → float := SFmul prec emax.
Definition fsub : float → float → float := SFsub prec emax.

(** [float(z)] for an integer, and the float nearest to [m * 2 ^ e]. *)
Definition float_of_Z (z : Z) : float := binary_normalize prec emax z 0 false.
Definition dyadic (m e : Z) : float := binary_normalize prec emax m e false.
Definition float_0 : float := float_of_Z 0.
Definition float_1 : float := float_of_Z 1.

(** [int(f)]: truncation toward zero; [OverflowError] for an infinity and
    [ValueError] for NaN. *)
Definition float_trunc (f : float) : res Z :=
  match f with
  | S754_zero _ => Ok 0
  | S754_finite s m e =>
      let a := if 0 <=? e then Z.pos m * 2 ^ e else Z.pos m / 2 ^ (- e) in
      Ok (if s then - a else a)
  | S754_infinity _ => Raise OverflowError
  | S754_nan => Raise ValueError
  end.

(** A number: an [int] or a [float]. *)
Inductive num : Type :=
  | NInt (z : Z)
  | NFloat (f : float).

(** The conversion of an [int] operand that meets a [float]. *)
Definition py_float (z : Z) : res float :=
  match float_of_Z z with
  | S754_infinity _ => Raise OverflowError
  | f => Ok f
  end.

(** The exact comparison of an [int] with a [float]; NaN compares with
    nothing. *)
Definition Z_float_compare (z : Z) (f : float) : option comparison :=
  match f with
  | S754_nan => None
  | S754_infinity s => Some (if s then Gt else Lt)
  | S754_zero _ => Some (z ?= 0)
  | S754_finite s m e =>
      let v := if s then Z.neg m else Z.pos m in
      Some (if 0 <=? e then z ?= v * 2 ^ e else z * 2 ^ (- e) ?= v)
  end.

Definition num_compare (a b : num) : option comparison :=
  match a, b with
  | NInt x, NInt y => Some (x ?= y)
  | NFloat x, NFloat y => SFcompare x y
  | NInt x, NFloat y => Z_float_compare x y
  | NFloat x, NInt y => option_map CompOpp (Z_float_compare y x)
  end.

(** [a < b] and [a <= b]; both are false when an operand is NaN. *)
Definition num_ltb (a b : num) : bool :=
  match num_compare a b with
  | Some Lt => true
  | _ => false
  end.
Definition num_leb (a b : num) : bool :=
  match num_compare a b with
  | Some (Lt | Eq) => true
  | _ => false
  end.

(** [a * b], [a - b] and [int(a)]. *)
Definition num_mul (a b : num) : res num :=
  match a, b with
  | NInt x, NInt y => Ok (NInt (x * y))
  | NInt x, NFloat y => res_bind (py_float x) (λ x', Ok (NFloat (fmul x' y)))
  | NFloat x, NInt y => res_bind (py_float y) (λ y', Ok (NFloat (fmul x y')))
  | NFloat x, NFloat y => Ok (NFloat (fmul x y))
  end.

Definition num_sub (a b : num) : res num :=
  match a, b with
  | NInt x, NInt y => Ok (NInt (x - y))
  | NInt x, NFloat y => res_bind (py_float x) (λ x', Ok (NFloat (fsub x' y)))
  | NFloat x, NInt y => res_bind (py_float y) (λ y', Ok (NFloat (fsub x y')))
  | NFloat x, NFloat y => Ok (NFloat (fsub x y))
  end.

Definition num_int (a : num) : res Z :=
  match a with
  | NInt z => Ok z
  | NFloat f => float_trunc f
  end.

(** [max(a, b)] and [min(a, b)] return the first argument unless the
    second is strictly larger (smaller); a NaN first argument is therefore
    returned as it is. *)
Definition py_max (a b : num) : num := if num_ltb a b then b else a.
Definition py_min (a b : num) : num := if num_ltb b a then b else a.

(** The literals [0.0] and [1.0]. *)
Definition num_0 : num := NFloat float_0.
Definition num_1 : num := NFloat float_1.

(** A Python value as the driver meets it: an [int], a [float], or a list
    or tuple of values.  A colour is a packed integer [0xRRGGBB], a triple
    [(r, g, b)] or a quadruple [(r, g, b, brightness)]; a slice is assigned
    a sequence of colours. *)
#[warnings="-register-all"]
Inductive pyobj : Type :=
  | PInt (z : Z)
  | PFloat (f : float)
  | PSeq (l : list pyobj).

(** What the strip does to the outside world, in order. *)
Inductive event : Type :=
  | Cpin (level : bool)                          (* self.cpin.value = level *)
  | Dpin (level : bool)                          (* self.dpin.value = level *)
  | SpiWrite (buf : list Z) (start stop : Z).    (* self._spi.write(buf, start, stop) *)

Definition loc := nat.

(** The attributes of a [DotStar] object, the store of bytearrays and the
    trace of output events. *)
Record state : Type := State {
  _spi : bool;
  _line : Z;
  _n : Z;
  end_header_size : Z;
  end_header_index : Z;
  _buf : loc;
  pixel_order : Z * Z * Z;
  _brightness : num;
  auto_write : bool;
  heap : list (list Z);
  trace : list event
}.

Definition M (A : Type) : Type := state → res A * state.

Definition ret {A} (a : A) : M A := λ s, (Ok a, s).
Definition raise {A} (e : exn) : M A := λ s, (Raise e, s).
Definition bind {A B} (m : M A) (k : A → M B) : M B :=
  λ s, match m s with
       | (Ok a, s') => k a s'
       | (Raise e, s') => (Raise e, s')
       end.
Definition gets {A} (f : state → A) : M A := λ s, (Ok (f s), s).
Definition lift {A} (r : res A) : M A := λ s, (r, s).
Definition modify (f : state → state) : M unit := λ s, (Ok tt, f s).

Declare Scope py_scope.
Delimit Scope py_scope with py.
Notation "x <- c1 ;; c2" := (bind c1 (λ x, c2))
  (at level 100, c1 at next level, right associativity) : py_scope.
Notation "c1 ;; c2" := (bind c1 (λ _, c2))
  (at level 100, right associativity) : py_scope.
Local Open Scope py_scope.

(** [for x in xs: body(x)] *)
Fixpoint for_ {A} (xs : list A) (body : A → M unit) : M unit :=
  match xs with
  | [] => ret tt
  | x :: xs' => body x ;; for_ xs' body
  end.

(** ** Python built-ins used by the driver *)

(** [range(stop)], [range(start, stop)] and [range(start, stop, step)]. *)
Definition range_len (start stop step : Z) : Z :=
  if 0 <? step then
    if start <? stop then (stop - start - 1) / step + 1 else 0
  else if step <? 0 then
    if stop <? start then (start - stop - 1) / (- step) + 1 else 0
  else 0.

Definition range3 (start stop step : Z) : list Z :=
  (λ k, start + k * step) <$> seqZ 0 (range_len start stop step).
Definition range2 (start stop : Z) : list Z := seqZ start (stop - start).
Definition range1 (stop : Z) : list Z := seqZ 0 stop.

(** Index of a sequence of length [len]: negative indices count from the
    end; [None] when the index is out of range. *)
Definition norm_index (len i : Z) : option nat :=
  let i' := if i <? 0 then i + len else i in
  if (0 <=? i') && (i' <? len) then Some (Z.to_nat i') else None.

(** [t[i]] on a tuple or list. *)
Definition tuple_getitem {A} (t : list A) (i : Z) : M A :=
  match norm_index (Z.of_nat (length t)) i with
  | Some k => match t !! k with Some x => ret x | None => raise IndexError end
  | None => raise IndexError
  end.

(** Attribute and store updates. *)
Definition with_heap (h : list (list Z)) (s : state) : state :=
  State (_spi s) (_line s) (_n s) (end_header_size s) (end_header_index s)
        (_buf s) (pixel_order s) (_brightness s) (auto_write s) h (trace s).
Definition emit (e : event) : M unit :=
  modify (λ s,
    State (_spi s) (_line s) (_n s) (end_header_size s) (end_header_index s)
          (_buf s) (pixel_order s) (_brightness s) (auto_write s) (heap s)
          (trace s ++ [e])).
Definition set_spi (v : bool) : M unit :=
  modify (λ s,
    State v (_line s) (_n s) (end_header_size s) (end_header_index s)
          (_buf s) (pixel_order s) (_brightness s) (auto_write s) (heap s) (trace s)).
Definition set_line (v : Z) : M unit :=
  modify (λ s,
    State (_spi s) v (_n s) (end_header_size s) (end_header_index s)
          (_buf s) (pixel_order s) (_brightness s) (auto_write s) (heap s) (trace s)).
Definition set_n (v : Z) : M unit :=
  modify (λ s,
    State (_spi s) (_line s) v (end_header_size s) (end_header_index s)
          (_buf s) (pixel_order s) (_brightness s) (auto_write s) (heap s) (trace s)).
Definition set_end_header_size (v : Z) : M unit :=
  modify (λ s,
    State (_spi s) (_line s) (_n s) v (end_header_index s)
          (_buf s) (pixel_order s) (_brightness s) (auto_write s) (heap s) (trace s)).
Definition set_end_header_index (v : Z) : M unit :=
  modify (λ s,
    State (_spi s) (_line s) (_n s) (end_header_size s) v
          (_buf s) (pixel_order s) (_brightness s) (auto_write s) (heap s) (trace s)).
Definition set_buf (v : loc) : M unit :=
  modify (λ s,
    State (_spi s) (_line s) (_n s) (end_header_size s) (end_header_index s)
          v (pixel_order s) (_brightness s) (auto_write s) (heap s) (trace s)).
Definition set_pixel_order (v : Z * Z * Z) : M unit :=
  modify (λ s,
    State (_spi s) (_line s) (_n s) (end_header_size s) (end_header_index s)
          (_buf s) v (_brightness s) (auto_write s) (heap s) (trace s)).
Definition set__brightness (v : num) : M unit :=
  modify (λ s,
    State (_spi s) (_line s) (_n s) (end_header_size s) (end_header_index s)
          (_buf s) (pixel_order s) v (auto_write s) (heap s) (trace s)).
Definition set_auto_write (v : bool) : M unit :=
  modify (λ s,
    State (_spi s) (_line s) (_n s) (end_header_size s) (end_header_index s)
          (_buf s) (pixel_order s) (_brightness s) v (heap s) (trace s)).

(** [bytearray(size)]: a fresh array of zero bytes. *)
Definition bytearray (size : Z) : M loc :=
  if size <? 0 then raise ValueError
  else λ s, (Ok (length (heap s)),
             with_heap (heap s ++ [replicate (Z.to_nat size) 0]) s).

(** [bytearray(other)]: a fresh copy of an existing array. *)
Definition bytearray_copy (b : loc) : M loc :=
  λ s, match heap s !! b with
       | Some l => (Ok (length (heap s)), with_heap (heap s ++ [l]) s)
       | None => (Raise AttributeError, s)
       end.

(** [len(b)] *)
Definition ba_len (b : loc) : M Z :=
  λ s, match heap s !! b with
       | Some l => (Ok (Z.of_nat (length l)), s)
       | None => (Raise AttributeError, s)
       end.

(** [b[i]] *)
Definition ba_getitem (b : loc) (i : Z) : M Z :=
  λ s, match heap s !! b with
       | Some l =>
           match norm_index (Z.of_nat (length l)) i with
           | Some k => match l !! k with
                       | Some v => (Ok v, s)
                       | None => (Raise IndexError, s)
                       end
           | None => (Raise IndexError, s)
           end
       | None => (Raise AttributeError, s)
       end.

(** [b[i] = v]: the value is converted to a byte first ([TypeError] for a
    float or a sequence, [ValueError] outside [range(0, 256)]), then the index is
    checked. *)
Definition ba_setitem (b : loc) (i : Z) (v : pyobj) : M unit :=
  λ s, match heap s !! b with
       | Some l =>
           match v with
           | PFloat _ | PSeq _ => (Raise TypeError, s)
           | PInt z =>
               if (0 <=? z) && (z <? 256) then
                 match norm_index (Z.of_nat (length l)) i with
                 | Some k => (Ok tt, with_heap (<[b := <[k := z]> l]> (heap s)) s)
                 | None => (Raise IndexError, s)
                 end
               else (Raise ValueError, s)
           end
       | None => (Raise AttributeError, s)
       end.

(** [math.ceil(a / b)] for integers [a] and [b]. *)
Definition ceil_div (a b : Z) : M Z :=
  if b =? 0 then raise ZeroDivisionError else ret (- ((- a) / b)).

(** [len(x)] *)
Definition py_len (x : pyobj) : M Z :=
  match x with
  | PSeq l => ret (Z.of_nat (length l))
  | _ => raise TypeError
  end.

(** [x[i]] on a list or tuple. *)
Definition py_getitem (x : pyobj) (i : Z) : M pyobj :=
  match x with
  | PSeq l => tuple_getitem l i
  | _ => raise TypeError
  end.

(** A value as an operand of arithmetic: a number, or a [TypeError] for a
    sequence. *)
Definition py_num (x : pyobj) : M num :=
  match x with
  | PInt z => ret (NInt z)
  | PFloat f => ret (NFloat f)
  | PSeq _ => raise TypeError
  end.

(** [slice(start, stop, step).indices(length)], as CPython computes it. *)
Definition slice_indices (start stop step : option Z) (length : Z) : M (Z * Z * Z) :=
  let step := default 1 step in
  if step =? 0 then raise ValueError
  else if length <? 0 then raise ValueError
  else
    let lower := if step <? 0 then -1 else 0 in
    let upper := if step <? 0 then length - 1 else length in
    let clip (v : Z) := if v <? 0 then Z.max (v + length) lower else Z.min v upper in
    let start := match start with
                 | None => if step <? 0 then upper else lower
                 | Some v => clip v
                 end in
    let stop := match stop with
                | None => if step <? 0 then lower else upper
                | Some v => clip v
                end in
    ret (start, stop, step).

(** ** The driver *)

Definition START_HEADER_SIZE : Z := 4.
Definition LED_START : Z := 224.  (* 0b11100000 *)

Definition RGB : Z * Z * Z := (0, 1, 2).
Definition RBG : Z * Z * Z := (0, 2, 1).
Definition GRB : Z * Z * Z := (1, 0, 2).
Definition GBR : Z * Z * Z := (1, 2, 0).
Definition BRG : Z * Z * Z := (2, 0, 1).
Definition BGR : Z * Z * Z := (2, 1, 0).
Definition pixel_orders : list (Z * Z * Z) := [RGB; RBG; GRB; GBR; BRG; BGR].

(** The subscript of [strip[...]]: an integer or a slice. *)
Inductive subscript : Type :=
  | Index (i : Z)
  | Slice (start stop step : option Z).

(** [_ds_writebytes(buf, start, length)]: the bit-banged transmission. *)
Definition _ds_writebytes (buf : loc) (start length : Z) : M unit :=
  length <- (if length =? -1 then ba_len buf else ret length) ;;
  for_ (range2 start length) (λ i,
    for_ (range1 8) (λ _,
      emit (Cpin true) ;;
      v <- ba_getitem buf i ;;
      emit (Dpin (negb (Z.land v 128 =? 0))) ;;
      emit (Cpin false) ;;
      v <- ba_getitem buf i ;;
      ba_setitem buf i (PInt (Z.shiftl v 1)))).

(** [show(line)] *)
Definition show (line : Z) : M unit :=
  live <- gets _buf ;;
  brightness <- gets _brightness ;;
  buf <- (if num_ltb brightness num_1 then
            buf <- bytearray_copy live ;;
            for_ (range1 START_HEADER_SIZE) (λ i, ba_setitem buf i (PInt 0)) ;;
            ehi <- gets end_header_index ;;
            for_ (range2 START_HEADER_SIZE ehi) (λ i,
              v <- ba_getitem live i ;;
              if i mod 4 =? 0 then ba_setitem buf i (PInt v)
              else
                b <- gets _brightness ;;
                p <- lift (num_mul (NInt v) b) ;;
                t <- lift (num_int p) ;;
                ba_setitem buf i (PInt t)) ;;
            ehi <- gets end_header_index ;;
            len <- ba_len buf ;;
            for_ (range2 ehi len) (λ i, ba_setitem buf i (PInt 255)) ;;
            ret buf
          else ret live) ;;
  spi <- gets _spi ;;
  n <- gets _n ;;
  if spi then
    l <- gets (λ s, default [] (heap s !! buf)) ;;
    emit (SpiWrite l (line * n) ((line + 1) * n))
  else
    _ds_writebytes buf (line * n) ((line + 1) * n) ;;
    emit (Cpin false).

(** The [brightness] setter. *)
Definition set_brightness (brightness : num) : M unit :=
  set__brightness (py_min (py_max brightness num_0) num_1) ;;
  aw <- gets auto_write ;;
  if aw then show 0 else ret tt.

(** The state before [__init__] has assigned anything. *)
Definition blank : state :=
  State false 0 0 0 0 0%nat (0, 0, 0) (NInt 0) false [] [].

(** [__init__(clock, data, n, line, brightness, auto_write, pixel_order)].
    [spi_ok] says whether [busio.SPI(clock, MOSI=data)] succeeds; when it
    does not, the two pins are set up and the clock pin is driven low. *)
Definition __init__ (spi_ok : bool) (n line : Z) (brightness : num)
    (aw : bool) (po : Z * Z * Z) : M unit :=
  set_spi false ;;
  set_line line ;;
  (if spi_ok then set_spi true else emit (Cpin false)) ;;
  set_n n ;;
  set_end_header_size (n / 16) ;;
  (if negb (n mod 16 =? 0) then
     ehs <- gets end_header_size ;; set_end_header_size (ehs + 1)
   else ret tt) ;;
  ehs <- gets end_header_size ;;
  b <- bytearray (line * n * 4 + line * START_HEADER_SIZE + line * ehs) ;;
  set_buf b ;;
  ehs <- gets end_header_size ;;
  set_end_header_index (START_HEADER_SIZE + n * 4 - ehs) ;;
  set_pixel_order po ;;
  for_ (range1 line) (λ j,
    for_ (range1 START_HEADER_SIZE) (λ i,
      buf <- gets _buf ;; ba_setitem buf (j * n + i) (PInt 0)) ;;
    ehi <- gets end_header_index ;;
    for_ (range3 START_HEADER_SIZE ehi 4) (λ i,
      buf <- gets _buf ;; ba_setitem buf (j * n + i) (PInt 255)) ;;
    ehi <- gets end_header_index ;;
    ehs <- gets end_header_size ;;
    for_ (range2 ehi (ehi + ehs)) (λ i,
      buf <- gets _buf ;; ba_setitem buf (j * n + i) (PInt 255))) ;;
  set__brightness num_1 ;;
  set_auto_write false ;;
  set_brightness brightness ;;
  set_auto_write aw.

(** [_set_item(index, value)] *)
Definition _set_item (index : Z) (value : pyobj) : M unit :=
  n <- gets _n ;;
  num <- (if n <? index then ceil_div n index else ret 0) ;;
  let offset := index * 4 + START_HEADER_SIZE * (num + 1) in
  let rgb :=
    match value with
    | PInt v => PSeq [PInt (Z.shiftr v 16);
                      PInt (Z.land (Z.shiftr v 8) 255);
                      PInt (Z.land v 255)]
    | _ => value
    end in
  len <- py_len rgb ;;
  brightness <- (if len =? 4 then py_getitem value 3 else ret (PInt 1)) ;;
  b <- py_num brightness ;;
  p <- lift (num_mul b (NInt 31)) ;;
  d <- lift (num_sub (NInt 32) p) ;;
  t <- lift (num_int d) ;;
  let brightness_byte := Z.land (32 - t) 31 in
  buf <- gets _buf ;;
  ba_setitem buf offset (PInt (Z.lor brightness_byte LED_START)) ;;
  po <- gets pixel_order ;;
  c <- py_getitem rgb po.1.1 ;;
  buf <- gets _buf ;;
  ba_setitem buf (offset + 1) c ;;
  po <- gets pixel_order ;;
  c <- py_getitem rgb po.1.2 ;;
  buf <- gets _buf ;;
  ba_setitem buf (offset + 2) c ;;
  po <- gets pixel_order ;;
  c <- py_getitem rgb po.2 ;;
  buf <- gets _buf ;;
  ba_setitem buf (offset + 3) c.

(** [enumerate(xs)] *)
Definition enumerate {A} (xs : list A) : list (Z * A) :=
  zip (seqZ 0 (Z.of_nat (length xs))) xs.

(** [__setitem__(index, val)] *)
Definition __setitem__ (index : subscript) (val : pyobj) : M unit :=
  match index with
  | Slice start stop step =>
      n <- gets _n ;;
      ix <- slice_indices start stop step n ;;
      let '(start, stop, step) := ix in
      let length := stop - start in
      let length :=
        if negb (step =? 0) then (length + step - 1) / step else length in
      len <- py_len val ;;
      if negb (len =? length) then raise ValueError
      else
        for_ (enumerate (range3 start stop step)) (λ p,
          v <- py_getitem val p.1 ;; _set_item p.2 v)
  | Index index => _set_item index val
  end ;;
  aw <- gets auto_write ;;
  if aw then show 0 else ret tt.

(** [__len__()] and the built-in [len(self)], which refuses a negative
    answer. *)
Definition __len__ : M Z := gets _n.
Definition len_self : M Z :=
  n <- __len__ ;; if n <? 0 then raise ValueError else ret n.

(** [__getitem__(index)] *)
Definition __getitem__ (index : subscript) : M pyobj :=
  match index with
  | Slice start stop step =>
      n <- gets _n ;;
      ix <- slice_indices start stop step n ;;
      let '(start, stop, step) := ix in
      let fix collect (xs : list Z) : M (list pyobj) :=
        match xs with
        | [] => ret []
        | in_i :: xs' =>
            buf <- gets _buf ;;
            a <- ba_getitem buf (in_i * 4 + (3 - 0) + START_HEADER_SIZE) ;;
            b <- ba_getitem buf (in_i * 4 + (3 - 1) + START_HEADER_SIZE) ;;
            c <- ba_getitem buf (in_i * 4 + (3 - 2) + START_HEADER_SIZE) ;;
            out <- collect xs' ;;
            ret (PSeq [PInt a; PInt b; PInt c] :: out)
        end in
      out <- collect (range3 start stop step) ;;
      ret (PSeq out)
  | Index index =>
      index <- (if index <? 0 then n <- len_self ;; ret (index + n)
                else ret index) ;;
      n <- gets _n ;;
      if (n <=? index) || (index <? 0) then raise IndexError
      else
        let offset := index * 4 in
        buf <- gets _buf ;;
        a <- ba_getitem buf (offset + (3 - 0) + START_HEADER_SIZE) ;;
        b <- ba_getitem buf (offset + (3 - 1) + START_HEADER_SIZE) ;;
        c <- ba_getitem buf (offset + (3 - 2) + START_HEADER_SIZE) ;;
        ret (PSeq [PInt a; PInt b; PInt c])
  end.

(** The contents of the live frame buffer. *)
Definition frame (s : state) : option (list Z) := heap s !! _buf s.

(** [fill(color)] *)
Definition fill (color : pyobj) : M unit :=
  aw <- gets auto_write ;;
  set_auto_write false ;;
  n <- gets _n ;;
  for_ (range1 n) (λ i, __setitem__ (Index i) color) ;;
  (if aw then show 0 else ret tt) ;;
  set_auto_write aw.

(** [deinit()].  The release of the collaborators, which comes last
    ([self._spi.deinit()], or [self.dpin.deinit()] and
    [self.cpin.deinit()]), is reported as the result. *)
Inductive released : Type :=
  | ReleasedSpi
  | ReleasedPins.

Definition deinit : M released :=
  set_auto_write false ;;
  ehi <- gets end_header_index ;;
  for_ (range2 START_HEADER_SIZE ehi) (λ i,
    if negb (i mod 4 =? 0) then
      buf <- gets _buf ;; ba_setitem buf i (PInt 0)
    else ret tt) ;;
  show 0 ;;
  spi <- gets _spi ;;
  if spi then ret ReleasedSpi else ret ReleasedPins.

(** ** Vocabulary of the statements *)

(** *** Numbers *)

(** A float that binary64 can hold: the mantissa has 53 bits, or fewer at
    the smallest exponent. *)
Definition is_float (f : float) : Prop := valid_binary prec emax f = true.
Definition num_valid (b : num) : Prop :=
  match b with
  | NInt _ => True
  | NFloat f => is_float f
  end.

Definition is_nan (b : num) : bool :=
  match b with
  | NFloat S754_nan => true
  | _ => false
  end.

(** The value of a number as a rational (0 for an infinity or NaN). *)
Definition float_val (f : float) : Q :=
  match f with
  | S754_finite s m e =>
      let z := if s then Z.neg m else Z.pos m in
      if 0 <=? e then inject_Z (z * 2 ^ e) else z # Z.to_pos (2 ^ (- e))
  | _ => 0
  end.
Definition num_val (b : num) : Q :=
  match b with
  | NInt z => inject_Z z
  | NFloat f => float_val f
  end.

(** The floats 0.5 and 0.75, which are exact, and the float nearest to
    0.7, [0x3FE6666666666666]. *)
Definition half : num := NFloat (dyadic 1 (-1)).
Definition three_quarters : num := NFloat (dyadic 3 (-2)).
Definition seven_tenths : num := NFloat (S754_finite false 6305039478318694 (-53)).

(** [f] is zero, or a positive float of exponent at most 0 whose value
    lies between the integers [lo] and [hi]. *)
Definition between (lo hi : Z) (f : float) : Prop :=
  match f with
  | S754_zero _ => lo ≤ 0 ≤ hi
  | S754_finite false m e =>
      e ≤ 0 ∧ lo * 2 ^ (- e) ≤ Z.pos m ≤ hi * 2 ^ (- e)
  | _ => False
  end.

(** [int(v * b)], the scaling of a byte that [show] does, and its value
    when it is defined. *)
Definition scale (v : Z) (b : num) : res Z :=
  res_bind (num_mul (NInt v) b) num_int.
Definition scaled (v : Z) (b : num) : Z :=
  match scale v b with
  | Ok t => t
  | Raise _ => 0
  end.

(** The attributes of the object, without the store and the trace. *)
Definition attrs (s : state) :=
  (_spi s, _line s, _n s, end_header_size s, end_header_index s,
   _buf s, pixel_order s, _brightness s, auto_write s).

(** The state in which the live frame buffer holds [l]. *)
Definition upd (s : state) (l : list Z) : state :=
  with_heap (<[_buf s := l]> (heap s)) s.

(** [z] fits a byte. *)
Definition is_byte (z : Z) : bool := (0 <=? z) && (z <? 256).

(** A freshly constructed single-line strip of [n] pixels that does not
    write on its own. *)
Definition strip (spi_ok : bool) (n : Z) (brightness : num) (po : Z * Z * Z) : state :=
  (__init__ spi_ok n 1 brightness false po blank).2.

(** *** Construction *)

(** The end-frame length [ceil(n / 16)], computed as [n / 16] when [n] is a
    multiple of 16 and [n / 16 + 1] otherwise, and the length of one line
    of the frame buffer. *)
Definition ceil16 (n : Z) : Z := if n mod 16 =? 0 then n / 16 else n / 16 + 1.
Definition per_line (n : Z) : Z := n * 4 + 4 + ceil16 n.

(** The invariant of the initialisation loops: the attributes are those of
    [s0], no array was allocated, and the live frame buffer has the length
    of [L] lines. *)
Definition sized (n L ehs : Z) (s0 s : state) : Prop :=
  attrs s = attrs s0 ∧ length (heap s) = length (heap s0) ∧
  ∃ l, frame s = Some l ∧ Z.of_nat (length l) = L * (n * 4 + 4 + ehs).

(** *** Pixel writes *)

(** The byte offset of the frame that [_set_item] writes for [index] on a
    strip of [n] pixels: [index * 4 + 4], and 4 more once [index > n]. *)
Definition set_offset (n index : Z) : Z :=
  index * 4
  + START_HEADER_SIZE * ((if n <? index then - ((- n) / index) else 0) + 1).

(** The header byte that [_set_item] computes from a per-pixel brightness:
    [32 - int(32 - b * 31) & 0b00011111 | LED_START]. *)
Definition header_byte (b : num) : res Z :=
  res_bind (num_mul b (NInt 31)) (λ p,
  res_bind (num_sub (NInt 32) p) (λ d,
  res_bind (num_int d) (λ t,
  Ok (Z.lor (Z.land (32 - t) 31) LED_START)))).

(** The per-pixel brightness of a colour: the fourth component of a
    quadruple, and 1 for a packed integer or any other sequence. *)
Definition pixel_brightness (value : pyobj) : option num :=
  match value with
  | PInt _ => Some (NInt 1)
  | PFloat _ => None
  | PSeq t =>
      if Z.of_nat (length t) =? 4 then
        match t !! 3%nat with
        | Some (PInt z) => Some (NInt z)
        | Some (PFloat f) => Some (NFloat f)
        | _ => None
        end
      else Some (NInt 1)
  end.

(** Channel [k] of the colour [(r, g, b)]. *)
Definition channel (r g b : Z) (k : Z) : Z :=
  if k =? 0 then r else if k =? 1 then g else b.

(** The [rgb] tuple of [_set_item], and the four stores that end it. *)
Definition rgb_of (value : pyobj) : pyobj :=
  match value with
  | PInt v => PSeq [PInt (Z.shiftr v 16);
                    PInt (Z.land (Z.shiftr v 8) 255);
                    PInt (Z.land v 255)]
  | _ => value
  end.

(** The three colour components of a value, when they are integers. *)
Definition channels (value : pyobj) : option (Z * Z * Z) :=
  match rgb_of value with
  | PSeq (PInt r :: PInt g :: PInt b :: _) => Some (r, g, b)
  | _ => None
  end.

Definition store_pixel (offset h : Z) (rgb : pyobj) : M unit :=
  buf <- gets _buf ;;
  ba_setitem buf offset (PInt h) ;;
  po <- gets pixel_order ;;
  c <- py_getitem rgb po.1.1 ;;
  buf <- gets _buf ;;
  ba_setitem buf (offset + 1) c ;;
  po <- gets pixel_order ;;
  c <- py_getitem rgb po.1.2 ;;
  buf <- gets _buf ;;
  ba_setitem buf (offset + 2) c ;;
  po <- gets pixel_order ;;
  c <- py_getitem rgb po.2 ;;
  buf <- gets _buf ;;
  ba_setitem buf (offset + 3) c.

(** Bytes stored one after the other from [offset] on, each store indexing
    the array as Python does; the first offset outside the array stops the
    run with [IndexError], the bytes before it staying stored. *)
Fixpoint store_bytes (l : list Z) (offset : Z) (bs : list Z) : res unit * list Z :=
  match bs with
  | [] => (Ok tt, l)
  | x :: bs' =>
      match norm_index (Z.of_nat (length l)) offset with
      | Some k => store_bytes (<[k := x]> l) (offset + 1) bs'
      | None => (Raise IndexError, l)
      end
  end.

(** Python's [round(x)] on a float: to the nearest integer, ties to the
    even one.  The specification words the header byte with it. *)
Definition py_round (x : Q) : Z :=
  let f := Qfloor x in
  match (x - inject_Z f ?= 1 # 2)%Q with
  | Lt => f
  | Gt => f + 1
  | Eq => if Z.even f then f else f + 1
  end.
Definition spec_header_byte (pb : Q) : Z :=
  Z.lor (Z.land (py_round (pb * 31)) 31) 224.

(** *** Transmission *)

(** One byte pushed through the eight in-place shifts of [_ds_writebytes]:
    the value left in the array, and whether all [k] stores were accepted. *)
Fixpoint clock_out (k : nat) (v : Z) : Z * bool :=
  match k with
  | O => (v, true)
  | S k' =>
      if is_byte (Z.shiftl v 1) then clock_out k' (Z.shiftl v 1) else (v, false)
  end.

(** The bit-banged transmission of the bytes at the indices [xs], as a run
    over the array: each byte goes through [clock_out], and the run stops
    with [ValueError] at the first byte one of whose stores is refused. *)
Fixpoint clock_bytes (l : list Z) (xs : list Z) : res unit * list Z :=
  match xs with
  | [] => (Ok tt, l)
  | i :: xs' =>
      match norm_index (Z.of_nat (length l)) i with
      | Some k =>
          match l !! k with
          | Some v =>
              let out := clock_out 8 v in
              if out.2 then clock_bytes (<[k := out.1]> l) xs'
              else (Raise ValueError, <[k := out.1]> l)
          | None => (Raise IndexError, l)
          end
      | None => (Raise IndexError, l)
      end
  end.

(** The invariant of the rendering loops of [show] started in [s0]: the
    attributes are untouched and one array, the output buffer, has been
    added to the store. *)
Definition rendering (s0 s : state) : Prop :=
  attrs s = attrs s0 ∧ ∃ t, heap s = heap s0 ++ [t].

(** *** Runs of stores *)

(** The stores [(position, byte)] of [ws] done one after the other on the
    array [t]. *)
Definition write_all (ws : list (nat * Z)) (t : list Z) : list Z :=
  foldl (λ t pv, <[pv.1 := pv.2]> t) t ws.

(** The state in which the array at [b] holds [t]. *)
Definition updb (b : loc) (t : list Z) (s : state) : state :=
  with_heap (<[b := t]> (heap s)) s.

(** The state with one more event in its trace. *)
Definition logged (e : event) (s : state) : state :=
  State (_spi s) (_line s) (_n s) (end_header_size s) (end_header_index s)
        (_buf s) (pixel_order s) (_brightness s) (auto_write s) (heap s)
        (trace s ++ [e]).

(** The state with [auto_write] set to [v]. *)
Definition with_auto_write (v : bool) (s : state) : state :=
  State (_spi s) (_line s) (_n s) (end_header_size s) (end_header_index s)
        (_buf s) (pixel_order s) (_brightness s) v (heap s) (trace s).

(** The stores of the bytes [G i] at the positions [i] of [xs]. *)
Definition stores (G : Z → Z) (xs : list Z) : list (nat * Z) :=
  (λ i, (Z.to_nat i, G i)) <$> xs.

(** What [show] renders from the frame buffer [l] at a brightness [b]
    below 1: [0xFF] from [end_header_index] on, zero in the start frame,
    the bytes at multiples of 4 as they are and the others scaled. *)
Definition rendered (ehi : Z) (b : num) (l : list Z) : list Z :=
  imap (λ k v,
    let i := Z.of_nat k in
    if ehi <=? i then 255
    else if i <? START_HEADER_SIZE then 0
    else if i mod 4 =? 0 then v
    else scaled v b) l.

(** What [deinit] leaves of the frame buffer [l]: zero at the offsets from
    4 up to [end_header_index] that are not multiples of 4. *)
Definition blanked (ehi : Z) (l : list Z) : list Z :=
  imap (λ k v,
    let i := Z.of_nat k in
    if (START_HEADER_SIZE <=? i) && (i <? ehi) && negb (i mod 4 =? 0)
    then 0 else v) l.

(** The frame buffer of a strip of one line after construction. *)
Definition initial (n : Z) : list Z :=
  (λ i, if i <? START_HEADER_SIZE then 0
        else if i <? START_HEADER_SIZE + n * 4 - ceil16 n then
          (if i mod 4 =? 0 then 255 else 0)
        else if i <? START_HEADER_SIZE + n * 4 then 255
        else 0) <$> seqZ 0 (per_line n).

(** The frame buffer [l] with every pixel of a strip of [n] pixels set to
    the header 255 and the stored colour bytes [c1], [c2], [c3]. *)
Definition filled (n c1 c2 c3 : Z) (l : list Z) : list Z :=
  imap (λ k v,
    let i := Z.of_nat k in
    if (START_HEADER_SIZE <=? i) && (i <? START_HEADER_SIZE + n * 4) then
      (if i mod 4 =? 0 then 255
       else if i mod 4 =? 1 then c1
       else if i mod 4 =? 2 then c2
       else c3)
    else v) l.

(** The buffer that [show] hands to the peripheral, and the state it
    leaves on the hardware path: below full brightness a rendered copy has
    been added to the store. *)
Definition sent (s : state) (l : list Z) : list Z :=
  if num_ltb (_brightness s) num_1
  then rendered (end_header_index s) (_brightness s) l else l.

Definition shown (line : Z) (s : state) (l : list Z) : state :=
  logged (SpiWrite (sent s l) (line * _n s) ((line + 1) * _n s))
    (if num_ltb (_brightness s) num_1 then with_heap (heap s ++ [sent s l]) s else s).

(** The pixel that an indexed read returns from the frame buffer [l] of a
    strip: the three colour bytes of pixel [i], last stored first. *)
Definition pixel_at (l : list Z) (i : Z) : pyobj :=
  PSeq [PInt (l !!! Z.to_nat (i * 4 + 7));
        PInt (l !!! Z.to_nat (i * 4 + 6));
        PInt (l !!! Z.to_nat (i * 4 + 5))].

(** The outcome of an indexed read on a strip of [n] pixels. *)
Definition read_pixel (n : Z) (l : list Z) (index : Z) : res pyobj :=
  let i := if index <? 0 then index + n else index in
  if (n <=? i) || (i <? 0) then Raise IndexError else Ok (pixel_at l i).

(** A colour as the tuple [(r, g, b)]. *)
Definition triple (c : Z * Z * Z) : pyobj :=
  PSeq [PInt c.1.1; PInt c.1.2; PInt c.2].

(** The four stores of a pixel write of the colour [c] at pixel [j], for
    the pixel order [po]. *)
Definition pixel_stores (po c : Z * Z * Z) (j : Z) : list (nat * Z) :=
  [(Z.to_nat (j * 4 + 4), 255);
   (Z.to_nat (j * 4 + 5), channel c.1.1 c.1.2 c.2 po.1.1);
   (Z.to_nat (j * 4 + 6), channel c.1.1 c.1.2 c.2 po.1.2);
   (Z.to_nat (j * 4 + 7), channel c.1.1 c.1.2 c.2 po.2)].

(** *** Invariants *)

(** A strip in working order, with [l] for its frame buffer: the buffer
    holds bytes and has room for the start frame and [n] pixel frames,
    [end_header_index] lies between the start frame and the end of the
    buffer, the pixel order is one of the six and the brightness is a
    number that binary64 can hold and is not negative (NaN, which is not
    below 1.0, is let through). *)
Definition well_formed (s : state) (l : list Z) : Prop :=
  frame s = Some l
  ∧ Forall (λ v, is_byte v = true) l
  ∧ 0 ≤ _n s
  ∧ START_HEADER_SIZE + 4 * _n s ≤ Z.of_nat (length l)
  ∧ START_HEADER_SIZE ≤ end_header_index s ≤ Z.of_nat (length l)
  ∧ pixel_order s ∈ pixel_orders
  ∧ num_valid (_brightness s)
  ∧ num_ltb (_brightness s) num_0 = false.

(** An array of bytes, and a store all of whose arrays are. *)
Definition bytes (l : list Z) : Prop := Forall (λ v, is_byte v = true) l.
Definition heap_bytes (s : state) : Prop := Forall bytes (heap s).

(** [m] keeps [P], however it ends. *)
Definition pres {A} (P : state → Prop) (m : M A) : Prop :=
  ∀ s, P s → P (m s).2.

(** A property of the store that survives a checked store into an array,
    the allocation of an array of zero bytes and the copy of an array. *)
Definition store_closed (P : list (list Z) → Prop) : Prop :=
  (∀ h b l k z,
     h !! b = Some l → is_byte z = true → (k < length l)%nat →
     P h → P (<[b := <[k := z]> l]> h))
  ∧ (∀ h size, P h → P (h ++ [replicate size 0]))
  ∧ (∀ h b l, h !! b = Some l → P h → P (h ++ [l])).

(** A property of the state that does not look at the store, or at the
    trace. *)
Definition store_blind (P : state → Prop) : Prop :=
  ∀ s h, P s → P (with_heap h s).
Definition trace_blind (P : state → Prop) : Prop :=
  ∀ s e, P s → P (logged e s).

(** * Properties *)

(** ** Binary64 arithmetic *)

Lemma digits2_pos_bounds m :
  2 ^ (Z.pos (digits2_pos m) - 1) ≤ Z.pos m < 2 ^ Z.pos (digits2_pos m).
Proof.
  induction m as [m IH|m IH|]; cbn [digits2_pos].
  - rewrite Pos2Z.inj_succ.
    replace (Z.succ (Z.pos (digits2_pos m)) - 1) with (Z.succ (Z.pos (digits2_pos m) - 1)) by lia.
    rewrite !Z.pow_succ_r by lia. lia.
  - rewrite Pos2Z.inj_succ.
    replace (Z.succ (Z.pos (digits2_pos m)) - 1) with (Z.succ (Z.pos (digits2_pos m) - 1)) by lia.
    rewrite !Z.pow_succ_r by lia. lia.
  - cbn. lia.
Qed.

Lemma mod_pow2_split m a b :
  0 ≤ a → 0 ≤ b →
  (m mod 2 ^ a = 0 ∧ (m / 2 ^ a) mod 2 ^ b = 0) ↔ m mod 2 ^ (a + b) = 0.
Proof.
  intros Ha Hb. rewrite Z.pow_add_r by done.
  assert (0 < 2 ^ a) by (apply Z.pow_pos_nonneg; lia).
  assert (0 < 2 ^ b) by (apply Z.pow_pos_nonneg; lia).
  rewrite Z.rem_mul_r by lia.
  pose proof (Z.mod_pos_bound m (2 ^ a) ltac:(lia)).
  pose proof (Z.mod_pos_bound (m / 2 ^ a) (2 ^ b) ltac:(lia)).
  nia.
Qed.

Lemma shr_1_spec m r s :
  0 ≤ m →
  shr_m (shr_1 (Build_shr_record m r s)) = m / 2
  ∧ (shr_r (shr_1 (Build_shr_record m r s))
     || shr_s (shr_1 (Build_shr_record m r s)) = false
     ↔ r || s = false ∧ m mod 2 = 0).
Proof.
  intros Hm. destruct m as [|[p|p|]|p]; [| | | |lia]; cbn [shr_1 shr_m shr_r shr_s].
  - split; [done|]. cbn. tauto.
  - split; [rewrite (Pos2Z.inj_xI p); apply Z.div_unique with 1; lia|].
    rewrite (Pos2Z.inj_xI p).
    replace ((2 * Z.pos p + 1) mod 2) with 1
      by (apply Z.mod_unique with (Z.pos p); lia).
    cbn. split; [done|]. intros [_ ?]. lia.
  - split; [rewrite (Pos2Z.inj_xO p); apply Z.div_unique with 0; lia|].
    rewrite (Pos2Z.inj_xO p).
    replace ((2 * Z.pos p) mod 2) with 0
      by (apply Z.mod_unique with (Z.pos p); lia).
    cbn. tauto.
  - split; [done|]. change (1 mod 2) with 1. cbn [orb].
    split; [done|]. intros [_ ?]. lia.
Qed.

Lemma iter_shr_spec p : ∀ m r s,
  0 ≤ m →
  let out := SpecFloat.iter_pos shr_1 p (Build_shr_record m r s) in
  0 ≤ shr_m out
  ∧ shr_m out = m / 2 ^ Z.pos p
  ∧ (shr_r out || shr_s out = false ↔ r || s = false ∧ m mod 2 ^ Z.pos p = 0).
Proof.
  induction p as [p IH|p IH|]; intros m r s Hm; cbn [SpecFloat.iter_pos]; cbv zeta.
  - destruct (shr_1_spec m r s Hm) as [E1 B1].
    destruct (shr_1 _) as [m1 r1 s1]. cbn [shr_m shr_r shr_s] in *.
    assert (H1 : 0 ≤ m1) by (subst m1; apply Z.div_pos; lia).
    destruct (IH m1 r1 s1 H1) as (P2 & E2 & B2). cbv zeta in *.
    destruct (SpecFloat.iter_pos shr_1 p _) as [m2 r2 s2]. cbn [shr_m shr_r shr_s] in *.
    destruct (IH m2 r2 s2 P2) as (P3 & E3 & B3). cbv zeta in *.
    split; [done|]. split.
    + rewrite E3, E2, E1. rewrite !Z.div_div by (try apply Z.pow_pos_nonneg; lia).
      f_equal. rewrite (Pos2Z.inj_xI p).
      replace (2 * Z.pos p + 1) with (1 + Z.pos p + Z.pos p) by lia.
      rewrite !Z.pow_add_r by lia. lia.
    + rewrite B3, B2, B1. rewrite E2, E1.
      rewrite (Pos2Z.inj_xI p).
      replace (2 * Z.pos p + 1) with (1 + Z.pos p + Z.pos p) by lia.
      rewrite <- (mod_pow2_split m (1 + Z.pos p) (Z.pos p)) by lia.
      rewrite <- (mod_pow2_split m 1 (Z.pos p)) by lia.
      rewrite (Z.pow_add_r 2 1) by lia.
      rewrite <- Z.div_div by (try apply Z.pow_pos_nonneg; lia).
      change (2 ^ 1) with 2. tauto.
  - destruct (IH m r s Hm) as (P2 & E2 & B2). cbv zeta in *.
    destruct (SpecFloat.iter_pos shr_1 p _) as [m2 r2 s2]. cbn [shr_m shr_r shr_s] in *.
    destruct (IH m2 r2 s2 P2) as (P3 & E3 & B3). cbv zeta in *.
    split; [done|]. split.
    + rewrite E3, E2. rewrite !Z.div_div by (try apply Z.pow_pos_nonneg; lia).
      f_equal. rewrite (Pos2Z.inj_xO p).
      replace (2 * Z.pos p) with (Z.pos p + Z.pos p) by lia.
      rewrite !Z.pow_add_r by lia. lia.
    + rewrite B3, B2. rewrite E2.
      rewrite (Pos2Z.inj_xO p).
      replace (2 * Z.pos p) with (Z.pos p + Z.pos p) by lia.
      rewrite <- (mod_pow2_split m (Z.pos p) (Z.pos p)) by lia. tauto.
  - destruct (shr_1_spec m r s Hm) as [E1 B1].
    split; [rewrite E1; apply Z.div_pos; lia|]. done.
Qed.

Lemma round_nearest_even_spec (mrs : shr_record) :
  let v := round_nearest_even (shr_m mrs) (loc_of_shr_record mrs) in
  shr_m mrs ≤ v ≤ shr_m mrs + 1 ∧ (shr_r mrs || shr_s mrs = false → v = shr_m mrs).
Proof.
  destruct mrs as [m [] []]; cbn; try destruct (Z.even m); split; (lia || done).
Qed.

Lemma pow2_pos e : 0 < 2 ^ e ∨ e < 0.
Proof. destruct (Z.le_gt_cases 0 e); [left; by apply Z.pow_pos_nonneg|by right]. Qed.

Lemma fexp_small d E hi M :
  E ≤ 0 → hi < 2 ^ 52 →
  2 ^ (d - 1) ≤ M → M ≤ hi * 2 ^ (- E) → 0 < d →
  fexp prec emax (d + E) ≤ -1.
Proof.
  intros HE Hhi Hd HM Hd0.
  assert (0 < 2 ^ (- E)) by (apply Z.pow_pos_nonneg; lia).
  assert (2 ^ (d - 1) < 2 ^ (52 - E)).
  { replace (52 - E) with (52 + - E) by lia. rewrite Z.pow_add_r by lia. nia. }
  assert (d - 1 < 52 - E) by (apply (Z.pow_lt_mono_r_iff 2); lia).
  unfold fexp, emin, prec, emax. lia.
Qed.

(** A mantissa bracketed at exponent [e], shifted right by [p] bits and
    rounded, is bracketed at exponent [e + p]. *)
Lemma shr_pos_between lo hi m e p :
  0 ≤ m → e + Z.pos p ≤ 0 →
  lo * 2 ^ (- e) ≤ m ≤ hi * 2 ^ (- e) →
  let mrs := SpecFloat.iter_pos shr_1 p (Build_shr_record m false false) in
  let v := round_nearest_even (shr_m mrs) (loc_of_shr_record mrs) in
  0 ≤ shr_m mrs
  ∧ lo * 2 ^ (- (e + Z.pos p)) ≤ shr_m mrs
  ∧ shr_m mrs ≤ hi * 2 ^ (- (e + Z.pos p))
  ∧ shr_m mrs ≤ v ≤ hi * 2 ^ (- (e + Z.pos p)).
Proof.
  intros Hm Hg [Hlo Hhi] mrs v.
  destruct (iter_shr_spec p m false false Hm) as (P & E & B). fold mrs in P, E, B.
  destruct (round_nearest_even_spec mrs) as [V1 V2]. fold v in V1, V2.
  set (g := e + Z.pos p) in *.
  assert (Hpow : 2 ^ (- e) = 2 ^ (- g) * 2 ^ Z.pos p).
  { rewrite <- Z.pow_add_r by lia. f_equal. lia. }
  assert (0 < 2 ^ Z.pos p) by (apply Z.pow_pos_nonneg; lia).
  assert (0 < 2 ^ (- g)) by (apply Z.pow_pos_nonneg; lia).
  rewrite Hpow in Hlo, Hhi.
  assert (L : lo * 2 ^ (- g) ≤ shr_m mrs).
  { rewrite E. apply Z.div_le_lower_bound; lia. }
  assert (U : shr_m mrs ≤ hi * 2 ^ (- g)).
  { rewrite E. apply Z.div_le_upper_bound; lia. }
  split; [done|]. split; [done|]. split; [done|]. split; [lia|].
  destruct (shr_r mrs || shr_s mrs) eqn:Hb.
  - assert (m mod 2 ^ Z.pos p ≠ 0).
    { intros Hz. destruct B as [_ B]. discriminate B. by split. }
    assert (m < hi * 2 ^ (- g) * 2 ^ Z.pos p).
    { destruct (decide (m = hi * 2 ^ (- g) * 2 ^ Z.pos p)) as [->|]; [|lia].
      rewrite Z.mod_mul in * by lia. done. }
    assert (shr_m mrs < hi * 2 ^ (- g)).
    { rewrite E. apply Z.div_lt_upper_bound; lia. }
    lia.
  - rewrite V2 by done. done.
Qed.

Lemma round_aux_between M E lo hi :
  E ≤ 0 → 0 ≤ lo → hi < 2 ^ 52 →
  lo * 2 ^ (- E) ≤ Z.pos M ≤ hi * 2 ^ (- E) →
  between lo hi (binary_round_aux prec emax false (Z.pos M) E loc_Exact).
Proof.
  intros HE Hlo Hhi HM.
  pose proof (digits2_pos_bounds M) as Hd.
  assert (Hg : fexp prec emax (Z.pos (digits2_pos M) + E) ≤ -1).
  { apply (fexp_small _ _ hi (Z.pos M)); lia. }
  unfold binary_round_aux, shr_fexp. cbn [Zdigits2 shr_record_of_loc].
  set (g := fexp prec emax (Z.pos (digits2_pos M) + E)) in *.
  (* the first shift, and the rounding *)
  assert (H1 : ∃ m2 e1,
    (let '(mrs', e') := shr (Build_shr_record (Z.pos M) false false) E (g - E) in
     (round_nearest_even (shr_m mrs') (loc_of_shr_record mrs'), e')) = (m2, e1)
    ∧ e1 ≤ 0 ∧ 0 ≤ m2 ∧ lo * 2 ^ (- e1) ≤ m2 ≤ hi * 2 ^ (- e1)).
  { unfold shr. destruct (g - E) as [|p|p] eqn:Hn.
    - eexists _, _. split; [reflexivity|]. cbn. lia.
    - destruct (shr_pos_between lo hi (Z.pos M) E p) as (P & L & U & V); [lia|lia|lia|].
      eexists _, _. split; [reflexivity|]. lia.
    - eexists _, _. split; [reflexivity|]. cbn. lia. }
  destruct H1 as (m2 & e1 & E1 & He1 & Hm2 & Hb2).
  destruct (shr _ E (g - E)) as [mrs' e']. injection E1 as Em Ee.
  rewrite Em, Ee. clear Em Ee mrs' e'.
  (* the second shift *)
  assert (Hg2 : fexp prec emax (Zdigits2 m2 + e1) ≤ 0).
  { destruct m2 as [|q|q] eqn:Eq; [| |lia].
    - cbn. unfold fexp, emin, prec, emax. lia.
    - cbn [Zdigits2]. pose proof (digits2_pos_bounds q).
      assert (fexp prec emax (Z.pos (digits2_pos q) + e1) ≤ -1); [|lia].
      apply (fexp_small _ _ hi (Z.pos q)); lia. }
  set (g2 := fexp prec emax (Zdigits2 m2 + e1)) in *.
  assert (H2 : ∃ mrs'' e'',
    shr (Build_shr_record m2 false false) e1 (g2 - e1) = (mrs'', e'')
    ∧ e'' ≤ 0 ∧ 0 ≤ shr_m mrs''
    ∧ lo * 2 ^ (- e'') ≤ shr_m mrs'' ≤ hi * 2 ^ (- e'')).
  { unfold shr. destruct (g2 - e1) as [|p|p] eqn:Hn.
    - eexists _, _. split; [reflexivity|]. cbn. lia.
    - destruct (shr_pos_between lo hi m2 e1 p) as (P & L & U & V); [lia|lia|lia|].
      eexists _, _. split; [reflexivity|]. lia.
    - eexists _, _. split; [reflexivity|]. cbn. lia. }
  destruct H2 as (mrs'' & e'' & E2 & He2 & Hm3 & Hb3). rewrite E2.
  destruct (shr_m mrs'') as [|q|q] eqn:Eq; [| |lia].
  - cbn. assert (0 < 2 ^ (- e'')) by (apply Z.pow_pos_nonneg; lia). nia.
  - assert ((e'' <=? emax - prec) = true) as ->.
    { apply Z.leb_le. unfold emax, prec. lia. }
    cbn. lia.
Qed.

Lemma iter_xO m d : Z.pos (Pos.iter xO m d) = Z.pos m * 2 ^ Z.pos d.
Proof.
  induction d as [|d IH] using Pos.peano_ind.
  - cbn. lia.
  - rewrite Pos.iter_succ, Pos2Z.inj_xO, IH, Pos2Z.inj_succ, Z.pow_succ_r by lia. lia.
Qed.

Lemma shl_align_spec mx ex ex' :
  let out := shl_align mx ex ex' in
  out.2 ≤ ex ∧ Z.pos out.1 = Z.pos mx * 2 ^ (ex - out.2)
  ∧ out.2 = Z.min ex ex'.
Proof.
  unfold shl_align. destruct (ex' - ex) as [|d|d] eqn:Hd; cbn [fst snd].
  - replace (ex - ex) with 0 by lia. cbn. lia.
  - replace (ex - ex) with 0 by lia. cbn. lia.
  - rewrite iter_xO. replace (ex - ex') with (Z.pos d) by lia. lia.
Qed.

Lemma round_between mx ex lo hi :
  ex ≤ 0 → 0 ≤ lo → hi < 2 ^ 52 →
  lo * 2 ^ (- ex) ≤ Z.pos mx ≤ hi * 2 ^ (- ex) →
  between lo hi (binary_round prec emax false mx ex).
Proof.
  intros He Hlo Hhi Hm. unfold binary_round.
  pose proof (shl_align_spec mx ex (fexp prec emax (Z.pos (digits2_pos mx) + ex)))
    as (H1 & H2 & _). cbv zeta in *.
  destruct (shl_align _ _ _) as [mz ez]. cbn [fst snd] in *.
  apply round_aux_between; [lia|done|done|].
  rewrite H2.
  assert (2 ^ (- ez) = 2 ^ (- ex) * 2 ^ (ex - ez)) as ->.
  { rewrite <- Z.pow_add_r by lia. f_equal. lia. }
  assert (0 < 2 ^ (ex - ez)) by (apply Z.pow_pos_nonneg; lia).
  nia.
Qed.

(** [float(v)] is [v] for a small natural number. *)
Lemma float_of_Z_between v :
  0 ≤ v < 2 ^ 52 → between v v (float_of_Z v).
Proof.
  intros Hv. unfold float_of_Z, binary_normalize.
  destruct v as [|p|p]; [cbn; lia| |lia].
  apply round_between; [lia|lia|lia|]. cbn. lia.
Qed.

Lemma fmul_between mx ex my ey lo hi :
  ex ≤ 0 → ey ≤ 0 → 0 ≤ lo → hi < 2 ^ 52 →
  lo * (2 ^ (- ex) * 2 ^ (- ey)) ≤ Z.pos mx * Z.pos my ≤ hi * (2 ^ (- ex) * 2 ^ (- ey)) →
  between lo hi (fmul (S754_finite false mx ex) (S754_finite false my ey)).
Proof.
  intros Hex Hey Hlo Hhi H. unfold fmul, SFmul. cbn [xorb].
  apply round_aux_between; [lia|done|done|].
  rewrite Pos2Z.inj_mul.
  replace (- (ex + ey)) with (- ex + - ey) by lia.
  rewrite Z.pow_add_r by lia. done.
Qed.

(** The difference of two positive floats, the first the greater. *)
Lemma fsub_between mx ex my ey lo hi :
  ex ≤ 0 → ey ≤ 0 → 0 ≤ lo → hi < 2 ^ 52 →
  lo * (2 ^ (- ex) * 2 ^ (- ey))
    ≤ Z.pos mx * 2 ^ (- ey) - Z.pos my * 2 ^ (- ex)
    ≤ hi * (2 ^ (- ex) * 2 ^ (- ey)) →
  between lo hi (fsub (S754_finite false mx ex) (S754_finite false my ey)).
Proof.
  intros Hex Hey Hlo Hhi H. unfold fsub, SFsub. cbn [cond_Zopp].
  pose proof (shl_align_spec mx ex (Z.min ex ey)) as (_ & X2 & X3).
  pose proof (shl_align_spec my ey (Z.min ex ey)) as (_ & Y2 & Y3).
  cbv zeta in *.
  destruct (shl_align mx ex _) as [mx' ex']. destruct (shl_align my ey _) as [my' ey'].
  cbn [fst snd] in *.
  set (ez := Z.min ex ey) in *.
  assert (Hx : ex' = ez) by lia. assert (Hy : ey' = ez) by lia.
  clear X3 Y3. subst ex' ey'.
  rewrite X2, Y2.
  assert (Px : 0 < 2 ^ (- ex)) by (apply Z.pow_pos_nonneg; lia).
  assert (Py : 0 < 2 ^ (- ey)) by (apply Z.pow_pos_nonneg; lia).
  assert (Pz : 0 < 2 ^ (- ez)) by (apply Z.pow_pos_nonneg; lia).
  assert (Ex : 2 ^ (- ez) = 2 ^ (- ex) * 2 ^ (ex - ez)).
  { rewrite <- Z.pow_add_r by lia. f_equal. lia. }
  assert (Ey : 2 ^ (- ez) = 2 ^ (- ey) * 2 ^ (ey - ez)).
  { rewrite <- Z.pow_add_r by lia. f_equal. lia. }
  assert (Pxz : 0 < 2 ^ (ex - ez)) by (apply Z.pow_pos_nonneg; lia).
  assert (Pyz : 0 < 2 ^ (ey - ez)) by (apply Z.pow_pos_nonneg; lia).
  set (D := Z.pos mx * 2 ^ (ex - ez) - Z.pos my * 2 ^ (ey - ez)).
  assert (HD : lo * 2 ^ (- ez) ≤ D ≤ hi * 2 ^ (- ez)).
  { subst D.
    assert (E1 : Z.pos mx * 2 ^ (ex - ez) * (2 ^ (- ex) * 2 ^ (- ey))
                 = Z.pos mx * 2 ^ (- ey) * 2 ^ (- ez)) by (rewrite Ex; ring).
    assert (E2 : Z.pos my * 2 ^ (ey - ez) * (2 ^ (- ex) * 2 ^ (- ey))
                 = Z.pos my * 2 ^ (- ex) * 2 ^ (- ez)) by (rewrite Ey; ring).
    split.
    - apply (Z.mul_le_mono_pos_r _ _ (2 ^ (- ex) * 2 ^ (- ey))); [nia|].
      rewrite Z.mul_sub_distr_r, E1, E2. nia.
    - apply (Z.mul_le_mono_pos_r _ _ (2 ^ (- ex) * 2 ^ (- ey))); [nia|].
      rewrite Z.mul_sub_distr_r, E1, E2. nia. }
  unfold binary_normalize. destruct D as [|p|p] eqn:ED.
  - cbn. nia.
  - apply round_between; [lia|done|done|done].
  - nia.
Qed.

Lemma float_trunc_between lo hi f :
  0 ≤ lo → between lo hi f → ∃ t, float_trunc f = Ok t ∧ lo ≤ t ≤ hi.
Proof.
  intros Hlo. destruct f as [s|s| |[] m e]; cbn; try done.
  - intros H. exists 0. split; [done|lia].
  - intros (He & H1 & H2).
    assert (0 < 2 ^ (- e)) by (apply Z.pow_pos_nonneg; lia).
    destruct (Z.leb_spec 0 e).
    + assert (e = 0) as -> by lia. cbn in *. eexists. split; [done|]. lia.
    + eexists. split; [done|]. split.
      * apply Z.div_le_lower_bound; lia.
      * apply Z.div_le_upper_bound; lia.
Qed.

(** *** Floats between 0 and 1 *)

Lemma bounded_digits m e :
  bounded prec emax m e = true → Z.pos m < 2 ^ 53.
Proof.
  unfold bounded, canonical_mantissa. intros H.
  apply andb_true_iff in H as [H _]. apply Z.eqb_eq in H.
  pose proof (digits2_pos_bounds m) as [_ Hd].
  assert (Z.pos (digits2_pos m) ≤ 53).
  { unfold fexp, emin, prec, emax in H. lia. }
  assert (2 ^ Z.pos (digits2_pos m) ≤ 2 ^ 53) by (apply Z.pow_le_mono_r; lia).
  lia.
Qed.

Lemma float_1_eq : float_1 = S754_finite false 4503599627370496 (-52).
Proof. vm_compute. reflexivity. Qed.

Lemma float_0_eq : float_0 = S754_zero false.
Proof. vm_compute. reflexivity. Qed.

Lemma float_below_one f :
  is_float f → SFltb f float_0 = false → SFltb f float_1 = true →
  (∃ s, f = S754_zero s)
  ∨ ∃ m e, f = S754_finite false m e ∧ e ≤ 0 ∧ Z.pos m < 2 ^ (- e).
Proof.
  rewrite float_0_eq, float_1_eq. unfold is_float, SFltb.
  destruct f as [s|[]| |[] m e]; cbn [SFcompare valid_binary]; try done.
  - intros _ _ _. left. by exists s.
  - intros Hv _ H. right. exists m, e. split; [done|].
    apply bounded_digits in Hv.
    destruct (Z.compare_spec e (-52)) as [->|He|He]; [| |done].
    + split; [lia|]. change (2 ^ (- -52)) with 4503599627370496.
      pose proof (Pos.compare_spec m 4503599627370496) as Hc.
      unfold Pos.compare in Hc. destruct Hc as [Hc|Hc|Hc].
      * discriminate H.
      * exact Hc.
      * discriminate H.
    + split; [lia|].
      assert (2 ^ 53 ≤ 2 ^ (- e)) by (apply Z.pow_le_mono_r; lia). lia.
Qed.

Lemma float_in_unit f :
  is_float f → SFleb float_0 f = true → SFleb f float_1 = true →
  (∃ s, f = S754_zero s)
  ∨ ∃ m e, f = S754_finite false m e ∧ e ≤ 0 ∧ Z.pos m ≤ 2 ^ (- e).
Proof.
  rewrite float_0_eq, float_1_eq. unfold is_float, SFleb.
  destruct f as [s|[]| |[] m e]; cbn [SFcompare valid_binary]; try done.
  - intros _ _ _. left. by exists s.
  - intros Hv _ H. right. exists m, e. split; [done|].
    apply bounded_digits in Hv.
    destruct (Z.compare_spec e (-52)) as [->|He|He]; [| |done].
    + split; [lia|]. change (2 ^ (- -52)) with 4503599627370496.
      pose proof (Pos.compare_spec m 4503599627370496) as Hc.
      unfold Pos.compare in Hc. destruct Hc as [Hc|Hc|Hc].
      * rewrite Hc. apply Z.le_refl.
      * apply Z.lt_le_incl. exact Hc.
      * discriminate H.
    + split; [lia|].
      assert (2 ^ 53 ≤ 2 ^ (- e)) by (apply Z.pow_le_mono_r; lia). lia.
Qed.

(** [int(v * f)] for a byte [v] and a float [0 ≤ f < 1]. *)
Lemma float_scale_byte v f :
  0 ≤ v ≤ 255 →
  is_float f → SFltb f float_0 = false → SFltb f float_1 = true →
  ∃ t, float_trunc (fmul (float_of_Z v) f) = Ok t ∧ 0 ≤ t ≤ v.
Proof.
  intros Hv Hf H0 H1.
  pose proof (float_of_Z_between v ltac:(lia)) as Hx.
  apply (float_trunc_between 0 v); [lia|].
  destruct (float_below_one f Hf H0 H1) as [[s ->]|(m & e & -> & He & Hm)].
  - destruct (float_of_Z v) as [?|?| |[] ? ?]; cbn in *; try done; lia.
  - destruct (float_of_Z v) as [sx|?| |[] mx ex]; cbn [between] in Hx; try done.
    + cbn. lia.
    + destruct Hx as (Hex & Hx1 & Hx2).
      apply fmul_between; [done|done|lia|lia|].
      assert (0 < 2 ^ (- ex)) by (apply Z.pow_pos_nonneg; lia).
      assert (0 < 2 ^ (- e)) by (apply Z.pow_pos_nonneg; lia).
      nia.
Qed.

Lemma float_31_eq : float_of_Z 31 = S754_finite false 8725724278030336 (-48).
Proof. vm_compute. reflexivity. Qed.

Lemma float_32_eq : float_of_Z 32 = S754_finite false 4503599627370496 (-47).
Proof. vm_compute. reflexivity. Qed.

(** [int(32 - f * 31)] for a float [0 ≤ f ≤ 1]: the product lies between
    the integers [lo] and [hi] that bracket its exact value. *)
Lemma float_header f lo hi :
  is_float f → SFleb float_0 f = true → SFleb f float_1 = true →
  0 ≤ lo → hi ≤ 31 →
  match f with
  | S754_finite _ m e => lo * 2 ^ (- e) ≤ 31 * Z.pos m ≤ hi * 2 ^ (- e)
  | _ => lo ≤ 0 ≤ hi
  end →
  ∃ t, float_trunc (fsub (float_of_Z 32) (fmul f (float_of_Z 31))) = Ok t
       ∧ 32 - hi ≤ t ≤ 32 - lo.
Proof.
  intros Hf H0 H1 Hlo Hhi Hb.
  rewrite float_31_eq, float_32_eq.
  destruct (float_in_unit f Hf H0 H1) as [[s ->]|(m & e & -> & He & Hm)].
  - cbn. exists 32. split; [done|lia].
  - assert (Hp : between lo hi (fmul (S754_finite false m e)
                                 (S754_finite false 8725724278030336 (-48)))).
    { apply fmul_between; [done|lia|done|lia|].
      change (2 ^ (- -48)) with 281474976710656.
      change (Z.pos 8725724278030336) with (31 * 281474976710656). nia. }
    apply float_trunc_between; [lia|].
    destruct (fmul _ _) as [s|s| |[] mp ep]; cbn [between] in Hp; try done.
    + cbn. lia.
    + destruct Hp as (Hep & Hp1 & Hp2).
      apply fsub_between; [lia|done|lia|lia|].
      change (2 ^ (- -47)) with 140737488355328.
      change (Z.pos 4503599627370496) with (32 * 140737488355328).
      assert (0 < 2 ^ (- ep)) by (apply Z.pow_pos_nonneg; lia).
      nia.
Qed.

(** *** Numbers: comparison, scaling and clamping *)

Lemma py_float_small v : 0 ≤ v < 2 ^ 52 → py_float v = Ok (float_of_Z v).
Proof.
  intros Hv. pose proof (float_of_Z_between v Hv) as H. unfold py_float.
  by destruct (float_of_Z v) as [?|?| |[] ? ?].
Qed.

Lemma SFcompare_antisym x y :
  SFcompare y x = option_map CompOpp (SFcompare x y).
Proof.
  destruct x as [sx|sx| |sx mx ex], y as [sy|sy| |sy my ey]; cbn;
    repeat match goal with s : bool |- _ => destruct s end; try done; f_equal.
  all: rewrite (Z.compare_antisym ey ex).
  all: destruct (ey ?= ex); cbn; try done.
  all: change (PosDef.Pos.compare_cont Eq mx my) with (Pos.compare mx my).
  all: change (PosDef.Pos.compare_cont Eq my mx) with (Pos.compare my mx).
  all: rewrite (Pos.compare_antisym my mx); by destruct (Pos.compare my mx).
Qed.

Lemma num_compare_antisym a b :
  num_compare b a = option_map CompOpp (num_compare a b).
Proof.
  destruct a as [x|x], b as [y|y]; cbn.
  - by rewrite Z.compare_antisym.
  - done.
  - destruct (Z_float_compare y x) as [c|]; [|done]. cbn. by destruct c.
  - apply SFcompare_antisym.
Qed.

Lemma num_ltb_leb a b :
  is_nan a = false → is_nan b = false →
  num_ltb a b = false → num_leb b a = true.
Proof.
  unfold num_ltb, num_leb. rewrite (num_compare_antisym a b).
  intros Ha Hb. destruct (num_compare a b) as [[]|] eqn:E; cbn; try done.
  intros _. destruct a as [x|x], b as [y|y]; cbn in E; try done.
  - by destruct y.
  - destruct x; try done.
  - destruct x, y; try done.
Qed.

Lemma num_leb_ltb a b : num_leb a b = true → num_ltb b a = false.
Proof.
  unfold num_ltb, num_leb. rewrite (num_compare_antisym a b).
  by destruct (num_compare a b) as [[]|].
Qed.

Lemma num_ltb_asym a b : num_ltb a b = true → num_ltb b a = false.
Proof.
  unfold num_ltb. rewrite (num_compare_antisym a b).
  by destruct (num_compare a b) as [[]|].
Qed.

Lemma int_ltb_0 z : num_ltb (NInt z) num_0 = (z <? 0).
Proof.
  unfold num_ltb, num_0. rewrite float_0_eq. cbn. unfold Z.ltb.
  by destruct (z ?= 0).
Qed.

Lemma int_gtb_0 z : num_ltb num_0 (NInt z) = (0 <? z).
Proof.
  unfold num_ltb, num_0. rewrite float_0_eq. cbn. unfold Z.ltb.
  rewrite (Z.compare_antisym z 0). by destruct (z ?= 0).
Qed.

Lemma int_cmp_1 z :
  Z_float_compare z float_1 = Some (z ?= 1).
Proof.
  rewrite float_1_eq. cbn. f_equal.
  change (2 ^ (- (-52))) with (4503599627370496).
  set (c := 4503599627370496).
  assert (Hc : 0 < c) by done.
  rewrite <- (Z.mul_1_l c) at 2.
  symmetry. apply Zmult_compare_compat_r. lia.
Qed.

Lemma int_ltb_1 z : num_ltb (NInt z) num_1 = (z <? 1).
Proof.
  unfold num_ltb, num_1. cbn. rewrite int_cmp_1. unfold Z.ltb.
  by destruct (z ?= 1).
Qed.

Lemma int_gtb_1 z : num_ltb num_1 (NInt z) = (1 <? z).
Proof.
  unfold num_ltb, num_1, num_compare. rewrite int_cmp_1. unfold Z.ltb.
  rewrite (Z.compare_antisym z 1). by destruct (z ?= 1).
Qed.

Lemma num_scale_byte v b :
  0 ≤ v ≤ 255 → num_valid b →
  num_ltb b num_0 = false → num_ltb b num_1 = true →
  ∃ t, scale v b = Ok t ∧ 0 ≤ t ≤ v.
Proof.
  intros Hv Hb H0 H1. destruct b as [z|f].
  - rewrite int_ltb_0 in H0. rewrite int_ltb_1 in H1.
    assert (z = 0) as -> by lia.
    exists 0. unfold scale; cbn. rewrite Z.mul_0_r. split; [done | lia].
  - unfold scale; cbn. rewrite py_float_small by lia. cbn.
    apply float_scale_byte; done.
Qed.

Lemma int_leb_0 z : num_leb num_0 (NInt z) = (0 <=? z).
Proof.
  unfold num_leb, num_0. rewrite float_0_eq. cbn. unfold Z.leb.
  rewrite (Z.compare_antisym z 0). by destruct (z ?= 0).
Qed.

Lemma int_leb_1 z : num_leb (NInt z) num_1 = (z <=? 1).
Proof.
  unfold num_leb, num_1, num_compare. rewrite int_cmp_1. unfold Z.leb.
  by destruct (z ?= 1).
Qed.

Lemma float_val_bounds m e :
  e ≤ 0 → Z.pos m ≤ 2 ^ (- e) →
  let x := (inject_Z 31 * float_val (S754_finite false m e))%Q in
  0 ≤ Qfloor x ∧ Qceiling x ≤ 31
  ∧ Qfloor x * 2 ^ (- e) ≤ 31 * Z.pos m ≤ Qceiling x * 2 ^ (- e).
Proof.
  intros He Hm.
  assert (HD : 0 < 2 ^ (- e)) by (apply Z.pow_pos_nonneg; lia).
  assert (∃ P, (inject_Z 31 * float_val (S754_finite false m e))%Q
               = (31 * Z.pos m) # P ∧ Z.pos P = 2 ^ (- e)) as (P & -> & HP).
  { unfold float_val. destruct (Z.leb_spec 0 e) as [H|H].
    - assert (e = 0) as -> by lia. exists 1%positive. split; [|done].
      change (2 ^ 0) with 1. rewrite Z.mul_1_r. done.
    - exists (Z.to_pos (2 ^ (- e))). split; [|by rewrite Z2Pos.id].
      unfold Qmult, inject_Z. cbn [Qnum Qden]. by rewrite Pos.mul_1_l. }
  cbn zeta. unfold Qceiling, Qopp, Qfloor. cbn [Qnum Qden]. rewrite HP.
  set (D := 2 ^ (- e)) in *. set (a := 31 * Z.pos m).
  assert (Ha : 0 ≤ a ≤ 31 * D) by lia.
  pose proof (Z.mul_div_le a D HD).
  pose proof (Z.mul_div_le (- a) D HD).
  assert (0 ≤ a / D) by (apply Z.div_pos; lia).
  assert (- 31 ≤ - a / D) by (apply Z.div_le_lower_bound; lia).
  lia.
Qed.

Lemma num_header pb :
  num_valid pb → num_leb num_0 pb = true → num_leb pb num_1 = true →
  ∃ k, header_byte pb = Ok (Z.lor k LED_START)
       ∧ 0 ≤ k ≤ 31
       ∧ Qfloor (inject_Z 31 * num_val pb) ≤ k
           ≤ Qceiling (inject_Z 31 * num_val pb).
Proof.
  intros Hv H0 H1. destruct pb as [z|f].
  - rewrite int_leb_0 in H0. rewrite int_leb_1 in H1.
    assert (z = 0 ∨ z = 1) as [-> | ->] by lia.
    + exists 0. vm_compute. repeat split; discriminate.
    + exists 31. vm_compute. repeat split; discriminate.
  - cbn in Hv. unfold num_leb, num_0, num_1 in H0, H1. cbn in H0, H1.
    change (SFleb float_0 f = true) in H0. change (SFleb f float_1 = true) in H1.
    set (x := (inject_Z 31 * num_val (NFloat f))%Q).
    assert (Hb : 0 ≤ Qfloor x ∧ Qceiling x ≤ 31
                 ∧ match f with
                   | S754_finite _ m e =>
                       Qfloor x * 2 ^ (- e) ≤ 31 * Z.pos m ≤ Qceiling x * 2 ^ (- e)
                   | _ => Qfloor x ≤ 0 ≤ Qceiling x
                   end).
    { destruct (float_in_unit f Hv H0 H1) as [[s ->]|(m & e & -> & He & Hm)].
      - subst x. vm_compute. repeat split; discriminate.
      - apply float_val_bounds; done. }
    destruct Hb as (Hlo & Hhi & Hb).
    destruct (float_header f _ _ Hv H0 H1 Hlo Hhi Hb) as (t & Ht & Hr).
    exists (32 - t). unfold header_byte. cbn [num_mul].
    rewrite (py_float_small 31) by done. cbn [res_bind num_sub].
    rewrite (py_float_small 32) by done. cbn [res_bind num_int].
    rewrite Ht. cbn [res_bind].
    assert (Hk : 0 ≤ 32 - t ≤ 31) by lia.
    split; [|split; [done | lia]].
    do 2 f_equal.
    change 31 with (Z.ones 5). rewrite Z.land_ones by done.
    apply Z.mod_small. change (2 ^ 5) with 32. lia.
Qed.

Lemma num_0_lt_1 : num_ltb num_0 num_1 = true.
Proof. vm_compute. reflexivity. Qed.

Lemma gt_1_not_neg b : num_ltb num_1 b = true → num_ltb b num_0 = false.
Proof.
  destruct b as [z|f].
  - rewrite int_gtb_1, int_ltb_0. lia.
  - unfold num_ltb, num_1, num_0, num_compare.
    rewrite float_1_eq, float_0_eq.
    by destruct f as [s|[]| |[] m e].
Qed.

Lemma clamp_nan b :
  is_nan b = true → py_min (py_max b num_0) num_1 = b.
Proof. destruct b as [z|[]]; try done. Qed.

Lemma clamp_low b :
  num_ltb b num_0 = true → py_min (py_max b num_0) num_1 = num_0.
Proof.
  intros H. unfold py_max. rewrite H. unfold py_min.
  by rewrite (num_ltb_asym _ _ num_0_lt_1).
Qed.

Lemma clamp_high b :
  num_ltb num_1 b = true → py_min (py_max b num_0) num_1 = num_1.
Proof.
  intros H. unfold py_max. rewrite (gt_1_not_neg b H). unfold py_min.
  by rewrite H.
Qed.

Lemma clamp_id b :
  num_leb num_0 b = true → num_leb b num_1 = true →
  py_min (py_max b num_0) num_1 = b.
Proof.
  intros H0 H1. unfold py_max. rewrite (num_leb_ltb _ _ H0). unfold py_min.
  by rewrite (num_leb_ltb _ _ H1).
Qed.

Lemma clamp_unit b :
  is_nan b = false →
  num_leb num_0 (py_min (py_max b num_0) num_1) = true
  ∧ num_leb (py_min (py_max b num_0) num_1) num_1 = true.
Proof.
  intros Hn.
  assert (Hm : is_nan (py_max b num_0) = false
               ∧ num_leb num_0 (py_max b num_0) = true).
  { unfold py_max. destruct (num_ltb b num_0) eqn:E; [done|].
    split; [done|]. by apply num_ltb_leb. }
  destruct Hm as [Hm1 Hm2]. unfold py_min.
  destruct (num_ltb num_1 (py_max b num_0)) eqn:E; [done|].
  split; [done|]. by apply num_ltb_leb.
Qed.

Lemma clamp_not_neg b :
  num_ltb (py_min (py_max b num_0) num_1) num_0 = false.
Proof.
  unfold py_min.
  destruct (num_ltb num_1 (py_max b num_0)); [done|].
  unfold py_max. by destruct (num_ltb b num_0) eqn:E.
Qed.

Lemma clamp_valid b :
  num_valid b → num_valid (py_min (py_max b num_0) num_1).
Proof.
  intros H. unfold py_min, py_max.
  destruct (num_ltb b num_0); by destruct (num_ltb num_1 _).
Qed.

(** ** Reasoning about the monad *)

Tactic Notation "msimpl" :=
  cbn [bind gets ret raise lift modify emit with_heap fst snd
       set_spi set_line set_n set_end_header_size set_end_header_index
       set_buf set_pixel_order set__brightness set_auto_write
       _spi _line _n end_header_size end_header_index _buf pixel_order
       _brightness auto_write heap trace].
Tactic Notation "msimpl" "in" hyp(H) :=
  cbn [bind gets ret raise lift modify emit with_heap fst snd
       set_spi set_line set_n set_end_header_size set_end_header_index
       set_buf set_pixel_order set__brightness set_auto_write
       _spi _line _n end_header_size end_header_index _buf pixel_order
       _brightness auto_write heap trace] in H.

Lemma bind_ok {A B} (m : M A) (k : A → M B) s a s' :
  m s = (Ok a, s') → bind m k s = k a s'.
Proof. intros H. unfold bind. by rewrite H. Qed.

Lemma bind_raise {A B} (m : M A) (k : A → M B) s e s' :
  m s = (Raise e, s') → bind m k s = (Raise e, s').
Proof. intros H. unfold bind. by rewrite H. Qed.

Lemma bind_ok_inv {A B} (m : M A) (k : A → M B) s b s' :
  bind m k s = (Ok b, s') →
  ∃ a s1, m s = (Ok a, s1) ∧ k a s1 = (Ok b, s').
Proof.
  unfold bind. destruct (m s) as [[a|e] s1]; [eauto | discriminate].
Qed.

Lemma for_app {A} (xs ys : list A) body s :
  for_ (xs ++ ys) body s = bind (for_ xs body) (λ _, for_ ys body) s.
Proof.
  revert s. induction xs as [|x xs IH]; intros s; [done|].
  cbn [app for_]. unfold bind. destruct (body x s) as [[[]|e] s1]; [|done].
  by rewrite IH.
Qed.

(** A loop whose body succeeds and keeps an invariant succeeds and keeps
    it. *)
Lemma for_ok {A} (I : state → Prop) (xs : list A) body :
  (∀ x s, x ∈ xs → I s → ∃ s', body x s = (Ok tt, s') ∧ I s') →
  ∀ s, I s → ∃ s', for_ xs body s = (Ok tt, s') ∧ I s'.
Proof.
  induction xs as [|x xs IH]; intros Hbody s Hs.
  - exists s. done.
  - destruct (Hbody x s) as (s1 & E1 & H1); [apply list_elem_of_here | done |].
    destruct (IH (λ y t Hy, Hbody y t (list_elem_of_further _ _ _ Hy)) s1 H1)
      as (s2 & E2 & H2).
    exists s2. split; [|done]. cbn [for_]. by rewrite (bind_ok _ _ _ _ _ E1).
Qed.

(** What a successful loop preserves, read off its outcome. *)
Lemma for_ok_inv {A} (I : state → Prop) (xs : list A) body :
  (∀ x s s', x ∈ xs → body x s = (Ok tt, s') → I s → I s') →
  ∀ s s', for_ xs body s = (Ok tt, s') → I s → I s'.
Proof.
  induction xs as [|x xs IH]; intros Hbody s s' E Hs.
  - cbn in E. by injection E as <-.
  - cbn [for_] in E. apply bind_ok_inv in E as ([] & s1 & E1 & E2).
    eapply IH; [|exact E2|].
    + intros y t t' Hy. apply Hbody. by apply list_elem_of_further.
    + eapply Hbody; [apply list_elem_of_here | exact E1 | exact Hs].
Qed.

(** *** Reading and writing the live frame buffer *)

Lemma norm_index_nonneg len i :
  0 ≤ i < len → norm_index len i = Some (Z.to_nat i).
Proof.
  intros H. unfold norm_index.
  destruct (Z.ltb_spec i 0); [lia|].
  destruct (Z.leb_spec 0 i); [|lia].
  destruct (Z.ltb_spec i len); [done | lia].
Qed.

Lemma norm_index_lt len i k :
  norm_index len i = Some k → (Z.of_nat k < len).
Proof.
  unfold norm_index.
  destruct (Z.ltb_spec i 0);
    (match goal with |- context [(?a <=? ?b) && (?c <? ?d)] =>
       destruct (Z.leb_spec a b); destruct (Z.ltb_spec c d) end);
    cbn; intros [= <-]; lia.
Qed.

Lemma frame_upd s l l' : frame s = Some l → frame (upd s l') = Some l'.
Proof.
  unfold frame, upd. msimpl. intros H.
  apply list_lookup_insert_eq. by eapply lookup_lt_Some.
Qed.

Lemma upd_upd s l1 l2 : upd (upd s l1) l2 = upd s l2.
Proof. unfold upd. msimpl. by rewrite list_insert_insert_eq. Qed.

Lemma attrs_upd s l : attrs (upd s l) = attrs s.
Proof. done. Qed.

Lemma upd_id s l : frame s = Some l → upd s l = s.
Proof.
  unfold frame, upd. intros H. rewrite list_insert_id by done. by destruct s.
Qed.

(** A store into the live frame buffer. *)
Lemma ba_setitem_frame s l i z :
  frame s = Some l →
  ba_setitem (_buf s) i (PInt z) s =
    if is_byte z then
      match norm_index (Z.of_nat (length l)) i with
      | Some k => (Ok tt, upd s (<[k := z]> l))
      | None => (Raise IndexError, s)
      end
    else (Raise ValueError, s).
Proof. unfold frame, ba_setitem, is_byte. by intros ->. Qed.

Lemma ba_getitem_frame s l i :
  frame s = Some l →
  ba_getitem (_buf s) i s =
    match norm_index (Z.of_nat (length l)) i with
    | Some k => match l !! k with
                | Some v => (Ok v, s)
                | None => (Raise IndexError, s)
                end
    | None => (Raise IndexError, s)
    end.
Proof. unfold frame, ba_getitem. by intros ->. Qed.

(** *** Construction *)

Lemma elem_of_range3_pos a b c x : 0 < c → x ∈ range3 a b c → a ≤ x < b.
Proof.
  intros Hc. unfold range3, range_len.
  rewrite list_elem_of_fmap. intros (k & -> & Hk).
  apply elem_of_seqZ in Hk.
  destruct (Z.ltb_spec 0 c); [|lia].
  destruct (Z.ltb_spec a b); [|lia].
  assert (c * ((b - a - 1) / c) ≤ b - a - 1) by (apply Z.mul_div_le; lia).
  nia.
Qed.

Section init.
Variables (n L ehs : Z) (s0 : state).
Hypothesis Hn : 0 ≤ n.
Hypothesis Hehs : 0 ≤ ehs ≤ n.
Hypothesis Hehi : end_header_index s0 = START_HEADER_SIZE + n * 4 - ehs.
Hypothesis Hsz : end_header_size s0 = ehs.

Lemma store_sized s i z :
  sized n L ehs s0 s → 0 ≤ i < L * (n * 4 + 4 + ehs) → is_byte z = true →
  ∃ s', (buf <- gets _buf ;; ba_setitem buf i (PInt z)) s = (Ok tt, s') ∧ sized n L ehs s0 s'.
Proof.
  intros (Ha & Hh & l & Hl & Hlen) Hi Hz. msimpl.
  rewrite (ba_setitem_frame _ _ _ _ Hl), Hz, norm_index_nonneg by lia.
  eexists. split; [done|]. split; [done|].
  split; [by unfold upd; msimpl; rewrite length_insert|].
  eexists. split; [by eapply frame_upd|]. by rewrite length_insert.
Qed.

Lemma init_lines_ok s :
  0 ≤ L → sized n L ehs s0 s →
  ∃ s',
    for_ (range1 L) (λ j,
      for_ (range1 START_HEADER_SIZE) (λ i,
        buf <- gets _buf ;; ba_setitem buf (j * n + i) (PInt 0)) ;;
      ehi <- gets end_header_index ;;
      for_ (range3 START_HEADER_SIZE ehi 4) (λ i,
        buf <- gets _buf ;; ba_setitem buf (j * n + i) (PInt 255)) ;;
      ehi <- gets end_header_index ;;
      ehs <- gets end_header_size ;;
      for_ (range2 ehi (ehi + ehs)) (λ i,
        buf <- gets _buf ;; ba_setitem buf (j * n + i) (PInt 255))) s
    = (Ok tt, s') ∧ sized n L ehs s0 s'.
Proof.
  intros HL. apply for_ok. clear s. intros j s Hj Hs.
  apply elem_of_seqZ in Hj.
  assert (Hin : ∀ i, 0 ≤ i < n * 4 + 4 → 0 ≤ j * n + i < L * (n * 4 + 4 + ehs)) by nia.
  destruct (for_ok (sized n L ehs s0) (range1 START_HEADER_SIZE)
    (λ i, buf <- gets _buf ;; ba_setitem buf (j * n + i) (PInt 0))) with (s := s)
    as (s1 & E1 & H1); [|done|].
  { intros i t Hi Ht. apply elem_of_seqZ in Hi. unfold START_HEADER_SIZE in Hi.
    apply store_sized; [done | apply Hin; lia | done]. }
  rewrite (bind_ok _ _ _ _ _ E1). msimpl.
  assert (A1 : end_header_index s1 = START_HEADER_SIZE + n * 4 - ehs).
  { destruct H1 as [Ha _]. unfold attrs in Ha. rewrite <- Hehi. congruence. }
  destruct (for_ok (sized n L ehs s0) (range3 START_HEADER_SIZE (end_header_index s1) 4)
    (λ i, buf <- gets _buf ;; ba_setitem buf (j * n + i) (PInt 255))) with (s := s1)
    as (s2 & E2 & H2); [|done|].
  { intros i t Hi Ht. apply elem_of_range3_pos in Hi; [|lia].
    rewrite A1 in Hi. unfold START_HEADER_SIZE in Hi.
    apply store_sized; [done | apply Hin; lia | done]. }
  rewrite (bind_ok _ _ _ _ _ E2). msimpl.
  assert (A2 : end_header_index s2 = START_HEADER_SIZE + n * 4 - ehs
               ∧ end_header_size s2 = ehs).
  { destruct H2 as [Ha _]. unfold attrs in Ha. rewrite <- Hehi, <- Hsz.
    split; congruence. }
  destruct A2 as [A2 A3]. rewrite A2, A3.
  apply for_ok; [|done].
  intros i t Hi Ht. apply elem_of_seqZ in Hi. unfold START_HEADER_SIZE in Hi.
  apply store_sized; [done | apply Hin; lia | done].
Qed.
End init.

Lemma ceil16_bounds n : 0 ≤ n → 0 ≤ ceil16 n ≤ n.
Proof.
  intros Hn. unfold ceil16.
  pose proof (Z.div_mod n 16 ltac:(lia)).
  pose proof (Z.mod_pos_bound n 16 ltac:(lia)).
  destruct (Z.eqb_spec (n mod 16) 0); lia.
Qed.

Lemma init_ok spi n L b aw po :
  0 ≤ n → 0 ≤ L →
  ∃ s l, __init__ spi n L b aw po blank = (Ok tt, s)
         ∧ heap s = [l] ∧ _buf s = 0%nat
         ∧ Z.of_nat (length l) = L * per_line n
         ∧ _spi s = spi ∧ _line s = L ∧ _n s = n
         ∧ end_header_size s = ceil16 n
         ∧ end_header_index s = START_HEADER_SIZE + n * 4 - ceil16 n
         ∧ pixel_order s = po ∧ auto_write s = aw.
Proof.
  intros Hn HL. pose proof (ceil16_bounds n Hn) as Hc.
  assert (Hsize : (L * n * 4 + L * START_HEADER_SIZE + L * ceil16 n <? 0) = false).
  { apply Z.ltb_ge. unfold START_HEADER_SIZE. nia. }
  unfold __init__, blank. msimpl.
  destruct spi; msimpl.
  all: unfold per_line, ceil16 in *; destruct (n mod 16 =? 0); cbn [negb]; msimpl.
  all: unfold bytearray; rewrite Hsize; msimpl.
  all: match goal with
       | |- ∃ s l, bind (for_ _ _) _ ?s0 = _ ∧ _ =>
           destruct (init_lines_ok n L (end_header_size s0) s0)
             with (s := s0) as (s1 & E1 & Ha & Hh & l & Hl & Hlen);
           [done | done | done | done | done | |]
       end.
  all: try (split; [done|]; split; [done|]; eexists; split; [done|];
            msimpl; rewrite length_replicate, Z2Nat.id; unfold START_HEADER_SIZE in *; lia).
  all: rewrite (bind_ok _ _ _ _ _ E1); unfold set_brightness; msimpl.
  all: unfold attrs in Ha; msimpl in Ha; clear E1.
  all: destruct s1 as [a1 a2 a3 a4 a5 a6 a7 a8 a9 h t]; unfold frame in Hl;
       msimpl in Ha; msimpl in Hh; msimpl in Hl; cbn in Hh;
       injection Ha as -> -> -> -> -> -> -> -> ->.
  all: destruct h as [|l0 [|??]]; try discriminate; cbn in Hl;
       injection Hl as ->.
  all: eexists; exists l; split; [reflexivity|]; msimpl.
  all: repeat split; try done; unfold START_HEADER_SIZE in *; lia.
Qed.

Lemma ceil16_Qceiling n : ceil16 n = Qceiling (n # 16).
Proof.
  unfold ceil16, Qceiling, Qfloor. cbn [Qopp Qnum Qden].
  pose proof (Z.div_mod n 16 ltac:(lia)).
  pose proof (Z.mod_pos_bound n 16 ltac:(lia)).
  pose proof (Z.div_mod (- n) 16 ltac:(lia)).
  pose proof (Z.mod_pos_bound (- n) 16 ltac:(lia)).
  destruct (Z.eqb_spec (n mod 16) 0); lia.
Qed.

(** C2: for every pixel count [n > 0] and line count [L >= 1], construction
    succeeds and the frame buffer it allocates has [L * (n * 4 + 4 + ceil16 n)]
    bytes, where [ceil16 n] ([n / 16] when 16 divides [n], [n / 16 + 1]
    otherwise) is the ceiling of [n / 16]. *)
Theorem init_buffer_length spi n L b aw po :
  0 < n → 1 ≤ L →
  ∃ s l, __init__ spi n L b aw po blank = (Ok tt, s)
         ∧ frame s = Some l
         ∧ Z.of_nat (length l) = L * (n * 4 + 4 + ceil16 n)
         ∧ ceil16 n = Qceiling (n # 16).
Proof.
  intros Hn HL.
  destruct (init_ok spi n L b aw po) as (s & l & E & Hh & Hb & Hlen & _); [lia..|].
  exists s, l. repeat split; [done | | done | apply ceil16_Qceiling].
  unfold frame. by rewrite Hh, Hb.
Qed.

Lemma init_buffer_length_witness :
  ∃ s l, __init__ true 17 1 num_1 false BGR blank = (Ok tt, s)
         ∧ frame s = Some l
         ∧ Z.of_nat (length l) = 1 * (17 * 4 + 4 + ceil16 17)
         ∧ ceil16 17 = Qceiling (17 # 16).
Proof. apply (init_buffer_length true 17 1 num_1 false BGR); lia. Defined.

(** The per-line lengths for 1, 15, 16, 17 and 100 pixels. *)
Example init_lengths :
  (λ n, option_map length (frame (__init__ true n 1 num_1 true BGR blank).2))
    <$> [1; 15; 16; 17; 100]
  = [Some 9; Some 65; Some 69; Some 74; Some 411]%nat.
Proof. vm_compute. reflexivity. Qed.

(** C8, as stated, fails: a strip of 0 pixels is constructed without error
    and gets a frame buffer of four bytes. *)
Lemma init_zero_pixels_accepted :
  (__init__ true 0 1 num_1 true BGR blank).1 = Ok tt
  ∧ heap (__init__ true 0 1 num_1 true BGR blank).2 = [[0; 0; 0; 0]].
Proof. vm_compute. done. Qed.

(** C8, amended: construction does not check the pixel count.  With at
    least one line, [n <= -2] fails with the [ValueError] of a negative
    allocation size, no array being allocated; [n = -1] allocates an empty
    frame buffer and fails with [IndexError] at the first initialising
    store; [n = 0] succeeds with a frame buffer of [4 * L] bytes. *)
Theorem init_nonpositive spi L b aw po :
  1 ≤ L →
  (∀ n, n ≤ -2 →
     ∃ s, __init__ spi n L b aw po blank = (Raise ValueError, s) ∧ heap s = [])
  ∧ (∃ s, __init__ spi (-1) L b aw po blank = (Raise IndexError, s)
          ∧ heap s = [[]])
  ∧ (∃ s l, __init__ spi 0 L b aw po blank = (Ok tt, s)
            ∧ frame s = Some l ∧ Z.of_nat (length l) = 4 * L).
Proof.
  intros HL. split; [|split].
  - intros n Hn.
    assert (Hc : ceil16 n ≤ 0).
    { unfold ceil16. pose proof (Z.div_mod n 16 ltac:(lia)).
      pose proof (Z.mod_pos_bound n 16 ltac:(lia)).
      destruct (Z.eqb_spec (n mod 16) 0); lia. }
    assert (Hsize : (L * n * 4 + L * START_HEADER_SIZE + L * ceil16 n <? 0) = true).
    { apply Z.ltb_lt. unfold START_HEADER_SIZE. nia. }
    unfold __init__, blank. msimpl.
    destruct spi; msimpl.
    all: unfold ceil16 in *; destruct (n mod 16 =? 0); cbn [negb]; msimpl.
    all: unfold bytearray; rewrite Hsize; msimpl.
    all: eexists; split; reflexivity.
  - unfold __init__, blank. msimpl.
    destruct spi; msimpl.
    all: change ((-1) / 16) with (-1); change (negb ((-1) mod 16 =? 0)) with true;
         msimpl.
    all: replace (L * -1 * 4 + L * START_HEADER_SIZE + L * (-1 + 1)) with 0
           by (unfold START_HEADER_SIZE; lia).
    all: unfold bytearray; change (0 <? 0) with false; msimpl.
    all: unfold range1 at 1; rewrite (seqZ_cons 0 L) by lia; cbn [for_].
    all: eexists; split; [vm_compute; reflexivity|]; reflexivity.
  - destruct (init_ok spi 0 L b aw po) as (s & l & E & Hh & Hb & Hlen & _); [lia..|].
    exists s, l. split; [done|]. split; [unfold frame; by rewrite Hh, Hb|].
    change (per_line 0) with 4 in Hlen. lia.
Qed.

Lemma init_nonpositive_witness :
  (∀ n, n ≤ -2 →
     ∃ s, __init__ true n 1 num_1 true BGR blank = (Raise ValueError, s) ∧ heap s = [])
  ∧ (∃ s, __init__ true (-1) 1 num_1 true BGR blank = (Raise IndexError, s)
          ∧ heap s = [[]])
  ∧ (∃ s l, __init__ true 0 1 num_1 true BGR blank = (Ok tt, s)
            ∧ frame s = Some l ∧ Z.of_nat (length l) = 4 * 1).
Proof. apply (init_nonpositive true 1 num_1 true BGR). lia. Defined.

(** *** Pixel writes *)

Lemma ba_setitem_frame_inv s l i v s' :
  frame s = Some l → ba_setitem (_buf s) i v s = (Ok tt, s') →
  ∃ z k, v = PInt z ∧ is_byte z = true
         ∧ norm_index (Z.of_nat (length l)) i = Some k
         ∧ s' = upd s (<[k := z]> l).
Proof.
  intros Hl. destruct v as [z| |];
    [|unfold frame in Hl; unfold ba_setitem; rewrite Hl; discriminate..].
  rewrite (ba_setitem_frame _ _ _ _ Hl).
  destruct (is_byte z) eqn:Hz; [|discriminate].
  destruct (norm_index _ i) as [k|] eqn:Hk; [|discriminate].
  intros [= <-]. eauto 10.
Qed.

Lemma norm_index_shift len i j k k' :
  0 < j < len →
  norm_index len i = Some k → norm_index len (i + j) = Some k' → k ≠ k'.
Proof.
  unfold norm_index. intros Hj.
  destruct (Z.ltb_spec i 0), (Z.ltb_spec (i + j) 0);
    repeat (match goal with
            | |- context [(?a <=? ?b)] => destruct (Z.leb_spec a b)
            | |- context [(?a <? ?b)] => destruct (Z.ltb_spec a b)
            end; cbn [andb]);
    intros; simplify_eq; lia.
Qed.

Lemma lor_led_start x : 0 ≤ x < 32 → Z.lor x LED_START = x + 224.
Proof.
  intros Hx. destruct x as [|p|p]; [done| |lia].
  do 5 (destruct p as [p|p|]; try lia; try reflexivity).
Qed.

Lemma land_31 y : 0 ≤ Z.land y 31 < 32.
Proof.
  change 31 with (Z.ones 5). rewrite Z.land_ones by lia.
  apply Z.mod_pos_bound. lia.
Qed.

Lemma header_byte_bits b h :
  header_byte b = Ok h →
  Z.testbit h 7 = true
  ∧ Z.testbit h 6 = true
  ∧ Z.testbit h 5 = true
  ∧ 224 ≤ h < 256.
Proof.
  unfold header_byte, res_bind.
  destruct (num_mul b (NInt 31)) as [p|]; [|discriminate].
  destruct (num_sub (NInt 32) p) as [d|]; [|discriminate].
  destruct (num_int d) as [t|]; [|discriminate].
  intros [= <-].
  pose proof (land_31 (32 - t)) as H.
  split; [|split; [|split]].
  4: { rewrite lor_led_start by done. lia. }
  all: unfold LED_START; rewrite Z.lor_spec; apply orb_true_r.
Qed.

Lemma is_byte_header b h : header_byte b = Ok h → is_byte h = true.
Proof.
  intros Hh. destruct (header_byte_bits b h Hh) as (_ & _ & _ & H).
  unfold is_byte.
  apply andb_true_intro. split; [apply Z.leb_le | apply Z.ltb_lt]; lia.
Qed.

Lemma bind_ext {A B} (m : M A) (f g : A → M B) s :
  (∀ a s', f a s' = g a s') → bind m f s = bind m g s.
Proof.
  intros H. unfold bind. destruct (m s) as [[a|e] s']; [apply H | done].
Qed.

Lemma lift_ok_inv {A} (r : res A) a s s' :
  lift r s = (Ok a, s') → r = Ok a ∧ s' = s.
Proof. unfold lift. by intros [= -> ->]. Qed.

Lemma set_item_unfold index value s :
  _set_item index value s =
  (n <- gets _n ;;
   num <- (if n <? index then ceil_div n index else ret 0) ;;
   len <- py_len (rgb_of value) ;;
   brightness <- (if len =? 4 then py_getitem value 3 else ret (PInt 1)) ;;
   b <- py_num brightness ;;
   h <- lift (header_byte b) ;;
   store_pixel (index * 4 + START_HEADER_SIZE * (num + 1)) h
     (rgb_of value)) s.
Proof.
  unfold _set_item.
  apply bind_ext; intros n s1. apply bind_ext; intros num s2.
  apply bind_ext; intros len s3. apply bind_ext; intros br s4.
  apply bind_ext; intros b s5.
  unfold header_byte, lift, bind, res_bind.
  destruct (num_mul b (NInt 31)) as [p|]; [|done].
  destruct (num_sub (NInt 32) p) as [d|]; [|done].
  by destruct (num_int d) as [t|].
Qed.

Lemma py_getitem_ok_inv x i c s s1 :
  py_getitem x i s = (Ok c, s1) →
  ∃ t k, x = PSeq t ∧ norm_index (Z.of_nat (length t)) i = Some k
         ∧ t !! k = Some c ∧ s1 = s.
Proof.
  destruct x as [| |t]; [discriminate..|]. cbn [py_getitem]. unfold tuple_getitem.
  destruct (norm_index _ i) as [k|] eqn:Hk; [|discriminate].
  destruct (t !! k) as [y|] eqn:Hy; [|discriminate].
  intros [= <- <-]. eauto 10.
Qed.

(** What four completed stores have done. *)
Lemma store_pixel_inv s l off h rgb s' :
  frame s = Some l → 4 ≤ Z.of_nat (length l) →
  store_pixel off h rgb s = (Ok tt, s') →
  ∃ k l',
    norm_index (Z.of_nat (length l)) off = Some k
    ∧ frame s' = Some l' ∧ length l' = length l
    ∧ l' !! k = Some h
    ∧ s' = upd s l'.
Proof.
  intros Hl Hlen H. unfold store_pixel in H.
  apply bind_ok_inv in H as (? & ? & [= <- <-] & H).
  apply bind_ok_inv in H as ([] & s1 & E & H).
  apply (ba_setitem_frame_inv _ _ _ _ _ Hl) in E as (z0 & k0 & [= <-] & Hz0 & Hk0 & ->).
  pose proof (frame_upd s l (<[k0:=h]> l) Hl) as Hl0.
  apply bind_ok_inv in H as (? & ? & [= <- <-] & H).
  apply bind_ok_inv in H as (c1 & ? & E & H).
  apply py_getitem_ok_inv in E as (_ & _ & _ & _ & _ & ->).
  apply bind_ok_inv in H as (? & ? & [= <- <-] & H).
  apply bind_ok_inv in H as ([] & s1 & E & H).
  apply (ba_setitem_frame_inv _ _ _ _ _ Hl0) in E as (z1 & k1 & -> & Hz1 & Hk1 & ->).
  rewrite upd_upd in H.
  pose proof (frame_upd s l (<[k1:=z1]> (<[k0:=h]> l)) Hl) as Hl1.
  apply bind_ok_inv in H as (? & ? & [= <- <-] & H).
  apply bind_ok_inv in H as (c2 & ? & E & H).
  apply py_getitem_ok_inv in E as (_ & _ & _ & _ & _ & ->).
  apply bind_ok_inv in H as (? & ? & [= <- <-] & H).
  apply bind_ok_inv in H as ([] & s1 & E & H).
  apply (ba_setitem_frame_inv _ _ _ _ _ Hl1) in E as (z2 & k2 & -> & Hz2 & Hk2 & ->).
  rewrite upd_upd in H.
  pose proof (frame_upd s l (<[k2:=z2]> (<[k1:=z1]> (<[k0:=h]> l))) Hl) as Hl2.
  apply bind_ok_inv in H as (? & ? & [= <- <-] & H).
  apply bind_ok_inv in H as (c3 & ? & E & H).
  apply py_getitem_ok_inv in E as (_ & _ & _ & _ & _ & ->).
  apply bind_ok_inv in H as (? & ? & [= <- <-] & H).
  apply (ba_setitem_frame_inv _ _ _ _ _ Hl2) in H as (z3 & k3 & -> & Hz3 & Hk3 & ->).
  rewrite upd_upd.
  rewrite !length_insert in *.
  exists k0, (<[k3:=z3]> (<[k2:=z2]> (<[k1:=z1]> (<[k0:=h]> l)))).
  split; [done|]. split; [by eapply frame_upd|].
  split; [by rewrite !length_insert|]. split; [|done].
  pose proof (norm_index_shift (Z.of_nat (length l)) off 1 k0 k1 ltac:(lia) Hk0 Hk1).
  pose proof (norm_index_shift (Z.of_nat (length l)) off 2 k0 k2 ltac:(lia) Hk0 Hk2).
  pose proof (norm_index_shift (Z.of_nat (length l)) off 3 k0 k3 ltac:(lia) Hk0 Hk3).
  rewrite !list_lookup_insert_ne by done.
  apply list_lookup_insert_eq. apply norm_index_lt in Hk0. lia.
Qed.

(** What a completed [_set_item] has done. *)
Lemma set_item_inv s l index value s' :
  frame s = Some l → 4 ≤ Z.of_nat (length l) →
  _set_item index value s = (Ok tt, s') →
  ∃ b h k l',
    pixel_brightness value = Some b
    ∧ header_byte b = Ok h
    ∧ norm_index (Z.of_nat (length l)) (set_offset (_n s) index) = Some k
    ∧ frame s' = Some l' ∧ length l' = length l
    ∧ l' !! k = Some h
    ∧ s' = upd s l'.
Proof.
  intros Hl Hlen H. rewrite set_item_unfold in H.
  apply bind_ok_inv in H as (n & s1 & [= <- <-] & H).
  apply bind_ok_inv in H as (num & s1 & E & H).
  assert (num = (if _n s <? index then - ((- _n s) / index) else 0) ∧ s1 = s) as [-> ->].
  { destruct (_n s <? index); [|by injection E].
    unfold ceil_div in E. destruct (index =? 0); [discriminate | by injection E]. }
  clear E. fold (set_offset (_n s) index) in H.
  apply bind_ok_inv in H as (len & s1 & E & H).
  apply bind_ok_inv in H as (br & s2 & Ebr & H).
  apply bind_ok_inv in H as (b & s3 & Eb & H).
  assert (pixel_brightness value = Some b ∧ s3 = s) as [Hb ->].
  { destruct value as [v|q|t]; [| discriminate |].
    - cbn in E. injection E as <- <-. cbn in Ebr. injection Ebr as <- <-.
      cbn in Eb. by injection Eb as <- <-.
    - cbn in E. injection E as <- <-. cbn [pixel_brightness].
      destruct (Z.of_nat (length t) =? 4) eqn:H4.
      + apply Z.eqb_eq in H4.
        apply py_getitem_ok_inv in Ebr as (t' & k & [= <-] & Hk & Hbr & ->).
        rewrite H4 in Hk. cbn in Hk. injection Hk as <-.
        change (Z.to_nat 3) with 3%nat in Hbr. rewrite Hbr.
        destruct br; [by injection Eb as <- <- ..|discriminate].
      + injection Ebr as <- <-. by injection Eb as <- <-. }
  apply bind_ok_inv in H as (h & s4 & Eh & H).
  apply lift_ok_inv in Eh as [Eh ->].
  destruct (store_pixel_inv _ _ _ _ _ _ Hl Hlen H) as (k & l' & ? & ? & ? & ? & ?).
  by exists b, h, k, l'.
Qed.

Lemma bind_eq {A B} (m : M A) (k : A → M B) s :
  bind m k s = match m s with
               | (Ok a, s') => k a s'
               | (Raise e, s') => (Raise e, s')
               end.
Proof. reflexivity. Qed.

Lemma py_getitem_seq3 (a b c : pyobj) k s :
  0 ≤ k < 3 →
  py_getitem (PSeq [a; b; c]) k s =
    (Ok (if k =? 0 then a else if k =? 1 then b else c), s).
Proof.
  intros Hk. assert (k = 0 ∨ k = 1 ∨ k = 2) as [->|[->| ->]] by lia; reflexivity.
Qed.

Lemma elem_of_pixel_orders po :
  po ∈ pixel_orders → 0 ≤ po.1.1 < 3 ∧ 0 ≤ po.1.2 < 3 ∧ 0 ≤ po.2 < 3.
Proof.
  unfold pixel_orders. rewrite !elem_of_cons, elem_of_nil.
  intros [->|[->|[->|[->|[->|[->|[]]]]]]]; cbn; lia.
Qed.

Lemma py_getitem_head3 (a b c : pyobj) rest k s :
  0 ≤ k < 3 →
  py_getitem (PSeq (a :: b :: c :: rest)) k s =
    (Ok (if k =? 0 then a else if k =? 1 then b else c), s).
Proof.
  intros Hk. cbn [py_getitem]. unfold tuple_getitem.
  rewrite norm_index_nonneg by (cbn [length]; lia).
  assert (k = 0 ∨ k = 1 ∨ k = 2) as [->|[->| ->]] by lia; reflexivity.
Qed.

(** The four stores of a sequence that starts with three bytes, as a run
    of [store_bytes]. *)
Lemma store_pixel_seq_run s l off h r g b rest :
  frame s = Some l → pixel_order s ∈ pixel_orders →
  is_byte h = true → is_byte r = true → is_byte g = true → is_byte b = true →
  store_pixel off h (PSeq (PInt r :: PInt g :: PInt b :: rest)) s =
    let out := store_bytes l off
                 [h; channel r g b (pixel_order s).1.1;
                     channel r g b (pixel_order s).1.2;
                     channel r g b (pixel_order s).2] in
    (out.1, upd s out.2).
Proof.
  intros Hl Hpo Hh Hr Hg Hb.
  apply elem_of_pixel_orders in Hpo as (H1 & H2 & H3).
  assert (Hc : ∀ k, is_byte (channel r g b k) = true).
  { intros k. unfold channel. by repeat case_match. }
  assert (Hg3 : ∀ k t, 0 ≤ k < 3 →
            py_getitem (PSeq (PInt r :: PInt g :: PInt b :: rest)) k t
            = (Ok (PInt (channel r g b k)), t)).
  { intros k t Hk. rewrite py_getitem_head3 by done. unfold channel. by repeat case_match. }
  unfold store_pixel. cbn [store_bytes]. msimpl.
  replace (off + 1 + 1) with (off + 2) by lia.
  replace (off + 2 + 1) with (off + 3) by lia.
  rewrite bind_eq, (ba_setitem_frame _ _ _ _ Hl), Hh.
  destruct (norm_index _ off) as [k0|]; [|cbn [fst snd]; by rewrite (upd_id _ _ Hl)].
  pose proof (frame_upd s l (<[k0:=h]> l) Hl) as Hl0.
  msimpl. rewrite bind_eq, Hg3 by done.
  msimpl. rewrite bind_eq.
  rewrite (ba_setitem_frame _ _ _ _ Hl0), Hc.
  destruct (norm_index _ (off + 1)) as [k1|]; [|done].
  rewrite upd_upd.
  set (l1 := <[k1:=_]> _).
  pose proof (frame_upd s l l1 Hl) as Hl1.
  msimpl. rewrite bind_eq, Hg3 by done.
  msimpl. rewrite bind_eq.
  rewrite (ba_setitem_frame _ _ _ _ Hl1), Hc.
  destruct (norm_index _ (off + 2)) as [k2|]; [|done].
  rewrite upd_upd.
  set (l2 := <[k2:=_]> _).
  pose proof (frame_upd s l l2 Hl) as Hl2.
  msimpl. rewrite bind_eq, Hg3 by done.
  msimpl.
  rewrite (ba_setitem_frame _ _ _ _ Hl2), Hc.
  destruct (norm_index _ (off + 3)) as [k3|]; [|done].
  by rewrite upd_upd.
Qed.

(** The four stores of a byte triple, as a run of [store_bytes]. *)
Lemma store_pixel_run s l off h r g b :
  frame s = Some l → pixel_order s ∈ pixel_orders →
  is_byte h = true → is_byte r = true → is_byte g = true → is_byte b = true →
  store_pixel off h (PSeq [PInt r; PInt g; PInt b]) s =
    let out := store_bytes l off
                 [h; channel r g b (pixel_order s).1.1;
                     channel r g b (pixel_order s).1.2;
                     channel r g b (pixel_order s).2] in
    (out.1, upd s out.2).
Proof. apply store_pixel_seq_run. Qed.

Lemma ceil_div_run s index :
  0 ≤ _n s →
  (if _n s <? index then ceil_div (_n s) index else ret 0) s
  = (Ok (if _n s <? index then - ((- _n s) / index) else 0), s).
Proof.
  intros Hn. destruct (Z.ltb_spec (_n s) index); [|reflexivity].
  unfold ceil_div. destruct (Z.eqb_spec index 0); [lia | reflexivity].
Qed.

(** A pixel write of a byte triple, as a run of [store_bytes]. *)
Lemma set_item_run s l index r g b :
  frame s = Some l → 0 ≤ _n s → pixel_order s ∈ pixel_orders →
  is_byte r = true → is_byte g = true → is_byte b = true →
  _set_item index (PSeq [PInt r; PInt g; PInt b]) s =
    let out := store_bytes l (set_offset (_n s) index)
                 [255; channel r g b (pixel_order s).1.1;
                       channel r g b (pixel_order s).1.2;
                       channel r g b (pixel_order s).2] in
    (out.1, upd s out.2).
Proof.
  intros Hl Hn Hpo Hr Hg Hb. rewrite set_item_unfold. msimpl.
  rewrite (bind_ok _ _ _ _ _ (ceil_div_run s index Hn)).
  cbn [rgb_of py_len length]. msimpl.
  change (Z.of_nat 3 =? 4) with false. msimpl. cbn [py_num]. msimpl.
  change (header_byte (NInt 1)) with (Ok 255 : res Z). msimpl.
  fold (set_offset (_n s) index).
  by apply store_pixel_run.
Qed.

(** A pixel write of a colour whose components are bytes and whose header
    byte is defined, as a run of [store_bytes]. *)
Lemma set_item_colour_run s l index value r g b pb h :
  frame s = Some l → 0 ≤ _n s → pixel_order s ∈ pixel_orders →
  channels value = Some (r, g, b) →
  is_byte r = true → is_byte g = true → is_byte b = true →
  pixel_brightness value = Some pb → header_byte pb = Ok h →
  _set_item index value s =
    let out := store_bytes l (set_offset (_n s) index)
                 [h; channel r g b (pixel_order s).1.1;
                     channel r g b (pixel_order s).1.2;
                     channel r g b (pixel_order s).2] in
    (out.1, upd s out.2).
Proof.
  intros Hl Hn Hpo Hc Hr Hg Hb Hpb Hh. rewrite set_item_unfold. msimpl.
  rewrite (bind_ok _ _ _ _ _ (ceil_div_run s index Hn)).
  fold (set_offset (_n s) index).
  pose proof (is_byte_header _ _ Hh) as Hbh.
  unfold channels in Hc.
  destruct (rgb_of value) as [| |[|[x| |] [|[y| |] [|[z| |] rest]]]] eqn:Ergb;
    try discriminate.
  injection Hc as -> -> ->.
  assert (Eb : ∀ t,
    (brightness <- (if Z.of_nat (length (PInt r :: PInt g :: PInt b :: rest)) =? 4
                    then py_getitem value 3 else ret (PInt 1)) ;;
     py_num brightness) t = (Ok pb, t)).
  { intros t. destruct value as [v|q|tl]; [| discriminate |].
    - cbn in Ergb. injection Ergb as <- <- <- <-. cbn in Hpb.
      injection Hpb as <-. reflexivity.
    - cbn in Ergb. injection Ergb as ->. cbn [pixel_brightness] in Hpb.
      destruct (Z.of_nat (length (PInt r :: PInt g :: PInt b :: rest)) =? 4) eqn:H4.
      + apply Z.eqb_eq in H4.
        destruct rest as [|x [|? ?]]; cbn [length] in H4; try lia.
        cbn in Hpb. destruct x as [z|f|]; try discriminate;
          injection Hpb as <-; reflexivity.
      + injection Hpb as <-. reflexivity. }
  cbn [py_len]. msimpl.
  rewrite bind_eq.
  specialize (Eb s). rewrite bind_eq in Eb.
  destruct ((if Z.of_nat (length (PInt r :: PInt g :: PInt b :: rest)) =? 4
             then py_getitem value 3 else ret (PInt 1)) s) as [[br|e] s1];
    [|discriminate].
  rewrite bind_eq, Eb. rewrite Hh. msimpl.
  by apply store_pixel_seq_run.
Qed.

(** The run of four stores of an in-range pixel write completes. *)
Lemma store_bytes_4 l off a b c d :
  0 ≤ off → off + 4 ≤ Z.of_nat (length l) →
  store_bytes l off [a; b; c; d]
  = (Ok tt, <[Z.to_nat (off + 3) := d]> (<[Z.to_nat (off + 2) := c]>
              (<[Z.to_nat (off + 1) := b]> (<[Z.to_nat off := a]> l)))).
Proof.
  intros H0 H4. cbn [store_bytes].
  replace (off + 1 + 1) with (off + 2) by lia.
  replace (off + 2 + 1) with (off + 3) by lia.
  rewrite norm_index_nonneg by lia.
  rewrite length_insert, norm_index_nonneg by lia.
  rewrite !length_insert, norm_index_nonneg by lia.
  rewrite !length_insert, norm_index_nonneg by lia.
  reflexivity.
Qed.

Lemma store_bytes_length l off bs : length (store_bytes l off bs).2 = length l.
Proof.
  revert l off. induction bs as [|x bs IH]; intros l off; [done|].
  cbn [store_bytes]. destruct (norm_index _ off); [|done].
  by rewrite IH, length_insert.
Qed.

(** A run of stores completes exactly when every offset addresses a byte of
    the array, and fails with [IndexError] otherwise. *)
Lemma store_bytes_ok_iff l off bs :
  ((store_bytes l off bs).1 = Ok tt
   ↔ ∀ j, 0 ≤ j < Z.of_nat (length bs) →
          is_Some (norm_index (Z.of_nat (length l)) (off + j)))
  ∧ ((store_bytes l off bs).1 = Ok tt
     ∨ (store_bytes l off bs).1 = Raise IndexError).
Proof.
  revert l off. induction bs as [|x bs IH]; intros l off.
  { cbn. split; [split; [intros; lia | done] | by left]. }
  cbn [store_bytes length].
  destruct (norm_index _ off) as [k|] eqn:Hk.
  - destruct (IH (<[k:=x]> l) (off + 1)) as [IH1 IH2]. rewrite length_insert in IH1.
    split; [|done]. rewrite IH1. split.
    + intros H j Hj. destruct (decide (j = 0)) as [->|].
      * rewrite Z.add_0_r, Hk. by eexists.
      * replace (off + j) with (off + 1 + (j - 1)) by lia. apply H. lia.
    + intros H j Hj. replace (off + 1 + j) with (off + (j + 1)) by lia.
      apply H. lia.
  - split; [|by right]. split; [done|].
    intros H. destruct (H 0 ltac:(lia)) as [k Hk']. rewrite Z.add_0_r in Hk'.
    congruence.
Qed.

Ltac case_cmp :=
  repeat (match goal with
          | |- context [Z.ltb ?a ?b] => destruct (Z.ltb_spec a b)
          | |- context [Z.leb ?a ?b] => destruct (Z.leb_spec a b)
          end; try lia; cbn [orb andb negb]).

Lemma getitem_oob s index :
  0 ≤ _n s →
  ¬ (0 ≤ (if index <? 0 then index + _n s else index) < _n s) →
  __getitem__ (Index index) s = (Raise IndexError, s).
Proof.
  intros Hn H. unfold __getitem__, len_self, __len__, bind, gets, ret, raise.
  destruct (Z.ltb_spec index 0); case_cmp; reflexivity.
Qed.

Lemma getitem_wrap s index :
  - _n s ≤ index < 0 →
  __getitem__ (Index index) s = __getitem__ (Index (index + _n s)) s.
Proof.
  intros H. unfold __getitem__, len_self, __len__, bind, gets, ret, raise.
  case_cmp; reflexivity.
Qed.

Lemma set_offset_in_range n i : i ≤ n → set_offset n i = i * 4 + 4.
Proof.
  intros H. unfold set_offset, START_HEADER_SIZE.
  destruct (Z.ltb_spec n i); lia.
Qed.

(** A concrete strip is in working order, by computation. *)
Ltac in_working_order :=
  split; [vm_compute; reflexivity|];
  split; [repeat constructor|];
  split; [vm_compute; discriminate|];
  split; [vm_compute; discriminate|];
  split; [split; vm_compute; discriminate|];
  split; [apply (bool_decide_unpack _); vm_compute; exact I|];
  split; [vm_compute; first [reflexivity | exact I] | vm_compute; reflexivity].

(** An in-range pixel write of an accepted colour completes; the frame
    then holds the header byte at the pixel's offset, and every other
    pixel's header byte is the one it held. *)
Lemma set_item_header s l index value r g b pb h :
  well_formed s l → 0 ≤ index < _n s →
  channels value = Some (r, g, b) →
  is_byte r = true → is_byte g = true → is_byte b = true →
  pixel_brightness value = Some pb → header_byte pb = Ok h →
  ∃ l',
    _set_item index value s = (Ok tt, upd s l')
    ∧ length l' = length l
    ∧ l' !! Z.to_nat (index * 4 + 4) = Some h
    ∧ ∀ j, j ≠ index → l' !! Z.to_nat (j * 4 + 4) = l !! Z.to_nat (j * 4 + 4).
Proof.
  intros (Hl & _ & Hn & Hlen & _ & Hpo & _) Hi Hc Hr Hg Hb Hpb Hh.
  unfold START_HEADER_SIZE in Hlen.
  rewrite (set_item_colour_run s l index value r g b pb h) by done.
  rewrite set_offset_in_range by lia.
  rewrite store_bytes_4 by lia. cbn [fst snd].
  eexists. split; [done|]. split; [by rewrite !length_insert|]. split.
  - rewrite !list_lookup_insert_ne by lia.
    apply list_lookup_insert_eq. lia.
  - intros j Hj.
    destruct (Z.le_gt_cases 0 (j * 4 + 4)).
    + rewrite !list_lookup_insert_ne by lia. done.
    + replace (Z.to_nat (j * 4 + 4)) with 0%nat by lia.
      rewrite !list_lookup_insert_ne by lia. done.
Qed.

(** C4: every completed pixel write, whatever the colour and the index,
    leaves a byte with bits 7, 6 and 5 set at the header offset of the
    written pixel frame.  A write at an index in range of a colour whose
    three components are bytes and whose brightness lies in [0, 1] (1
    when the colour has no fourth component) does complete: it stores the
    header byte [k | 0b11100000] at offset [4 + 4 * index], where [k], at
    most 31, is the five-bit brightness, and leaves the header byte of
    every other pixel as it was. *)
Theorem header_top_bits s l index value :
  (∀ s',
     frame s = Some l → 4 ≤ Z.of_nat (length l) →
     _set_item index value s = (Ok tt, s') →
     ∃ l' k h,
       frame s' = Some l'
       ∧ norm_index (Z.of_nat (length l)) (set_offset (_n s) index) = Some k
       ∧ l' !! k = Some h
       ∧ Z.testbit h 7 = true ∧ Z.testbit h 6 = true ∧ Z.testbit h 5 = true)
  ∧ (∀ r g b pb,
       well_formed s l → 0 ≤ index < _n s →
       channels value = Some (r, g, b) →
       is_byte r = true → is_byte g = true → is_byte b = true →
       pixel_brightness value = Some pb →
       num_valid pb → num_leb num_0 pb = true → num_leb pb num_1 = true →
       ∃ l' k,
         _set_item index value s = (Ok tt, upd s l')
         ∧ frame (upd s l') = Some l'
         ∧ 0 ≤ k ≤ 31
         ∧ header_byte pb = Ok (Z.lor k LED_START)
         ∧ l' !! Z.to_nat (4 + 4 * index) = Some (Z.lor k LED_START)
         ∧ Z.land (Z.lor k LED_START) 224 = 224
         ∧ Z.land (Z.lor k LED_START) 31 = k
         ∧ ∀ j, j ≠ index →
             l' !! Z.to_nat (4 + 4 * j) = l !! Z.to_nat (4 + 4 * j)).
Proof.
  split.
  - intros s' Hl Hlen H.
    destruct (set_item_inv _ _ _ _ _ Hl Hlen H)
      as (b & h & k & l' & _ & Hh & Hk & Hl' & _ & Hlk & _).
    destruct (header_byte_bits b h Hh) as (? & ? & ? & _).
    by exists l', k, h.
  - intros r g b pb Hwf Hi Hc Hr Hg Hb Hpb Hv H0 H1.
    destruct (num_header pb Hv H0 H1) as (k & Hh & Hk & _).
    destruct (set_item_header s l index value r g b pb _ Hwf Hi Hc Hr Hg Hb Hpb Hh)
      as (l' & E & Hlen & Hlk & Hothers).
    exists l', k. split; [done|].
    split; [eapply frame_upd, Hwf|]. split; [done|]. split; [done|].
    replace (4 + 4 * index) with (index * 4 + 4) by lia.
    split; [done|].
    assert (Hk' : 0 ≤ k < 32) by lia.
    split; [|split].
    + rewrite lor_led_start by done.
      assert (k ∈ seqZ 0 32) as Hin by (apply elem_of_seqZ; lia).
      revert Hin. generalize k. apply Forall_forall. vm_compute.
      repeat constructor.
    + rewrite lor_led_start by done.
      assert (k ∈ seqZ 0 32) as Hin by (apply elem_of_seqZ; lia).
      revert Hin. generalize k. apply Forall_forall. vm_compute.
      repeat constructor.
    + intros j Hj. replace (4 + 4 * j) with (j * 4 + 4) by lia. by apply Hothers.
Qed.

Lemma header_top_bits_witness :
  let s := strip true 2 num_1 BGR in
  let l := [0; 0; 0; 0; 255; 0; 0; 0; 255; 0; 0; 255; 0] in
  let value := PSeq [PInt 1; PInt 2; PInt 3; PFloat (dyadic 1 (-1))] in
  ∃ l' k,
    _set_item 1 value s = (Ok tt, upd s l')
    ∧ frame (upd s l') = Some l'
    ∧ 0 ≤ k ≤ 31
    ∧ header_byte half = Ok (Z.lor k LED_START)
    ∧ l' !! Z.to_nat (4 + 4 * 1) = Some (Z.lor k LED_START)
    ∧ Z.land (Z.lor k LED_START) 224 = 224
    ∧ Z.land (Z.lor k LED_START) 31 = k
    ∧ ∀ j, j ≠ 1 → l' !! Z.to_nat (4 + 4 * j) = l !! Z.to_nat (4 + 4 * j).
Proof.
  cbv zeta.
  apply (proj2 (header_top_bits (strip true 2 num_1 BGR)
           [0; 0; 0; 0; 255; 0; 0; 0; 255; 0; 0; 255; 0] 1
           (PSeq [PInt 1; PInt 2; PInt 3; PFloat (dyadic 1 (-1))])) 1 2 3 half).
  - in_working_order.
  - vm_compute. split; [discriminate | reflexivity].
  - reflexivity.
  - reflexivity.
  - reflexivity.
  - reflexivity.
  - reflexivity.
  - vm_compute. reflexivity.
  - vm_compute. reflexivity.
  - vm_compute. reflexivity.
Defined.

(** The header byte written for brightness 0.5 is [0xF0]: [k] is 16. *)
Example header_at_half :
  (_set_item 1 (PSeq [PInt 1; PInt 2; PInt 3; PFloat (dyadic 1 (-1))])
     (strip true 2 num_1 BGR))
  = (Ok tt, upd (strip true 2 num_1 BGR)
              [0; 0; 0; 0; 255; 0; 0; 0; 240; 3; 2; 1; 0]).
Proof. vm_compute. reflexivity. Qed.

(** C5, as stated, fails: with per-pixel brightness 0.75 the header byte
    stored is 248 (brightness bits 24), while rounding [0.75 * 31 = 23.25]
    gives 23 and the byte 247. *)
Lemma header_is_not_rounded :
  ∃ l', frame (_set_item 0 (PSeq [PInt 0; PInt 0; PInt 0; PFloat (dyadic 3 (-2))])
                 (strip true 1 num_1 BGR)).2 = Some l'
        ∧ l' !! 4%nat = Some 248
        ∧ num_val three_quarters == 3 # 4
        ∧ spec_header_byte (num_val three_quarters) = 247.
Proof. eexists. vm_compute. done. Qed.

(** C5, amended: for a per-pixel brightness [pb] in [0, 1] (1 when the
    colour has no fourth component) a write at an index in range completes
    and stores the header byte [k | 0b11100000] with
    [k = 32 - int(32 - pb * 31)], the product and the difference being
    rounded to binary64.  [k] lies between the floor and the ceiling of
    the exact product [31 * pb]: it is the ceiling, not the rounding, when
    the arithmetic is exact (0.75 gives 24), and the floor when the
    rounding of the difference swallows the fraction ([2 ^ -60] gives 0). *)
Theorem header_between_floor_and_ceiling s l index value r g b pb :
  well_formed s l → 0 ≤ index < _n s →
  channels value = Some (r, g, b) →
  is_byte r = true → is_byte g = true → is_byte b = true →
  pixel_brightness value = Some pb →
  num_valid pb → num_leb num_0 pb = true → num_leb pb num_1 = true →
  (∃ l' k,
     _set_item index value s = (Ok tt, upd s l')
     ∧ frame (upd s l') = Some l'
     ∧ l' !! Z.to_nat (4 + 4 * index) = Some (Z.lor k 224)
     ∧ header_byte pb = Ok (Z.lor k 224)
     ∧ Qfloor (inject_Z 31 * num_val pb) ≤ k
         ≤ Qceiling (inject_Z 31 * num_val pb))
  ∧ header_byte three_quarters = Ok (Z.lor 24 224)
  ∧ Qceiling (inject_Z 31 * num_val three_quarters) = 24
  ∧ spec_header_byte (num_val three_quarters) = Z.lor 23 224
  ∧ header_byte (NFloat (dyadic 1 (-60))) = Ok (Z.lor 0 224)
  ∧ Qceiling (inject_Z 31 * num_val (NFloat (dyadic 1 (-60)))) = 1.
Proof.
  intros Hwf Hi Hc Hr Hg Hb Hpb Hv H0 H1.
  split; [|vm_compute; done].
  destruct (num_header pb Hv H0 H1) as (k & Hh & Hk & Hfc).
  destruct (set_item_header s l index value r g b pb _ Hwf Hi Hc Hr Hg Hb Hpb Hh)
    as (l' & E & Hlen & Hlk & _).
  exists l', k. split; [done|]. split; [eapply frame_upd, Hwf|].
  replace (4 + 4 * index) with (index * 4 + 4) by lia. done.
Qed.

Lemma header_between_floor_and_ceiling_witness :
  let s := strip true 1 num_1 BGR in
  let value := PSeq [PInt 0; PInt 0; PInt 0; PFloat (dyadic 3 (-2))] in
  (∃ l' k,
     _set_item 0 value s = (Ok tt, upd s l')
     ∧ frame (upd s l') = Some l'
     ∧ l' !! Z.to_nat (4 + 4 * 0) = Some (Z.lor k 224)
     ∧ header_byte three_quarters = Ok (Z.lor k 224)
     ∧ Qfloor (inject_Z 31 * num_val three_quarters) ≤ k
         ≤ Qceiling (inject_Z 31 * num_val three_quarters))
  ∧ header_byte three_quarters = Ok (Z.lor 24 224)
  ∧ Qceiling (inject_Z 31 * num_val three_quarters) = 24
  ∧ spec_header_byte (num_val three_quarters) = Z.lor 23 224
  ∧ header_byte (NFloat (dyadic 1 (-60))) = Ok (Z.lor 0 224)
  ∧ Qceiling (inject_Z 31 * num_val (NFloat (dyadic 1 (-60)))) = 1.
Proof.
  cbv zeta.
  apply (header_between_floor_and_ceiling (strip true 1 num_1 BGR)
           [0; 0; 0; 0; 255; 0; 0; 255; 0] 0
           (PSeq [PInt 0; PInt 0; PInt 0; PFloat (dyadic 3 (-2))]) 0 0 0
           three_quarters).
  - in_working_order.
  - vm_compute. split; [discriminate | reflexivity].
  - reflexivity.
  - reflexivity.
  - reflexivity.
  - reflexivity.
  - reflexivity.
  - vm_compute. reflexivity.
  - vm_compute. reflexivity.
  - vm_compute. reflexivity.
Defined.

(** The header bytes stored for the brightnesses 0.75, [2 ^ -60] and the
    float nearest to 9/31: 248, 224 and 233. *)
Example header_bytes_stored :
  header_byte three_quarters = Ok 248
  ∧ header_byte (NFloat (dyadic 1 (-60))) = Ok 224
  ∧ header_byte (NFloat (S754_finite false 5229986664043157 (-54))) = Ok 233.
Proof. vm_compute. done. Qed.

Lemma ba_getitem_frame_some s l i v :
  frame s = Some l → 0 ≤ i → l !! Z.to_nat i = Some v →
  ba_getitem (_buf s) i s = (Ok v, s).
Proof.
  intros Hl Hi Hv. rewrite (ba_getitem_frame _ _ _ Hl).
  apply lookup_lt_Some in Hv as Hlt.
  rewrite norm_index_nonneg by lia. by rewrite Hv.
Qed.

Lemma getitem_in_range s l i a b c :
  frame s = Some l → 0 ≤ i < _n s →
  l !! Z.to_nat (i * 4 + 7) = Some a →
  l !! Z.to_nat (i * 4 + 6) = Some b →
  l !! Z.to_nat (i * 4 + 5) = Some c →
  __getitem__ (Index i) s = (Ok (PSeq [PInt a; PInt b; PInt c]), s).
Proof.
  intros Hl Hi Ha Hb Hc.
  unfold __getitem__, len_self, __len__, START_HEADER_SIZE.
  unfold bind, gets, ret, raise.
  destruct (Z.ltb_spec i 0); [lia|]. cbv beta iota. case_cmp.
  replace (i * 4 + (3 - 0) + 4) with (i * 4 + 7) by lia.
  replace (i * 4 + (3 - 1) + 4) with (i * 4 + 6) by lia.
  replace (i * 4 + (3 - 2) + 4) with (i * 4 + 5) by lia.
  rewrite (ba_getitem_frame_some s l (i * 4 + 7) a Hl ltac:(lia) Ha).
  rewrite (ba_getitem_frame_some s l (i * 4 + 6) b Hl ltac:(lia) Hb).
  by rewrite (ba_getitem_frame_some s l (i * 4 + 5) c Hl ltac:(lia) Hc).
Qed.

(** Reading a pixel back after writing it: the three stored bytes come out
    in reverse storage order, whatever the pixel order. *)
Lemma get_after_set s l i r g b :
  frame s = Some l → 0 ≤ i < _n s → 4 * _n s + 4 ≤ Z.of_nat (length l) →
  pixel_order s ∈ pixel_orders →
  is_byte r = true → is_byte g = true → is_byte b = true →
  ∃ s', _set_item i (PSeq [PInt r; PInt g; PInt b]) s = (Ok tt, s')
        ∧ __getitem__ (Index i) s'
          = (Ok (PSeq [PInt (channel r g b (pixel_order s).2);
                       PInt (channel r g b (pixel_order s).1.2);
                       PInt (channel r g b (pixel_order s).1.1)]), s').
Proof.
  intros Hl Hi Hlen Hpo Hr Hg Hb.
  rewrite (set_item_run _ _ _ _ _ _ Hl) by (done || lia).
  rewrite set_offset_in_range by lia. cbn [store_bytes].
  rewrite norm_index_nonneg by lia.
  rewrite length_insert, norm_index_nonneg by lia.
  rewrite !length_insert, norm_index_nonneg by lia.
  rewrite !length_insert, norm_index_nonneg by lia.
  cbn [fst snd]. eexists. split; [done|].
  replace (Z.to_nat (i * 4 + 4 + 1 + 1 + 1)) with (Z.to_nat (i * 4 + 7)) by lia.
  replace (Z.to_nat (i * 4 + 4 + 1 + 1)) with (Z.to_nat (i * 4 + 6)) by lia.
  replace (Z.to_nat (i * 4 + 4 + 1)) with (Z.to_nat (i * 4 + 5)) by lia.
  eapply getitem_in_range; [by eapply frame_upd | done | ..].
  - apply list_lookup_insert_eq. rewrite !length_insert. lia.
  - rewrite list_lookup_insert_ne by lia.
    apply list_lookup_insert_eq. rewrite !length_insert. lia.
  - rewrite !list_lookup_insert_ne by lia.
    apply list_lookup_insert_eq. rewrite !length_insert. lia.
Qed.

(** Under the default order the round trip holds. *)
Lemma roundtrip_BGR s l i r g b :
  frame s = Some l → 0 ≤ i < _n s → 4 * _n s + 4 ≤ Z.of_nat (length l) →
  pixel_order s = BGR →
  is_byte r = true → is_byte g = true → is_byte b = true →
  ∃ s', _set_item i (PSeq [PInt r; PInt g; PInt b]) s = (Ok tt, s')
        ∧ __getitem__ (Index i) s' = (Ok (PSeq [PInt r; PInt g; PInt b]), s').
Proof.
  intros Hl Hi Hlen Hpo Hr Hg Hb.
  destruct (get_after_set s l i r g b) as (s' & E1 & E2); try done.
  { rewrite Hpo. unfold pixel_orders. rewrite !elem_of_cons. tauto. }
  exists s'. split; [done|]. by rewrite E2, Hpo.
Qed.

(** C1: the round trip fails under the RGB order.  Writing (10, 20, 30) to
    pixel 0 stores 10, 20, 30 after the header and reading pixel 0 back
    yields (30, 20, 10): [__getitem__] undoes the BGR permutation whatever
    [pixel_order] says. *)
Theorem roundtrip_fails_under_RGB :
  (__setitem__ (Index 0) (PSeq [PInt 10; PInt 20; PInt 30]) ;;
   __getitem__ (Index 0)) (strip true 1 num_1 RGB)
  = (Ok (PSeq [PInt 30; PInt 20; PInt 10]),
     upd (strip true 1 num_1 RGB) [0; 0; 0; 0; 255; 10; 20; 30; 0]).
Proof. vm_compute. reflexivity. Qed.

(** C6, as stated, fails for writes.  On a strip of one pixel, index -2
    (out of bounds also after wrapping) is written without error, over
    bytes 5 to 8 of the frame buffer; index 1 raises [IndexError] only
    after the header byte has been stored at offset 8. *)
Lemma set_out_of_bounds_writes :
  let s := strip true 1 num_1 BGR in
  frame s = Some [0; 0; 0; 0; 255; 0; 0; 255; 0]
  ∧ __setitem__ (Index (-2)) (PSeq [PInt 1; PInt 2; PInt 3]) s
    = (Ok tt, upd s [0; 0; 0; 0; 255; 255; 3; 2; 1])
  ∧ __setitem__ (Index 1) (PSeq [PInt 1; PInt 2; PInt 3]) s
    = (Raise IndexError, upd s [0; 0; 0; 0; 255; 0; 0; 255; 255]).
Proof. vm_compute. done. Qed.

(** C6, amended: a read at an index out of bounds raises [IndexError] and
    leaves the state as it was; a read at a negative index in bounds is the
    read at that index plus [n].  A write does not check the index against
    [n]: it is a run of four byte stores from [set_offset n index], which
    completes exactly when the four offsets, read as Python indices, address
    bytes of the frame buffer, and ends in [IndexError] otherwise, the bytes
    stored before the failing offset staying stored. *)
Theorem index_checks s l index r g b :
  frame s = Some l → 0 ≤ _n s → pixel_order s ∈ pixel_orders →
  is_byte r = true → is_byte g = true → is_byte b = true →
  ¬ (0 ≤ (if index <? 0 then index + _n s else index) < _n s) →
  __getitem__ (Index index) s = (Raise IndexError, s)
  ∧ (∀ i, - _n s ≤ i < 0 →
          __getitem__ (Index i) s = __getitem__ (Index (i + _n s)) s)
  ∧ (let out := store_bytes l (set_offset (_n s) index)
                  [255; channel r g b (pixel_order s).1.1;
                        channel r g b (pixel_order s).1.2;
                        channel r g b (pixel_order s).2] in
     _set_item index (PSeq [PInt r; PInt g; PInt b]) s = (out.1, upd s out.2)
     ∧ (out.1 = Ok tt
        ↔ ∀ j, 0 ≤ j < 4 →
               is_Some (norm_index (Z.of_nat (length l))
                          (set_offset (_n s) index + j)))
     ∧ (out.1 = Ok tt ∨ out.1 = Raise IndexError)).
Proof.
  intros Hl Hn Hpo Hr Hg Hb Hoob.
  split; [by apply getitem_oob|]. split; [intros i; apply getitem_wrap|].
  cbv zeta. split; [by apply set_item_run|].
  apply store_bytes_ok_iff.
Qed.

Lemma index_checks_witness :
  let s := strip true 1 num_1 BGR in
  let l := [0; 0; 0; 0; 255; 0; 0; 255; 0] in
  __getitem__ (Index 1) s = (Raise IndexError, s)
  ∧ (∀ i, - _n s ≤ i < 0 →
          __getitem__ (Index i) s = __getitem__ (Index (i + _n s)) s)
  ∧ (let out := store_bytes l (set_offset (_n s) 1)
                  [255; channel 1 2 3 (pixel_order s).1.1;
                        channel 1 2 3 (pixel_order s).1.2;
                        channel 1 2 3 (pixel_order s).2] in
     _set_item 1 (PSeq [PInt 1; PInt 2; PInt 3]) s = (out.1, upd s out.2)
     ∧ (out.1 = Ok tt
        ↔ ∀ j, 0 ≤ j < 4 →
               is_Some (norm_index (Z.of_nat (length l))
                          (set_offset (_n s) 1 + j)))
     ∧ (out.1 = Ok tt ∨ out.1 = Raise IndexError)).
Proof.
  apply (index_checks (strip true 1 num_1 BGR) [0; 0; 0; 0; 255; 0; 0; 255; 0] 1 1 2 3).
  - vm_compute. reflexivity.
  - vm_compute. discriminate.
  - change (BGR ∈ pixel_orders). apply (bool_decide_unpack _). vm_compute. exact I.
  - reflexivity.
  - reflexivity.
  - reflexivity.
  - change (¬ (0 ≤ 1 < 1)). lia.
Defined.

(** *** The bit-banged transmission *)

Lemma clock_out_zero k : clock_out k 0 = (0, true).
Proof.
  induction k as [|k IH]; [done|]. cbn [clock_out].
  change (Z.shiftl 0 1) with 0. by rewrite IH.
Qed.

Lemma clock_out_S k v :
  clock_out (S k) v =
    if is_byte (Z.shiftl v 1) then clock_out k (Z.shiftl v 1) else (v, false).
Proof. reflexivity. Qed.

Lemma clock_out_overflow k v :
  0 < v < 256 → 256 ≤ v * 2 ^ Z.of_nat k → (clock_out k v).2 = false.
Proof.
  revert v. induction k as [|k IH]; intros v Hv Hk.
  { cbn in Hk. lia. }
  cbn [clock_out]. rewrite Z.shiftl_mul_pow2 by lia. change (2 ^ 1) with 2.
  unfold is_byte. destruct (Z.leb_spec 0 (v * 2)); [|lia].
  destruct (Z.ltb_spec (v * 2) 256); [|done]. cbn [andb].
  apply IH; [lia|].
  rewrite Nat2Z.inj_succ, Z.pow_succ_r in Hk by lia. lia.
Qed.

(** Eight shifts push every nonzero byte past 255. *)
Lemma clock_out_nonzero v : v ≠ 0 → (clock_out 8 v).2 = false.
Proof.
  intros Hv. destruct (decide (0 < v < 256)) as [H|H].
  { apply clock_out_overflow; [done|]. change (2 ^ Z.of_nat 8) with 256. lia. }
  change 8%nat with (S 7). rewrite clock_out_S.
  rewrite Z.shiftl_mul_pow2 by lia. change (2 ^ 1) with 2.
  unfold is_byte. destruct (Z.leb_spec 0 (v * 2)); [|done].
  destruct (Z.ltb_spec (v * 2) 256); [lia | done].
Qed.

Lemma clock_out_grows k v : 0 ≤ v → v ≤ (clock_out k v).1.
Proof.
  revert v. induction k as [|k IH]; intros v Hv; [done|].
  cbn [clock_out]. destruct (is_byte _); [|done].
  pose proof (IH (Z.shiftl v 1)) as H.
  rewrite Z.shiftl_mul_pow2 in * by lia. change (2 ^ 1) with 2 in *. lia.
Qed.

Lemma clock_out_changes v : 0 < v < 128 → (clock_out 8 v).1 ≠ v.
Proof.
  intros Hv. change 8%nat with (S 7). rewrite clock_out_S.
  pose proof (clock_out_grows 7 (Z.shiftl v 1)) as H.
  rewrite Z.shiftl_mul_pow2 in * by lia. change (2 ^ 1) with 2 in *.
  assert (E : is_byte (v * 2) = true).
  { unfold is_byte. apply andb_true_intro.
    split; [apply Z.leb_le | apply Z.ltb_lt]; lia. }
  rewrite E. lia.
Qed.

Lemma ba_getitem_heap s buf l i k v :
  heap s !! buf = Some l → norm_index (Z.of_nat (length l)) i = Some k →
  l !! k = Some v → ba_getitem buf i s = (Ok v, s).
Proof. intros Hl Hk Hv. unfold ba_getitem. by rewrite Hl, Hk, Hv. Qed.

Lemma ba_setitem_heap s buf l i k z :
  heap s !! buf = Some l → norm_index (Z.of_nat (length l)) i = Some k →
  ba_setitem buf i (PInt z) s =
    if is_byte z then (Ok tt, with_heap (<[buf := <[k := z]> l]> (heap s)) s)
    else (Raise ValueError, s).
Proof. intros Hl Hk. unfold ba_setitem, is_byte. by rewrite Hl, Hk. Qed.

(** One clock pulse: a bit goes out and the byte is shifted in place. *)
Lemma clock_pulse buf i s l k v :
  heap s !! buf = Some l → norm_index (Z.of_nat (length l)) i = Some k →
  l !! k = Some v →
  ∃ s',
    (emit (Cpin true) ;;
     v <- ba_getitem buf i ;;
     emit (Dpin (negb (Z.land v 128 =? 0))) ;;
     emit (Cpin false) ;;
     v <- ba_getitem buf i ;;
     ba_setitem buf i (PInt (Z.shiftl v 1))) s
    = ((if is_byte (Z.shiftl v 1) then Ok tt else Raise ValueError), s')
    ∧ heap s' = (if is_byte (Z.shiftl v 1)
                 then <[buf := <[k := Z.shiftl v 1]> l]> (heap s) else heap s)
    ∧ attrs s' = attrs s.
Proof.
  intros Hl Hk Hv. unfold bind, emit, modify.
  erewrite ba_getitem_heap; [|exact Hl|exact Hk|exact Hv].
  erewrite ba_getitem_heap; [|exact Hl|exact Hk|exact Hv].
  erewrite ba_setitem_heap; [|exact Hl|exact Hk].
  destruct (is_byte (Z.shiftl v 1)); eexists; (split; [reflexivity|]); done.
Qed.

(** The eight clock pulses of one byte. *)
Lemma clock_byte_run buf i (xs : list Z) s l k v :
  heap s !! buf = Some l → norm_index (Z.of_nat (length l)) i = Some k →
  l !! k = Some v →
  ∃ s',
    for_ xs (λ _,
      emit (Cpin true) ;;
      v <- ba_getitem buf i ;;
      emit (Dpin (negb (Z.land v 128 =? 0))) ;;
      emit (Cpin false) ;;
      v <- ba_getitem buf i ;;
      ba_setitem buf i (PInt (Z.shiftl v 1))) s
    = ((if (clock_out (length xs) v).2 then Ok tt else Raise ValueError), s')
    ∧ heap s' = <[buf := <[k := (clock_out (length xs) v).1]> l]> (heap s)
    ∧ attrs s' = attrs s.
Proof.
  revert s l v. induction xs as [|x xs IH]; intros s l v Hl Hk Hv.
  { exists s. cbn [for_ length clock_out fst snd].
    by rewrite (list_insert_id l), list_insert_id. }
  cbn [for_ length]. rewrite clock_out_S.
  destruct (clock_pulse buf i s l k v Hl Hk Hv) as (s1 & E1 & Hh1 & Ha1).
  assert (Hb : (buf < length (heap s))%nat) by by eapply lookup_lt_Some.
  assert (Hkl : (k < length l)%nat) by (apply norm_index_lt in Hk; lia).
  destruct (is_byte (Z.shiftl v 1)).
  - rewrite (bind_ok _ _ _ _ _ E1).
    destruct (IH s1 (<[k:=Z.shiftl v 1]> l) (Z.shiftl v 1)) as (s' & E & Hh & Ha).
    + rewrite Hh1. by apply list_lookup_insert_eq.
    + by rewrite length_insert.
    + by apply list_lookup_insert_eq.
    + exists s'. split; [done|]. split; [|congruence].
      rewrite Hh, Hh1. by rewrite list_insert_insert_eq, list_insert_insert_eq.
  - rewrite (bind_raise _ _ _ _ _ E1). exists s1. split; [done|]. split; [|done].
    rewrite Hh1. cbn [fst]. by rewrite (list_insert_id l), list_insert_id.
Qed.

Lemma clock_byte_index_error buf i s l :
  heap s !! buf = Some l → norm_index (Z.of_nat (length l)) i = None →
  ∃ s',
    for_ (range1 8) (λ _,
      emit (Cpin true) ;;
      v <- ba_getitem buf i ;;
      emit (Dpin (negb (Z.land v 128 =? 0))) ;;
      emit (Cpin false) ;;
      v <- ba_getitem buf i ;;
      ba_setitem buf i (PInt (Z.shiftl v 1))) s
    = (Raise IndexError, s')
    ∧ heap s' = heap s ∧ attrs s' = attrs s.
Proof.
  intros Hl Hk. unfold range1. rewrite seqZ_cons by lia. cbn [for_].
  unfold bind, emit, modify, ba_getitem. cbn [heap]. rewrite Hl, Hk.
  eexists. split; [reflexivity|done].
Qed.

(** [_ds_writebytes] over the indices [xs] is a run of [clock_bytes] on the
    array it is given. *)
Lemma clock_bytes_run buf (xs : list Z) s l :
  heap s !! buf = Some l →
  ∃ s',
    for_ xs (λ i,
      for_ (range1 8) (λ _,
        emit (Cpin true) ;;
        v <- ba_getitem buf i ;;
        emit (Dpin (negb (Z.land v 128 =? 0))) ;;
        emit (Cpin false) ;;
        v <- ba_getitem buf i ;;
        ba_setitem buf i (PInt (Z.shiftl v 1)))) s
    = ((clock_bytes l xs).1, s')
    ∧ heap s' = <[buf := (clock_bytes l xs).2]> (heap s)
    ∧ attrs s' = attrs s.
Proof.
  revert s l. induction xs as [|i xs IH]; intros s l Hl.
  { exists s. cbn [for_ clock_bytes fst snd]. by rewrite list_insert_id. }
  cbn [for_ clock_bytes].
  destruct (norm_index _ i) as [k|] eqn:Hk.
  - destruct (lookup_lt_is_Some_2 l k) as [v Hv].
    { apply norm_index_lt in Hk. lia. }
    rewrite Hv.
    destruct (clock_byte_run buf i (range1 8) s l k v Hl Hk Hv) as (s1 & E1 & Hh1 & Ha1).
    change (length (range1 8)) with 8%nat in *.
    assert (Hb : (buf < length (heap s))%nat) by by eapply lookup_lt_Some.
    destruct (clock_out 8 v).2.
    + rewrite (bind_ok _ _ _ _ _ E1).
      destruct (IH s1 (<[k:=(clock_out 8 v).1]> l)) as (s' & E & Hh & Ha).
      { rewrite Hh1. by apply list_lookup_insert_eq. }
      exists s'. split; [done|]. split; [|congruence].
      by rewrite Hh, Hh1, list_insert_insert_eq.
    + rewrite (bind_raise _ _ _ _ _ E1). by exists s1.
  - destruct (clock_byte_index_error buf i s l Hl Hk) as (s1 & E1 & Hh1 & Ha1).
    rewrite (bind_raise _ _ _ _ _ E1). exists s1. split; [done|]. split; [|done].
    cbn [snd]. by rewrite Hh1, list_insert_id.
Qed.

(** A run over zero bytes completes and leaves the array as it was. *)
Lemma clock_bytes_zero l xs :
  (∀ i, i ∈ xs →
        ∃ k, norm_index (Z.of_nat (length l)) i = Some k ∧ l !! k = Some 0) →
  clock_bytes l xs = (Ok tt, l).
Proof.
  induction xs as [|i xs IH]; intros H; [done|].
  destruct (H i) as (k & Hk & Hv); [apply list_elem_of_here|].
  cbn [clock_bytes]. rewrite Hk, Hv, clock_out_zero. cbn [fst snd].
  rewrite list_insert_id by done. apply IH.
  intros j Hj. apply H. by apply list_elem_of_further.
Qed.

(** A run completes only over zero bytes. *)
Lemma clock_bytes_ok_inv l xs :
  (clock_bytes l xs).1 = Ok tt →
  ∀ i, i ∈ xs →
       ∃ k, norm_index (Z.of_nat (length l)) i = Some k ∧ l !! k = Some 0.
Proof.
  induction xs as [|i xs IH]; intros H j Hj; [by apply elem_of_nil in Hj|].
  cbn [clock_bytes] in H.
  destruct (norm_index _ i) as [k|] eqn:Hk; [|discriminate].
  destruct (l !! k) as [v|] eqn:Hv; [|discriminate].
  destruct (decide (v = 0)) as [->|Hnz].
  - rewrite clock_out_zero in H. cbn [fst snd] in H.
    rewrite list_insert_id in H by done.
    apply elem_of_cons in Hj as [->|Hj]; [by exists k | by apply IH].
  - rewrite (clock_out_nonzero v Hnz) in H. discriminate.
Qed.

(** A run over valid indices that meets a nonzero byte ends in
    [ValueError]. *)
Lemma clock_bytes_nonzero l xs :
  (∀ i, i ∈ xs → is_Some (norm_index (Z.of_nat (length l)) i)) →
  (∃ i k, i ∈ xs ∧ norm_index (Z.of_nat (length l)) i = Some k
          ∧ l !! k ≠ Some 0) →
  (clock_bytes l xs).1 = Raise ValueError.
Proof.
  induction xs as [|i xs IH]; intros Hval (j & kj & Hj & Hkj & Hnz).
  { by apply elem_of_nil in Hj. }
  cbn [clock_bytes].
  destruct (Hval i) as [k Hk]; [apply list_elem_of_here|]. rewrite Hk.
  destruct (lookup_lt_is_Some_2 l k) as [v Hv].
  { apply norm_index_lt in Hk. lia. }
  rewrite Hv. destruct (decide (v = 0)) as [->|Hv0].
  - rewrite clock_out_zero. cbn [fst snd]. rewrite list_insert_id by done.
    apply IH.
    + intros i' Hi'. apply Hval. by apply list_elem_of_further.
    + apply elem_of_cons in Hj as [->|Hj]; [congruence|]. by exists j, kj.
  - by rewrite (clock_out_nonzero v Hv0).
Qed.

Lemma ds_writebytes_run buf start stop s l :
  heap s !! buf = Some l → stop ≠ -1 →
  ∃ s',
    _ds_writebytes buf start stop s = ((clock_bytes l (range2 start stop)).1, s')
    ∧ heap s' = <[buf := (clock_bytes l (range2 start stop)).2]> (heap s)
    ∧ attrs s' = attrs s.
Proof.
  intros Hl Hstop. unfold _ds_writebytes.
  destruct (Z.eqb_spec stop (-1)); [done|]. msimpl.
  by apply clock_bytes_run.
Qed.

(** At full brightness the manual [show] runs [clock_bytes] on the live
    frame buffer itself. *)
Lemma show_live_run s l line :
  _spi s = false → num_ltb (_brightness s) num_1 = false → frame s = Some l →
  (line + 1) * _n s ≠ -1 →
  ∃ s',
    show line s
    = ((clock_bytes l (range2 (line * _n s) ((line + 1) * _n s))).1, s')
    ∧ heap s'
      = <[_buf s := (clock_bytes l (range2 (line * _n s) ((line + 1) * _n s))).2]>
          (heap s)
    ∧ attrs s' = attrs s.
Proof.
  intros Hspi Hb Hl Hstop.
  destruct (ds_writebytes_run (_buf s) (line * _n s) ((line + 1) * _n s) s l Hl Hstop)
    as (s1 & E1 & Hh1 & Ha1).
  unfold show. rewrite bind_eq. cbn [gets]. rewrite bind_eq. cbn [gets].
  rewrite Hb. rewrite bind_eq. cbn [ret]. rewrite bind_eq. cbn [gets].
  rewrite Hspi. rewrite bind_eq. cbn [gets].
  rewrite bind_eq, E1.
  destruct (clock_bytes l _).1 as [[]|e].
  - eexists. split; [reflexivity|]. done.
  - by exists s1.
Qed.

Lemma ba_setitem_ok_inv buf i v s s' :
  ba_setitem buf i v s = (Ok tt, s') →
  ∃ l z k, heap s !! buf = Some l ∧ v = PInt z
           ∧ norm_index (Z.of_nat (length l)) i = Some k
           ∧ s' = with_heap (<[buf := <[k := z]> l]> (heap s)) s.
Proof.
  unfold ba_setitem. destruct (heap s !! buf) as [l|] eqn:Hl; [|discriminate].
  destruct v as [z| |]; [|discriminate..].
  destruct (_ && _); [|discriminate].
  destruct (norm_index _ i) as [k|] eqn:Hk; [|discriminate].
  intros [= <-]. by exists l, z, k.
Qed.

Lemma ba_getitem_ok_inv buf i v s s' :
  ba_getitem buf i s = (Ok v, s') → s' = s.
Proof.
  unfold ba_getitem. destruct (heap s !! buf) as [l|]; [|discriminate].
  destruct (norm_index _ i) as [k|]; [|discriminate].
  destruct (l !! k); [|discriminate]. by intros [= _ <-].
Qed.

Lemma rendering_setitem s0 s i v s' :
  rendering s0 s → ba_setitem (length (heap s0)) i v s = (Ok tt, s') →
  rendering s0 s'.
Proof.
  intros (Ha & t & Ht) H.
  apply ba_setitem_ok_inv in H as (l & z & k & Hl & -> & Hk & ->).
  split; [done|]. msimpl. rewrite Ht.
  rewrite insert_app_r_alt by lia. rewrite Nat.sub_diag. by eexists.
Qed.

(** Below full brightness a completed manual [show] has rendered an output
    buffer, left the live frame buffer alone, and found nothing but zero
    bytes to transmit. *)
Lemma show_copy_inv s l line s' :
  _spi s = false → num_ltb (_brightness s) num_1 = true → frame s = Some l →
  (line + 1) * _n s ≠ -1 →
  show line s = (Ok tt, s') →
  ∃ t, heap s' = heap s ++ [t]
       ∧ (∀ i, i ∈ range2 (line * _n s) ((line + 1) * _n s) →
               ∃ k, norm_index (Z.of_nat (length t)) i = Some k
                    ∧ t !! k = Some 0)
       ∧ attrs s' = attrs s.
Proof.
  intros Hspi Hb Hl Hstop H. unfold show in H.
  apply bind_ok_inv in H as (? & ? & [= <- <-] & H).
  apply bind_ok_inv in H as (? & ? & [= <- <-] & H).
  rewrite Hb in H.
  apply bind_ok_inv in H as (buf & s2 & E & H).
  assert (buf = length (heap s) ∧ rendering s s2) as [-> (Ha2 & t & Ht)].
  { apply bind_ok_inv in E as (b0 & s1 & E1 & E).
    unfold bytearray_copy in E1. unfold frame in Hl. rewrite Hl in E1.
    injection E1 as <- <-.
    assert (R1 : rendering s (with_heap (heap s ++ [l]) s)).
    { split; [reflexivity|]. exists l. reflexivity. }
    apply bind_ok_inv in E as ([] & s1a & E1 & E).
    assert (R2 : rendering s s1a).
    { eapply for_ok_inv; [|exact E1|exact R1].
      intros i t1 t2 _ Hi Ht. exact (rendering_setitem _ _ _ _ _ Ht Hi). }
    apply bind_ok_inv in E as (ehi & ? & [= <- <-] & E).
    apply bind_ok_inv in E as ([] & s1b & E2 & E).
    assert (R3 : rendering s s1b).
    { eapply for_ok_inv; [|exact E2|exact R2].
      intros i t1 t2 _ Hi Ht.
      apply bind_ok_inv in Hi as (v & t1' & Ev & Hi).
      apply ba_getitem_ok_inv in Ev as ->.
      destruct (i mod 4 =? 0); [exact (rendering_setitem _ _ _ _ _ Ht Hi)|].
      apply bind_ok_inv in Hi as (? & ? & [= <- <-] & Hi).
      apply bind_ok_inv in Hi as (p & ? & Ep & Hi).
      apply lift_ok_inv in Ep as [_ ->].
      apply bind_ok_inv in Hi as (q & ? & Eq & Hi).
      apply lift_ok_inv in Eq as [_ ->].
      exact (rendering_setitem _ _ _ _ _ Ht Hi). }
    apply bind_ok_inv in E as (ehi' & ? & [= <- <-] & E).
    apply bind_ok_inv in E as (len & s1c & E3 & E).
    assert (s1c = s1b) as ->.
    { unfold ba_len in E3. destruct (heap s1b !! _); [by injection E3|discriminate]. }
    apply bind_ok_inv in E as ([] & s1d & E4 & E).
    injection E as <- <-. split; [done|].
    eapply for_ok_inv; [|exact E4|exact R3].
    intros i t1 t2 _ Hi Ht. exact (rendering_setitem _ _ _ _ _ Ht Hi). }
  apply bind_ok_inv in H as (? & ? & [= <- <-] & H).
  apply bind_ok_inv in H as (? & ? & [= <- <-] & H).
  assert (_spi s2 = false ∧ _n s2 = _n s) as [Hspi2 Hn2].
  { unfold attrs in Ha2. split; congruence. }
  rewrite Hspi2, Hn2 in H.
  apply bind_ok_inv in H as ([] & s3 & E5 & H).
  injection H as <-.
  assert (Ht2 : heap s2 !! length (heap s) = Some t).
  { rewrite Ht. by apply list_lookup_middle. }
  destruct (ds_writebytes_run _ (line * _n s) ((line + 1) * _n s) s2 t Ht2 Hstop)
    as (s3' & E' & Hh3 & Ha3).
  rewrite E5 in E'. injection E' as Hok <-.
  pose proof (clock_bytes_ok_inv _ _ (eq_sym Hok)) as Hz.
  rewrite (clock_bytes_zero _ _ Hz) in Hh3. cbn [snd] in Hh3.
  rewrite list_insert_id in Hh3 by done.
  exists t. msimpl. split; [congruence|]. split; [done|].
  unfold attrs in *. msimpl. congruence.
Qed.

Lemma norm_index_nonneg_inv len i k :
  0 ≤ i → norm_index len i = Some k → k = Z.to_nat i.
Proof.
  intros Hi. unfold norm_index. destruct (Z.ltb_spec i 0); [lia|].
  destruct (_ && _); [|discriminate]. by intros [= <-].
Qed.

Lemma sent_zero s line (t : list Z) :
  0 ≤ _n s → 0 ≤ line →
  (∀ i, i ∈ range2 (line * _n s) ((line + 1) * _n s) →
        ∃ k, norm_index (Z.of_nat (length t)) i = Some k ∧ t !! k = Some 0) →
  ∀ i, line * _n s ≤ i < (line + 1) * _n s → t !! Z.to_nat i = Some 0.
Proof.
  intros Hn Hline H i Hi. destruct (H i) as (k & Hk & Hv).
  { apply elem_of_seqZ. lia. }
  apply norm_index_nonneg_inv in Hk as ->; [done | nia].
Qed.

Lemma sent_valid s (l : list Z) line i :
  0 ≤ _n s → 0 ≤ line → (line + 1) * _n s ≤ Z.of_nat (length l) →
  i ∈ range2 (line * _n s) ((line + 1) * _n s) →
  norm_index (Z.of_nat (length l)) i = Some (Z.to_nat i).
Proof.
  intros Hn Hline Hstop Hi. apply elem_of_seqZ in Hi.
  apply norm_index_nonneg. nia.
Qed.

Lemma zero_sent s (l : list Z) line :
  0 ≤ _n s → 0 ≤ line → (line + 1) * _n s ≤ Z.of_nat (length l) →
  (∀ i, line * _n s ≤ i < (line + 1) * _n s → l !! Z.to_nat i = Some 0) →
  ∀ i, i ∈ range2 (line * _n s) ((line + 1) * _n s) →
       ∃ k, norm_index (Z.of_nat (length l)) i = Some k ∧ l !! k = Some 0.
Proof.
  intros Hn Hline Hstop H i Hi. exists (Z.to_nat i).
  split; [by eapply sent_valid|].
  apply H. apply elem_of_seqZ in Hi. lia.
Qed.

(** C10: the manual transmission.  [_ds_writebytes] ends in [ValueError] on
    any array with a nonzero byte in the range it is given.  A manual [show]
    that completes has transmitted zero bytes only.  At full brightness it
    completes exactly when the bytes [line * n .. (line + 1) * n - 1] of the
    live frame buffer are zero and raises [ValueError] otherwise; it
    allocates no output buffer, the live frame buffer afterwards is the
    outcome of the in-place shifts, and it differs from what it was as soon
    as the first transmitted byte lies strictly between 0 and 128. *)
Theorem manual_show s l line :
  _spi s = false → frame s = Some l →
  0 ≤ _n s → 0 ≤ line → (line + 1) * _n s ≤ Z.of_nat (length l) →
  (∀ buf t a b s0,
     heap s0 !! buf = Some t → 0 ≤ a → b ≤ Z.of_nat (length t) → b ≠ -1 →
     (∃ i, a ≤ i < b ∧ t !! Z.to_nat i ≠ Some 0) →
     (_ds_writebytes buf a b s0).1 = Raise ValueError)
  ∧ (∀ s', show line s = (Ok tt, s') →
       ∃ t, heap s' !! (if num_ltb (_brightness s) num_1 then length (heap s) else _buf s)
            = Some t
            ∧ ∀ i, line * _n s ≤ i < (line + 1) * _n s →
                   t !! Z.to_nat i = Some 0)
  ∧ (num_ltb (_brightness s) num_1 = false →
       ((show line s).1 = Ok tt
        ↔ ∀ i, line * _n s ≤ i < (line + 1) * _n s → l !! Z.to_nat i = Some 0)
       ∧ ((∃ i, line * _n s ≤ i < (line + 1) * _n s ∧ l !! Z.to_nat i ≠ Some 0) →
          (show line s).1 = Raise ValueError)
       ∧ length (heap (show line s).2) = length (heap s)
       ∧ frame (show line s).2
         = Some (clock_bytes l (range2 (line * _n s) ((line + 1) * _n s))).2
       ∧ (∀ v, 0 < _n s → l !! Z.to_nat (line * _n s) = Some v → 0 < v < 128 →
               frame (show line s).2 ≠ Some l)).
Proof.
  intros Hspi Hl Hn Hline Hstop.
  assert (Hm1 : (line + 1) * _n s ≠ -1) by nia.
  split; [|split].
  - intros buf t a b s0 Ht Ha Hb Hb1 (i & Hi & Hnz).
    destruct (ds_writebytes_run buf a b s0 t Ht Hb1) as (s1 & E & _).
    rewrite E. cbn [fst]. apply clock_bytes_nonzero.
    + intros j Hj. apply elem_of_seqZ in Hj.
      rewrite norm_index_nonneg by lia. by eexists.
    + exists i, (Z.to_nat i). split; [apply elem_of_seqZ; lia|].
      split; [apply norm_index_nonneg; lia | done].
  - intros s' H. destruct (num_ltb (_brightness s) num_1) eqn:Hb.
    + destruct (show_copy_inv s l line s' Hspi Hb Hl Hm1 H) as (t & Ht & Hz & _).
      exists t. split; [rewrite Ht; by apply list_lookup_middle|].
      by eapply sent_zero.
    + destruct (show_live_run s l line Hspi Hb Hl Hm1) as (s1 & E & Hh & _).
      rewrite H in E. injection E as Hok <-.
      pose proof (clock_bytes_ok_inv _ _ (eq_sym Hok)) as Hz.
      exists l. split; [|by eapply sent_zero].
      rewrite Hh, (clock_bytes_zero _ _ Hz). cbn [snd].
      by rewrite list_insert_id.
  - intros Hb.
    destruct (show_live_run s l line Hspi Hb Hl Hm1) as (s1 & E & Hh & Ha).
    assert (Hbuf : _buf s1 = _buf s) by (unfold attrs in Ha; congruence).
    rewrite E. cbn [fst snd].
    split; [|split; [|split; [|split]]].
    + split.
      * intros Hok. eapply sent_zero; [done..|]. by apply clock_bytes_ok_inv.
      * intros Hz.
        by rewrite (clock_bytes_zero _ _ (zero_sent s l line Hn Hline Hstop Hz)).
    + intros (i & Hi & Hnz). apply clock_bytes_nonzero.
      * intros j Hj. rewrite (sent_valid s l line j) by done. by eexists.
      * exists i, (Z.to_nat i). split; [apply elem_of_seqZ; lia|].
        split; [|done]. eapply sent_valid; [done..|]. apply elem_of_seqZ. lia.
    + by rewrite Hh, length_insert.
    + unfold frame. rewrite Hbuf.
      rewrite Hh. apply list_lookup_insert_eq. by eapply lookup_lt_Some.
    + intros v Hpos Hv Hv128.
      unfold frame. rewrite Hbuf.
      rewrite Hh, list_lookup_insert_eq by by eapply lookup_lt_Some.
      unfold range2. rewrite seqZ_cons by lia. cbn [clock_bytes].
      rewrite norm_index_nonneg by nia. rewrite Hv.
      pose proof (clock_out_nonzero v ltac:(lia)) as Hc2.
      pose proof (clock_out_changes v Hv128) as Hc1.
      destruct (clock_out 8 v) as [x ok]. cbn [fst snd] in *. subst ok.
      intros [= Heq].
      assert (Hlt : (Z.to_nat (line * _n s) < length l)%nat) by by eapply lookup_lt_Some.
      pose proof (list_lookup_insert_eq l _ x Hlt) as Hins.
      rewrite Heq, Hv in Hins. by injection Hins as Hins.
Qed.

Lemma manual_show_witness :
  let s := strip false 5 num_1 BGR in
  let l := [0; 0; 0; 0; 255; 0; 0; 0; 255; 0; 0; 0; 255; 0; 0; 0; 255; 0; 0; 0;
            255; 0; 0; 255; 0] in
  let line := 0 in
    (∀ buf t a b s0,
       heap s0 !! buf = Some t → 0 ≤ a → b ≤ Z.of_nat (length t) → b ≠ -1 →
       (∃ i, a ≤ i < b ∧ t !! Z.to_nat i ≠ Some 0) →
       (_ds_writebytes buf a b s0).1 = Raise ValueError)
    ∧ (∀ s', show line s = (Ok tt, s') →
         ∃ t, heap s' !! (if num_ltb (_brightness s) num_1 then length (heap s) else _buf s)
              = Some t
              ∧ ∀ i, line * _n s ≤ i < (line + 1) * _n s →
                     t !! Z.to_nat i = Some 0)
    ∧ (num_ltb (_brightness s) num_1 = false →
         ((show line s).1 = Ok tt
          ↔ ∀ i, line * _n s ≤ i < (line + 1) * _n s → l !! Z.to_nat i = Some 0)
         ∧ ((∃ i, line * _n s ≤ i < (line + 1) * _n s ∧ l !! Z.to_nat i ≠ Some 0) →
            (show line s).1 = Raise ValueError)
         ∧ length (heap (show line s).2) = length (heap s)
         ∧ frame (show line s).2
           = Some (clock_bytes l (range2 (line * _n s) ((line + 1) * _n s))).2
         ∧ (∀ v, 0 < _n s → l !! Z.to_nat (line * _n s) = Some v → 0 < v < 128 →
                 frame (show line s).2 ≠ Some l)).
Proof.
  apply (manual_show (strip false 5 num_1 BGR)
           [0; 0; 0; 0; 255; 0; 0; 0; 255; 0; 0; 0; 255; 0; 0; 0; 255; 0; 0; 0;
            255; 0; 0; 255; 0] 0).
  - vm_compute. reflexivity.
  - vm_compute. reflexivity.
  - vm_compute. discriminate.
  - lia.
  - vm_compute. discriminate.
Defined.

(** With the clock and data pins driven by hand, a strip of five pixels
    cannot be shown (byte 4 is a pixel header); a strip of four can, as only
    the start frame is transmitted. *)
Example manual_show_raises :
  (show 0 (strip false 5 num_1 BGR)).1 = Raise ValueError
  ∧ (show 0 (strip false 4 num_1 BGR)).1 = Ok tt.
Proof. vm_compute. done. Qed.

(** Showing line 1 of a two-line strip whose pixel 0 is (0, 0, 1) shifts
    byte 5 of the live frame buffer from 1 to 128 before failing. *)
Example manual_show_mutates :
  let s := (_set_item 0 (PSeq [PInt 0; PInt 0; PInt 1])
              (__init__ false 5 2 num_1 false BGR blank).2).2 in
  (frame s ≫= (.!! 5%nat)) = Some 1
  ∧ (show 1 s).1 = Raise ValueError
  ∧ (frame (show 1 s).2 ≫= (.!! 5%nat)) = Some 128.
Proof. vm_compute. done. Qed.

(** C3: the rendered copy is wrong on the last colour bytes.  On a strip of
    one pixel set to (200, 100, 50) at global brightness 0.5, the output
    buffer holds 25 and 50 for blue and green but 0xFF where red should be
    [int(200 * 0.5) = 100]: the scaling loop stops at [end_header_index],
    which is [end_header_size] bytes short of the end of the pixel data,
    and the bytes from there on are forced to 0xFF. *)
Theorem show_overwrites_last_colour_bytes :
  let s := (__setitem__ (Index 0) (PSeq [PInt 200; PInt 100; PInt 50])
              (strip true 1 half BGR)).2 in
  frame s = Some [0; 0; 0; 0; 255; 50; 100; 200; 0]
  ∧ (show 0 s).1 = Ok tt
  ∧ heap (show 0 s).2 = [[0; 0; 0; 0; 255; 50; 100; 200; 0];
                         [0; 0; 0; 0; 255; 25; 50; 255; 255]]
  ∧ scale 200 half = Ok 100.
Proof. vm_compute. done. Qed.

(** On two pixels the first one is rendered as the specification has it,
    (25, 50, 100) in storage order; the last byte of the second is not. *)
Example show_scales_first_pixel :
  let s := (__setitem__ (Index 0) (PSeq [PInt 200; PInt 100; PInt 50])
              (strip true 2 half BGR)).2 in
  heap (show 0 s).2 = [[0; 0; 0; 0; 255; 50; 100; 200; 255; 0; 0; 255; 0];
                       [0; 0; 0; 0; 255; 25; 50; 100; 255; 0; 0; 255; 255]].
Proof. vm_compute. reflexivity. Qed.

(** At global brightness 0.7 the colour bytes 30, 20 and 10 are rendered as
    21, 14 and 7: each product is rounded to binary64 before [int]
    truncates it, and [30 * 0.7] rounds to 21.0 although the float nearest
    to 0.7 lies below 0.7 and the exact product below 21. *)
Example show_rounds_products :
  let s := (__setitem__ (Index 0) (PSeq [PInt 30; PInt 20; PInt 10])
              (strip true 2 seven_tenths BGR)).2 in
  heap (show 0 s).2 = [[0; 0; 0; 0; 255; 10; 20; 30; 255; 0; 0; 255; 0];
                       [0; 0; 0; 0; 255; 7; 14; 21; 255; 0; 0; 255; 255]]
  ∧ scale 30 seven_tenths = Ok 21
  ∧ Qfloor (inject_Z 30 * num_val seven_tenths) = 20.
Proof. vm_compute. done. Qed.

(** C9: the lines overwrite each other.  With one pixel and two lines the
    frames of line 1 are stored from offset [1 * n = 1] on: the header byte of
    pixel 0 at offset 4 is zeroed by the start frame of line 1 and the second
    half of the buffer is never marked.  With a single line the 0xFF of the
    end frame lands on the last colour byte (offset 7) and the trailing
    byte stays 0. *)
Theorem init_lines_overlap :
  (__init__ true 1 2 num_1 false BGR blank).1 = Ok tt
  ∧ frame (__init__ true 1 2 num_1 false BGR blank).2
    = Some [0; 0; 0; 0; 0; 255; 0; 255; 255; 0; 0; 0; 0; 0; 0; 0; 0; 0]
  ∧ frame (__init__ true 1 1 num_1 false BGR blank).2
    = Some [0; 0; 0; 0; 255; 0; 0; 255; 0].
Proof. vm_compute. done. Qed.

(** C7: the length check rejects matching assignments.  On a strip of five
    pixels the slice [4:0:-1] denotes the four indices 4, 3, 2, 1, yet
    assigning four colours to it raises [ValueError]; so does assigning no
    colour to the empty slice [3:1].  Nothing is written in either case. *)
Theorem reverse_slice_rejected :
  let s := strip true 5 num_1 BGR in
  let colours := PSeq [PInt 1; PInt 2; PInt 3; PInt 4] in
  slice_indices (Some 4) (Some 0) (Some (-1)) (_n s) s = (Ok (4, 0, -1), s)
  ∧ range3 4 0 (-1) = [4; 3; 2; 1]
  ∧ __setitem__ (Slice (Some 4) (Some 0) (Some (-1))) colours s
    = (Raise ValueError, s)
  ∧ range3 3 1 1 = []
  ∧ __setitem__ (Slice (Some 3) (Some 1) None) (PSeq []) s = (Raise ValueError, s).
Proof. vm_compute. done. Qed.

(** Two colours over [0:4:2] go to pixels 0 and 2. *)
Example slice_step_two :
  let s := strip true 5 num_1 BGR in
  __setitem__ (Slice (Some 0) (Some 4) (Some 2)) (PSeq [PInt 1; PInt 2]) s
  = (Ok tt, upd s [0; 0; 0; 0; 255; 1; 0; 0; 255; 0; 0; 0; 255; 2; 0; 0;
                   255; 0; 0; 0; 255; 0; 0; 255; 0]).
Proof. vm_compute. reflexivity. Qed.

(** For a forward slice that is not reversed the length computed by
    [__setitem__] is the number of indices of the slice. *)
Lemma forward_slice_length start stop step :
  0 < step → start ≤ stop →
  (stop - start + step - 1) / step = Z.of_nat (length (range3 start stop step)).
Proof.
  intros Hstep Hle. unfold range3. rewrite length_fmap, length_seqZ.
  unfold range_len. destruct (Z.ltb_spec 0 step); [|lia].
  destruct (Z.ltb_spec start stop).
  - rewrite Z2Nat.id.
    + replace (stop - start + step - 1) with (stop - start - 1 + 1 * step) by lia.
      by rewrite Z.div_add by lia.
    + pose proof (Z.div_pos (stop - start - 1) step). lia.
  - replace (stop - start + step - 1) with (step - 1) by lia.
    rewrite Z.div_small by lia. done.
Qed.

(** A length mismatch is detected before any store. *)
Lemma slice_mismatch_writes_nothing s start stop step val a b c len :
  slice_indices start stop step (_n s) s = (Ok (a, b, c), s) →
  py_len val s = (Ok len, s) →
  len ≠ (if negb (c =? 0) then (b - a + c - 1) / c else b - a) →
  __setitem__ (Slice start stop step) val s = (Raise ValueError, s).
Proof.
  intros Hix Hlen Hne. unfold __setitem__, bind, gets.
  rewrite Hix, Hlen.
  destruct (Z.eqb_spec len (if negb (c =? 0) then (b - a + c - 1) / c else b - a));
    [done|reflexivity].
Qed.

(** *** Runs of stores *)

Lemma write_all_length ws t : length (write_all ws t) = length t.
Proof.
  revert t. induction ws as [|[p v] ws IH]; intros t; [done|].
  cbn. unfold write_all in IH. by rewrite IH, length_insert.
Qed.

Lemma write_all_app ws1 ws2 t :
  write_all (ws1 ++ ws2) t = write_all ws2 (write_all ws1 t).
Proof. unfold write_all. apply foldl_app. Qed.

Lemma write_all_cons p v ws t :
  write_all ((p, v) :: ws) t = write_all ws (<[p := v]> t).
Proof. reflexivity. Qed.

(** A position that no store addresses keeps its byte. *)
Lemma write_all_lookup_notin ws t k :
  k ∉ ws.*1 → write_all ws t !! k = t !! k.
Proof.
  revert t. induction ws as [|[p v] ws IH]; intros t Hk; [done|].
  rewrite write_all_cons. cbn in Hk. apply not_elem_of_cons in Hk as [Hne Hk].
  rewrite IH by done. by apply list_lookup_insert_ne.
Qed.

(** A position that stores address holds the byte they agree on. *)
Lemma write_all_lookup_in ws t p v :
  (∀ q v1 v2, (q, v1) ∈ ws → (q, v2) ∈ ws → v1 = v2) →
  (p, v) ∈ ws → (p < length t)%nat →
  write_all ws t !! p = Some v.
Proof.
  revert t. induction ws as [|[q w] ws IH]; intros t Hfun Hin Hp.
  { by apply elem_of_nil in Hin. }
  rewrite write_all_cons.
  destruct (decide (p ∈ ws.*1)) as [Hmem|Hmem].
  - apply list_elem_of_fmap in Hmem as ([p' v'] & Hp' & Hin'). cbn in Hp'. subst p'.
    assert (v' = v) as ->.
    { eapply Hfun; [apply list_elem_of_further, Hin'|done]. }
    apply IH; [|done|by rewrite length_insert].
    intros q' v1 v2 H1 H2. eapply Hfun; by apply list_elem_of_further.
  - rewrite write_all_lookup_notin by done.
    apply elem_of_cons in Hin as [[= -> ->]|Hin].
    + by apply list_lookup_insert_eq.
    + exfalso. apply Hmem. apply list_elem_of_fmap. by exists (p, v).
Qed.

(** *** What no method does *)

Lemma pres_ret {A} P (a : A) : pres P (ret a).
Proof. by intros s. Qed.

Lemma pres_raise {A} P e : pres P (@raise A e).
Proof. by intros s. Qed.

Lemma pres_gets {A} P (f : state → A) : pres P (gets f).
Proof. by intros s. Qed.

Lemma pres_bind {A B} P (m : M A) (k : A → M B) :
  pres P m → (∀ a, pres P (k a)) → pres P (bind m k).
Proof.
  intros Hm Hk s Hs. unfold bind. specialize (Hm s Hs).
  destruct (m s) as [[a|e] s1]; [|done]. by apply Hk.
Qed.

Lemma pres_for {A} P (xs : list A) body :
  (∀ x, pres P (body x)) → pres P (for_ xs body).
Proof.
  intros Hb. induction xs as [|x xs IH]; [apply pres_ret|].
  cbn [for_]. apply pres_bind; [apply Hb | by intros _].
Qed.

Lemma pres_if {A} P (c : bool) (m1 m2 : M A) :
  pres P m1 → pres P m2 → pres P (if c then m1 else m2).
Proof. by destruct c. Qed.

Lemma pres_modify P f : (∀ s, P s → P (f s)) → pres P (modify f).
Proof. intros H s Hs. by apply H. Qed.

(** Operations that leave the state alone keep everything. *)
Lemma pres_pure {A} P (m : M A) : (∀ s, (m s).2 = s) → pres P m.
Proof. intros H s Hs. by rewrite H. Qed.

Lemma pure_ba_getitem b i s : (ba_getitem b i s).2 = s.
Proof. unfold ba_getitem. by repeat case_match. Qed.

Lemma pure_ba_len b s : (ba_len b s).2 = s.
Proof. unfold ba_len. by case_match. Qed.

Lemma pure_py_len x s : (py_len x s).2 = s.
Proof. by destruct x. Qed.

Lemma pure_py_getitem x i s : (py_getitem x i s).2 = s.
Proof.
  destruct x; [done..|]. cbn. unfold tuple_getitem. by repeat case_match.
Qed.

Lemma pure_lift {A} (r : res A) s : (lift r s).2 = s.
Proof. reflexivity. Qed.

Lemma pure_py_num x s : (py_num x s).2 = s.
Proof. by destruct x. Qed.

Lemma pure_ceil_div a b s : (ceil_div a b s).2 = s.
Proof. unfold ceil_div. by case_match. Qed.

Lemma pure_slice_indices a b c n s : (slice_indices a b c n s).2 = s.
Proof. unfold slice_indices. by repeat case_match. Qed.

Ltac pres_step :=
  match goal with
  | |- pres _ (bind _ _) => apply pres_bind; [|intros ?]
  | |- pres _ (for_ _ _) => apply pres_for; intros ?
  | |- pres _ (if _ then _ else _) => apply pres_if
  | |- pres _ (ret _) => apply pres_ret
  | |- pres _ (raise _) => apply pres_raise
  | |- pres _ (gets _) => apply pres_gets
  | |- pres _ (ba_getitem _ _) => apply pres_pure, pure_ba_getitem
  | |- pres _ (ba_len _) => apply pres_pure, pure_ba_len
  | |- pres _ (py_len _) => apply pres_pure, pure_py_len
  | |- pres _ (py_getitem _ _) => apply pres_pure, pure_py_getitem
  | |- pres _ (py_num _) => apply pres_pure, pure_py_num
  | |- pres _ (lift _) => apply pres_pure, pure_lift
  | |- pres _ (ceil_div _ _) => apply pres_pure, pure_ceil_div
  | |- pres _ (slice_indices _ _ _ _) => apply pres_pure, pure_slice_indices
  | |- pres _ (match ?x with _ => _ end) => destruct x
  | |- pres _ (let '(_, _) := ?x in _) => destruct x
  end.

(** **** Properties of the store *)

Lemma presh_ba_setitem P b i v :
  store_closed P → pres (λ s, P (heap s)) (ba_setitem b i v).
Proof.
  intros (Pset & _ & _) s Hs. unfold ba_setitem.
  destruct (heap s !! b) as [l|] eqn:Hl; [|done].
  destruct v as [z| |]; [|done..].
  destruct ((0 <=? z) && (z <? 256)) eqn:Hz; [|done].
  destruct (norm_index _ i) as [k|] eqn:Hk; [|done].
  cbn. apply Pset; [done..| |done]. apply norm_index_lt in Hk. lia.
Qed.

Lemma presh_bytearray P size :
  store_closed P → pres (λ s, P (heap s)) (bytearray size).
Proof.
  intros (_ & Pnew & _) s Hs. unfold bytearray. case_match; [done|].
  cbn. by apply Pnew.
Qed.

Lemma presh_bytearray_copy P b :
  store_closed P → pres (λ s, P (heap s)) (bytearray_copy b).
Proof.
  intros (_ & _ & Pcopy) s Hs. unfold bytearray_copy.
  destruct (heap s !! b) eqn:Hl; [|done]. cbn. by eapply Pcopy.
Qed.

Lemma presh_emit P e : pres (λ s, P (heap s)) (emit e).
Proof. by intros s Hs. Qed.

Ltac presh :=
  repeat first
    [ pres_step
    | (apply presh_ba_setitem; assumption)
    | (apply presh_bytearray; assumption)
    | (apply presh_bytearray_copy; assumption)
    | apply presh_emit
    | (apply pres_modify; intros ? ?; assumption) ].

Lemma presh_ds_writebytes P buf a b :
  store_closed P → pres (λ s, P (heap s)) (_ds_writebytes buf a b).
Proof. intros HP. unfold _ds_writebytes. presh. Qed.

Lemma presh_show P line : store_closed P → pres (λ s, P (heap s)) (show line).
Proof.
  intros HP. unfold show. presh. by apply presh_ds_writebytes.
Qed.

Lemma presh_set_brightness P b :
  store_closed P → pres (λ s, P (heap s)) (set_brightness b).
Proof.
  intros HP. unfold set_brightness, set__brightness. presh.
  by apply presh_show.
Qed.

Lemma presh_set_item P index value :
  store_closed P → pres (λ s, P (heap s)) (_set_item index value).
Proof. intros HP. unfold _set_item. presh. Qed.

Lemma presh_setitem P index val :
  store_closed P → pres (λ s, P (heap s)) (__setitem__ index val).
Proof.
  intros HP. unfold __setitem__. presh; try by apply presh_set_item.
  all: by apply presh_show.
Qed.

(** Reads leave the state alone, whatever the subscript and the outcome. *)
Lemma getitem_pure index s : (__getitem__ index s).2 = s.
Proof.
  enough (pres (λ t, t = s) (__getitem__ index)) as H by by apply H.
  unfold __getitem__, len_self, __len__. destruct index as [i|a b c].
  - repeat pres_step.
  - repeat pres_step.
    match goal with |- pres _ (?f ?xs) => generalize xs end.
    intros xs. induction xs as [|x xs IH]; repeat pres_step. exact IH.
Qed.

(** **** Properties that do not look at the store *)

Lemma presb_ba_setitem P b i v : store_blind P → pres P (ba_setitem b i v).
Proof.
  intros HP s Hs. unfold ba_setitem. repeat case_match; try done.
  cbn. by apply HP.
Qed.

Lemma presb_bytearray P size : store_blind P → pres P (bytearray size).
Proof.
  intros HP s Hs. unfold bytearray. case_match; [done|]. cbn. by apply HP.
Qed.

Lemma presb_bytearray_copy P b : store_blind P → pres P (bytearray_copy b).
Proof.
  intros HP s Hs. unfold bytearray_copy. case_match; [|done]. cbn. by apply HP.
Qed.

Lemma presb_emit P e : trace_blind P → pres P (emit e).
Proof. intros HP s Hs. by apply HP. Qed.

Ltac presb :=
  repeat first
    [ pres_step
    | (apply presb_ba_setitem; assumption)
    | (apply presb_bytearray; assumption)
    | (apply presb_bytearray_copy; assumption)
    | (apply presb_emit; assumption) ].

Lemma presb_ds_writebytes P buf a b :
  store_blind P → trace_blind P → pres P (_ds_writebytes buf a b).
Proof. intros H1 H2. unfold _ds_writebytes. presb. Qed.

Lemma presb_show P line : store_blind P → trace_blind P → pres P (show line).
Proof.
  intros H1 H2. unfold show. presb. by apply presb_ds_writebytes.
Qed.

Lemma presb_set_item P index value :
  store_blind P → pres P (_set_item index value).
Proof. intros HP. unfold _set_item. presb. Qed.

Lemma presb_setitem P index val :
  store_blind P → trace_blind P → pres P (__setitem__ index val).
Proof.
  intros H1 H2. unfold __setitem__. presb; try by apply presb_set_item.
  all: by apply presb_show.
Qed.

Lemma attrs_blind a : store_blind (λ s, attrs s = a) ∧ trace_blind (λ s, attrs s = a).
Proof. by split; intros s ? Hs. Qed.

(** X1: [show] changes no attribute of the strip, on either path and however it
    ends; neither does a pixel write or a slice assignment. *)
Theorem show_keeps_attrs s :
  (∀ line, attrs (show line s).2 = attrs s)
  ∧ (∀ index val, attrs (__setitem__ index val s).2 = attrs s)
  ∧ (∀ index, (__getitem__ index s).2 = s).
Proof.
  destruct (attrs_blind (attrs s)) as [H1 H2].
  split; [|split].
  - intros line. by apply (presb_show _ line H1 H2).
  - intros index val. by apply (presb_setitem _ index val H1 H2).
  - intros index. apply getitem_pure.
Qed.

(** X2: the brightness setter stores [min(max(b, 0.0), 1.0)], whatever
    happens to the [show] it may trigger.  For every number that is not NaN
    the stored value lies in [0, 1]: it is [b] itself when [b] does, 0.0
    below and 1.0 above.  NaN is not clamped: it is stored as it is and,
    not being below 1.0, makes [show] send the frame buffer unscaled. *)
Theorem brightness_clamped s b :
  _brightness (set_brightness b s).2 = py_min (py_max b num_0) num_1
  ∧ (is_nan b = false →
     num_leb num_0 (py_min (py_max b num_0) num_1) = true
     ∧ num_leb (py_min (py_max b num_0) num_1) num_1 = true)
  ∧ (num_leb num_0 b = true → num_leb b num_1 = true →
     py_min (py_max b num_0) num_1 = b)
  ∧ (num_ltb b num_0 = true → py_min (py_max b num_0) num_1 = num_0)
  ∧ (num_ltb num_1 b = true → py_min (py_max b num_0) num_1 = num_1)
  ∧ (is_nan b = true →
     _brightness (set_brightness b s).2 = b
     ∧ num_ltb b num_1 = false
     ∧ ∀ l, sent (set_brightness b s).2 l = l).
Proof.
  assert (Hc : _brightness (set_brightness b s).2 = py_min (py_max b num_0) num_1).
  { unfold set_brightness. rewrite bind_eq. cbn [set__brightness modify].
    match goal with |- context [bind _ _ ?s1] => set (t := s1) end.
    destruct (attrs_blind (attrs t)) as [H1 H2].
    assert (attrs (bind (gets auto_write) (λ aw, if aw then show 0 else ret tt) t).2
            = attrs t) as Ha.
    { apply (pres_bind (λ u, attrs u = attrs t)); [apply pres_gets| |done].
      intros aw. apply pres_if; [by apply presb_show | apply pres_ret]. }
    unfold attrs in Ha. by injection Ha. }
  split; [done|].
  split; [apply clamp_unit|].
  split; [apply clamp_id|].
  split; [apply clamp_low|].
  split; [apply clamp_high|].
  intros Hn. unfold sent. rewrite Hc, (clamp_nan b Hn).
  destruct b as [z|[]]; try discriminate. done.
Qed.

Lemma brightness_clamped_witness :
  py_min (py_max seven_tenths num_0) num_1 = seven_tenths
  ∧ py_min (py_max (NFloat (dyadic (-3) 0)) num_0) num_1 = num_0
  ∧ _brightness (set_brightness (NFloat S754_nan) blank).2 = NFloat S754_nan.
Proof.
  split; [|split].
  - destruct (brightness_clamped blank seven_tenths) as (_ & _ & H & _).
    apply H; vm_compute; reflexivity.
  - destruct (brightness_clamped blank (NFloat (dyadic (-3) 0)))
      as (_ & _ & _ & H & _).
    apply H. vm_compute. reflexivity.
  - destruct (brightness_clamped blank (NFloat S754_nan))
      as (_ & _ & _ & _ & _ & H).
    apply H. reflexivity.
Defined.

Lemma trace_blind_eq tr : store_blind (λ s, trace s = tr).
Proof. by intros s h Hs. Qed.

Lemma init_tail_trace b aw s :
  trace ((set__brightness num_1 ;; set_auto_write false ;;
          set_brightness b ;; set_auto_write aw) s).2 = trace s.
Proof. reflexivity. Qed.

(** X3: Construction transmits nothing, whatever its arguments and however it
    ends: the trace holds at most the clock pin being driven low. *)
Theorem init_never_transmits spi n L b aw po :
  trace (__init__ spi n L b aw po blank).2 = if spi then [] else [Cpin false].
Proof.
  unfold __init__.
  set (rest := bind (set_n n) _).
  assert (Hrest : ∀ tr, pres (λ s, trace s = tr) rest).
  { intros tr. pose proof (trace_blind_eq tr) as HP. unfold rest.
    repeat first
      [ (intros s Hs; rewrite <- Hs; apply init_tail_trace)
      | (apply pres_bind; [|intros ?])
      | (apply pres_for; intros ?)
      | apply pres_if | apply pres_ret | apply pres_gets
      | (apply presb_ba_setitem; assumption)
      | (apply presb_bytearray; assumption)
      | (apply pres_modify; intros ? ?; assumption) ]. }
  destruct spi; msimpl; by apply Hrest.
Qed.

(** *** Loops of stores *)

Lemma updb_id b t s : heap s !! b = Some t → updb b t s = s.
Proof. intros H. unfold updb. rewrite list_insert_id by done. by destruct s. Qed.

Lemma updb_updb b t1 t2 s : updb b t2 (updb b t1 s) = updb b t2 s.
Proof. unfold updb. cbn. by rewrite list_insert_insert_eq. Qed.

Lemma heap_updb b t s :
  (b < length (heap s))%nat → heap (updb b t s) !! b = Some t.
Proof. intros H. cbn. by apply list_lookup_insert_eq. Qed.

Lemma heap_updb_ne b b' t s : b ≠ b' → heap (updb b t s) !! b' = heap s !! b'.
Proof. intros H. cbn. by apply list_lookup_insert_ne. Qed.

Lemma ba_setitem_updb b t i k z s :
  (b < length (heap s))%nat → is_byte z = true →
  norm_index (Z.of_nat (length t)) i = Some k →
  ba_setitem b i (PInt z) (updb b t s) = (Ok tt, updb b (<[k := z]> t) s).
Proof.
  intros Hb Hz Hk.
  rewrite (ba_setitem_heap _ _ _ _ _ _ (heap_updb b t s Hb) Hk), Hz.
  f_equal. apply (updb_updb b t (<[k:=z]> t) s).
Qed.

(** A loop each of whose rounds does the stores [ws x] into the array at
    [b] does, in all, the stores of all rounds in order. *)
Lemma for_writes {A} b (xs : list A) (ws : A → list (nat * Z)) body s t :
  (∀ x t1, x ∈ xs → length t1 = length t →
           body x (updb b t1 s) = (Ok tt, updb b (write_all (ws x) t1) s)) →
  for_ xs body (updb b t s) = (Ok tt, updb b (write_all (xs ≫= ws) t) s).
Proof.
  revert t. induction xs as [|x xs IH]; intros t Hstep; [done|].
  cbn [for_]. rewrite (bind_ok _ _ _ _ _ (Hstep x t (list_elem_of_here _ _) eq_refl)).
  rewrite IH.
  - by rewrite bind_cons, write_all_app.
  - intros y t1 Hy Ht1. apply Hstep; [by apply list_elem_of_further|].
    by rewrite Ht1, write_all_length.
Qed.

Lemma bind_unit_fmap {A B} (f : A → B) (xs : list A) :
  xs ≫= (λ x, [f x]) = f <$> xs.
Proof. induction xs as [|x xs IH]; [done|]. cbn. by rewrite IH. Qed.

(** After the stores of [G] at the positions [xs], a position of [xs] holds
    its [G] and any other position what it held. *)
Lemma stores_lookup G xs t k :
  (∀ i, i ∈ xs → 0 ≤ i) → (k < length t)%nat →
  write_all (stores G xs) t !! k
  = if decide (Z.of_nat k ∈ xs) then Some (G (Z.of_nat k)) else t !! k.
Proof.
  intros Hpos Hk. destruct (decide (Z.of_nat k ∈ xs)) as [Hin|Hin].
  - apply write_all_lookup_in; [| |done].
    + intros q v1 v2 H1 H2. unfold stores in *.
      apply list_elem_of_fmap in H1 as (i1 & [= -> ->] & Hi1).
      apply list_elem_of_fmap in H2 as (i2 & [= E ->] & Hi2).
      apply Hpos in Hi1, Hi2. f_equal. lia.
    + unfold stores. apply list_elem_of_fmap. exists (Z.of_nat k).
      split; [|done]. by rewrite Nat2Z.id.
  - apply write_all_lookup_notin. intros H. apply Hin.
    unfold stores in H. rewrite <- list_fmap_compose in H.
    apply list_elem_of_fmap in H as (i & -> & Hi). cbn.
    rewrite Z2Nat.id; [done|]. by apply Hpos.
Qed.

Lemma stores_app G xs ys : stores G (xs ++ ys) = stores G xs ++ stores G ys.
Proof. apply fmap_app. Qed.

(** A loop that stores the byte [G i] at each index [i] of [xs]. *)
Lemma for_stores b G (xs : list Z) body s t :
  (∀ i t1, i ∈ xs → length t1 = length t →
           body i (updb b t1 s)
           = (Ok tt, updb b (<[Z.to_nat i := G i]> t1) s)) →
  for_ xs body (updb b t s) = (Ok tt, updb b (write_all (stores G xs) t) s).
Proof.
  intros Hstep. unfold stores. rewrite <- bind_unit_fmap.
  by apply for_writes.
Qed.

(** A byte scaled by a brightness in [0, 1): the product and its
    truncation are defined, and the result is a byte no greater. *)
Lemma scale_byte v b :
  is_byte v = true → num_valid b →
  num_ltb b num_0 = false → num_ltb b num_1 = true →
  scale v b = Ok (scaled v b) ∧ 0 ≤ scaled v b ≤ v.
Proof.
  unfold is_byte. intros Hv Hb H0 H1.
  apply andb_true_iff in Hv as [Hv0 Hv1].
  apply Z.leb_le in Hv0. apply Z.ltb_lt in Hv1.
  destruct (num_scale_byte v b ltac:(lia) Hb H0 H1) as (t & Ht & Hr).
  unfold scaled. by rewrite Ht.
Qed.

Lemma scaled_byte v b :
  is_byte v = true → num_valid b →
  num_ltb b num_0 = false → num_ltb b num_1 = true →
  is_byte (scaled v b) = true.
Proof.
  intros Hv Hb H0 H1. destruct (scale_byte v b Hv Hb H0 H1) as [_ Hr].
  unfold is_byte in *.
  apply andb_true_iff in Hv as [Hv0 Hv1].
  apply Z.leb_le in Hv0. apply Z.ltb_lt in Hv1.
  apply andb_true_iff. split; [apply Z.leb_le | apply Z.ltb_lt]; lia.
Qed.

Lemma scale_run {A} v b t (k : Z → M A) s :
  scale v b = Ok t →
  (p <- lift (num_mul (NInt v) b) ;; t <- lift (num_int p) ;; k t) s = k t s.
Proof.
  unfold scale, res_bind, bind, lift.
  destruct (num_mul (NInt v) b); [|discriminate]. by intros ->.
Qed.

Lemma bytes_lookup l k v : bytes l → l !! k = Some v → is_byte v = true.
Proof. intros Hl Hv. by apply (Forall_lookup_1 _ _ _ _ Hl Hv). Qed.

Lemma seqZ_split3 a b c :
  0 ≤ a ≤ b → b ≤ c →
  seqZ 0 c = seqZ 0 a ++ seqZ a (b - a) ++ seqZ b (c - b).
Proof.
  intros Hab Hbc.
  replace c with (a + ((b - a) + (c - b))) at 1 by lia.
  rewrite seqZ_app by lia. rewrite seqZ_app by lia.
  repeat f_equal; lia.
Qed.

Section render.
Variables (s : state) (l : list Z).
Hypothesis Hl : frame s = Some l.
Hypothesis Hbytes : bytes l.
Hypothesis Hehi : 4 ≤ end_header_index s ≤ Z.of_nat (length l).
Hypothesis Hbv : num_valid (_brightness s).
Hypothesis Hb0 : num_ltb (_brightness s) num_0 = false.
Hypothesis Hb1 : num_ltb (_brightness s) num_1 = true.

Let b0 := length (heap s).
Let s1 := with_heap (heap s ++ [l]) s.
Let G (i : Z) : Z :=
  if end_header_index s <=? i then 255
  else if i <? START_HEADER_SIZE then 0
  else if i mod 4 =? 0 then l !!! Z.to_nat i
  else scaled (l !!! Z.to_nat i) (_brightness s).

Lemma render_copy : bytearray_copy (_buf s) s = (Ok b0, updb b0 l s1).
Proof.
  unfold bytearray_copy. unfold frame in Hl. rewrite Hl.
  f_equal. symmetry. apply updb_id. cbn. by apply list_lookup_middle.
Qed.

Lemma render_b0 : (b0 < length (heap s1))%nat.
Proof. subst b0 s1. cbn. rewrite length_app. cbn. lia. Qed.

Lemma render_start t :
  length t = length l →
  for_ (range1 START_HEADER_SIZE) (λ i, ba_setitem b0 i (PInt 0)) (updb b0 t s1)
  = (Ok tt, updb b0 (write_all (stores G (range1 START_HEADER_SIZE)) t) s1).
Proof.
  intros Ht. apply for_stores. intros i t1 Hi Ht1.
  apply elem_of_seqZ in Hi. unfold START_HEADER_SIZE in Hi.
  replace (G i) with 0.
  2: { subst G. cbv beta. destruct (Z.leb_spec (end_header_index s) i); [lia|].
       unfold START_HEADER_SIZE. destruct (Z.ltb_spec i 4); [done|lia]. }
  apply ba_setitem_updb; [apply render_b0 | done |].
  apply norm_index_nonneg. lia.
Qed.

Lemma render_live t i :
  0 ≤ i < Z.of_nat (length l) →
  ba_getitem (_buf s) i (updb b0 t s1) = (Ok (l !!! Z.to_nat i), updb b0 t s1).
Proof.
  intros Hi. assert (Hlt : (_buf s < b0)%nat) by by eapply lookup_lt_Some.
  destruct (lookup_lt_is_Some_2 l (Z.to_nat i)) as [v Hv]; [lia|].
  rewrite (list_lookup_total_correct _ _ _ Hv).
  eapply ba_getitem_heap; [|by apply norm_index_nonneg|done].
  rewrite heap_updb_ne by lia. subst s1. cbn.
  by rewrite lookup_app_l.
Qed.

Lemma render_pixels t :
  length t = length l →
  for_ (range2 START_HEADER_SIZE (end_header_index s)) (λ i,
    v <- ba_getitem (_buf s) i ;;
    if i mod 4 =? 0 then ba_setitem b0 i (PInt v)
    else
      b <- gets _brightness ;;
      p <- lift (num_mul (NInt v) b) ;;
      t <- lift (num_int p) ;;
      ba_setitem b0 i (PInt t)) (updb b0 t s1)
  = (Ok tt,
     updb b0 (write_all (stores G (range2 START_HEADER_SIZE (end_header_index s))) t) s1).
Proof.
  intros Ht. apply for_stores. intros i t1 Hi Ht1.
  apply elem_of_seqZ in Hi. unfold START_HEADER_SIZE in Hi.
  rewrite (bind_ok _ _ _ _ _ (render_live t1 i ltac:(lia))).
  destruct (lookup_lt_is_Some_2 l (Z.to_nat i)) as [v Hv]; [lia|].
  pose proof (bytes_lookup _ _ _ Hbytes Hv) as Hvb.
  assert (HG : G i = if i mod 4 =? 0 then l !!! Z.to_nat i
                     else scaled (l !!! Z.to_nat i) (_brightness s)).
  { subst G. cbv beta. destruct (Z.leb_spec (end_header_index s) i); [lia|].
    unfold START_HEADER_SIZE. destruct (Z.ltb_spec i 4); [lia|done]. }
  rewrite HG. rewrite (list_lookup_total_correct _ _ _ Hv).
  destruct (i mod 4 =? 0).
  - apply ba_setitem_updb; [apply render_b0 | done |].
    apply norm_index_nonneg. lia.
  - rewrite bind_eq. cbn [gets].
    change (_brightness (updb b0 t1 s1)) with (_brightness s).
    destruct (scale_byte v (_brightness s) Hvb Hbv Hb0 Hb1) as [Hs _].
    rewrite (scale_run _ _ _ _ _ Hs).
    apply ba_setitem_updb; [apply render_b0 | by apply scaled_byte |].
    apply norm_index_nonneg. lia.
Qed.

Lemma render_end t :
  length t = length l →
  for_ (range2 (end_header_index s) (Z.of_nat (length l)))
    (λ i, ba_setitem b0 i (PInt 255)) (updb b0 t s1)
  = (Ok tt,
     updb b0 (write_all (stores G (range2 (end_header_index s)
                                     (Z.of_nat (length l)))) t) s1).
Proof.
  intros Ht. apply for_stores. intros i t1 Hi Ht1.
  apply elem_of_seqZ in Hi.
  replace (G i) with 255.
  2: { subst G. cbv beta. destruct (Z.leb_spec (end_header_index s) i); [done|lia]. }
  apply ba_setitem_updb; [apply render_b0 | done |].
  apply norm_index_nonneg. lia.
Qed.

Lemma render_all :
  write_all (stores G (seqZ 0 (Z.of_nat (length l)))) l
  = rendered (end_header_index s) (_brightness s) l.
Proof.
  apply list_eq. intros k. unfold rendered. rewrite list_lookup_imap.
  destruct (decide (k < length l)%nat) as [Hk|Hk].
  - rewrite stores_lookup; [|intros i Hi; apply elem_of_seqZ in Hi; lia|done].
    rewrite decide_True by (apply elem_of_seqZ; lia).
    destruct (lookup_lt_is_Some_2 l k Hk) as [v Hv]. rewrite Hv. cbn [fmap option_fmap option_map].
    subst G. cbv beta zeta. rewrite Nat2Z.id.
    by rewrite (list_lookup_total_correct _ _ _ Hv).
  - rewrite !lookup_ge_None_2; [done| lia |rewrite write_all_length; lia].
Qed.

Lemma render_run line :
  _spi s = true →
  show line s
  = (Ok tt,
     logged (SpiWrite (rendered (end_header_index s) (_brightness s) l)
               (line * _n s) ((line + 1) * _n s))
       (with_heap (heap s ++ [rendered (end_header_index s) (_brightness s) l]) s)).
Proof.
  intros Hspi. unfold show.
  rewrite bind_eq. cbn [gets]. rewrite bind_eq. cbn [gets]. rewrite Hb1.
  rewrite bind_eq, bind_eq, render_copy.
  rewrite bind_eq, (render_start l eq_refl).
  rewrite bind_eq. cbn [gets].
  change (end_header_index (updb b0 ?t s1)) with (end_header_index s).
  rewrite bind_eq, render_pixels by by rewrite write_all_length.
  rewrite bind_eq. cbn [gets].
  change (end_header_index (updb b0 ?t s1)) with (end_header_index s).
  rewrite bind_eq.
  match goal with |- context [ba_len b0 (updb b0 ?t s1)] =>
    assert (ba_len b0 (updb b0 t s1) = (Ok (Z.of_nat (length l)), updb b0 t s1)) as ->
  end.
  { unfold ba_len. rewrite heap_updb by apply render_b0.
    by rewrite !write_all_length. }
  rewrite bind_eq, render_end by by rewrite !write_all_length.
  cbn [ret]. rewrite <- !write_all_app, <- !stores_app.
  replace (range1 START_HEADER_SIZE ++ range2 START_HEADER_SIZE (end_header_index s)
           ++ range2 (end_header_index s) (Z.of_nat (length l)))
    with (seqZ 0 (Z.of_nat (length l))).
  2: { unfold range1, range2, START_HEADER_SIZE.
       rewrite (seqZ_split3 4 (end_header_index s)) by lia.
       repeat f_equal; lia. }
  rewrite render_all.
  rewrite bind_eq. cbn [gets].
  change (_spi (updb b0 ?t s1)) with (_spi s). rewrite Hspi.
  rewrite bind_eq. cbn [gets].
  rewrite bind_eq. cbn [gets].
  rewrite heap_updb by apply render_b0. cbn [default].
  change (_n (updb b0 ?t s1)) with (_n s).
  unfold emit, modify. f_equal. unfold logged, updb, s1, b0. cbn.
  rewrite insert_app_r_alt by lia. rewrite Nat.sub_diag. reflexivity.
Qed.
(** Below full brightness [show] goes on, with the rendering for its output
    buffer, to the transmission. *)
Lemma render_show line :
  show line s
  = (spi <- gets _spi ;;
     n <- gets _n ;;
     if spi then
       l <- gets (λ s, default [] (heap s !! b0)) ;;
       emit (SpiWrite l (line * n) ((line + 1) * n))
     else
       _ds_writebytes b0 (line * n) ((line + 1) * n) ;;
       emit (Cpin false))
      (updb b0 (rendered (end_header_index s) (_brightness s) l) s1).
Proof.
  unfold show.
  rewrite bind_eq. cbn [gets]. rewrite bind_eq. cbn [gets]. rewrite Hb1.
  rewrite bind_eq, bind_eq, render_copy.
  rewrite bind_eq, (render_start l eq_refl).
  rewrite bind_eq. cbn [gets].
  change (end_header_index (updb b0 ?t s1)) with (end_header_index s).
  rewrite bind_eq, render_pixels by by rewrite write_all_length.
  rewrite bind_eq. cbn [gets].
  change (end_header_index (updb b0 ?t s1)) with (end_header_index s).
  rewrite bind_eq.
  match goal with |- context [ba_len b0 (updb b0 ?t s1)] =>
    assert (ba_len b0 (updb b0 t s1) = (Ok (Z.of_nat (length l)), updb b0 t s1)) as ->
  end.
  { unfold ba_len. rewrite heap_updb by apply render_b0.
    by rewrite !write_all_length. }
  rewrite bind_eq, render_end by by rewrite !write_all_length.
  cbn [ret]. rewrite <- !write_all_app, <- !stores_app.
  replace (range1 START_HEADER_SIZE ++ range2 START_HEADER_SIZE (end_header_index s)
           ++ range2 (end_header_index s) (Z.of_nat (length l)))
    with (seqZ 0 (Z.of_nat (length l))).
  2: { unfold range1, range2, START_HEADER_SIZE.
       rewrite (seqZ_split3 4 (end_header_index s)) by lia.
       repeat f_equal; lia. }
  by rewrite render_all.
Qed.
End render.

Lemma rendered_length ehi b l : length (rendered ehi b l) = length l.
Proof. apply length_imap. Qed.

Lemma rendered_bytes ehi b l :
  bytes l → num_valid b → num_ltb b num_0 = false → num_ltb b num_1 = true →
  bytes (rendered ehi b l).
Proof.
  intros Hl Hv H0 H1. apply Forall_lookup_2. intros k v.
  unfold rendered. rewrite list_lookup_imap.
  destruct (l !! k) as [w|] eqn:Hw; [|done]. cbn. intros [= <-].
  pose proof (bytes_lookup _ _ _ Hl Hw).
  repeat case_match; try done. by apply scaled_byte.
Qed.

(** [show] on the hardware path completes in the state [shown]. *)
Lemma show_spi_run s l line :
  _spi s = true → well_formed s l → show line s = (Ok tt, shown line s l).
Proof.
  intros Hspi (Hl & Hbytes & Hn & Hroom & Hehi & Hpo & Hbv & Hb0).
  unfold shown, sent. destruct (num_ltb (_brightness s) num_1) eqn:Hb.
  - by apply render_run.
  - unfold show. rewrite bind_eq. cbn [gets]. rewrite bind_eq. cbn [gets].
    rewrite Hb. rewrite bind_eq. cbn [ret]. rewrite bind_eq. cbn [gets].
    rewrite Hspi. rewrite bind_eq. cbn [gets]. rewrite bind_eq. cbn [gets].
    unfold frame in Hl. by rewrite Hl.
Qed.

Lemma shown_frame s l line : frame s = Some l → frame (shown line s l) = Some l.
Proof.
  intros Hl. unfold shown. destruct (num_ltb (_brightness s) num_1); [|done].
  unfold frame in *. cbn. rewrite lookup_app_l; [done|]. by eapply lookup_lt_Some.
Qed.

Lemma shown_attrs s l line : attrs (shown line s l) = attrs s.
Proof. unfold shown. by destruct (num_ltb (_brightness s) num_1). Qed.

Lemma shown_trace s l line :
  trace (shown line s l)
  = trace s ++ [SpiWrite (sent s l) (line * _n s) ((line + 1) * _n s)].
Proof. unfold shown. by destruct (num_ltb (_brightness s) num_1). Qed.

(** X4: [show] on the hardware path: it completes, hands the peripheral the
    frame buffer itself when the brightness is not below 1.0 and its
    rendering when it is, and leaves the live frame buffer and the
    attributes as they were.  In the rendering a colour byte [v] is
    [int(v * brightness)], the product rounded to binary64: the conversion
    is defined for every byte of the frame buffer and gives a byte no
    greater than [v]. *)
Theorem show_on_spi s l line :
  _spi s = true → well_formed s l →
  show line s = (Ok tt, shown line s l)
  ∧ frame (shown line s l) = Some l
  ∧ attrs (shown line s l) = attrs s
  ∧ trace (shown line s l)
    = trace s ++ [SpiWrite (sent s l) (line * _n s) ((line + 1) * _n s)]
  ∧ length (sent s l) = length l
  ∧ (∀ k v, l !! k = Some v →
       sent s l !! k
       = Some (if num_ltb (_brightness s) num_1 then
                 if end_header_index s <=? Z.of_nat k then 255
                 else if Z.of_nat k <? 4 then 0
                 else if Z.of_nat k mod 4 =? 0 then v
                 else scaled v (_brightness s)
               else v))
  ∧ (∀ k v, l !! k = Some v → num_ltb (_brightness s) num_1 = true →
       scale v (_brightness s) = Ok (scaled v (_brightness s))
       ∧ 0 ≤ scaled v (_brightness s) ≤ v).
Proof.
  intros Hspi Hwf.
  split; [by apply show_spi_run|].
  split; [apply shown_frame; by destruct Hwf|].
  split; [apply shown_attrs|]. split; [apply shown_trace|].
  destruct Hwf as (_ & Hbytes & _ & _ & _ & _ & Hbv & Hb0).
  assert (Hscale : ∀ k v, l !! k = Some v → num_ltb (_brightness s) num_1 = true →
            scale v (_brightness s) = Ok (scaled v (_brightness s))
            ∧ 0 ≤ scaled v (_brightness s) ≤ v).
  { intros k v Hv Hb. apply scale_byte; try done. by eapply bytes_lookup. }
  unfold sent. destruct (num_ltb (_brightness s) num_1) eqn:Hb.
  - split; [apply rendered_length|]. split; [|done].
    intros k v Hv. unfold rendered. rewrite list_lookup_imap, Hv. done.
  - done.
Qed.

Lemma show_on_spi_witness :
  let s := upd (strip true 2 seven_tenths BGR)
             [0; 0; 0; 0; 255; 10; 20; 30; 255; 0; 0; 255; 0] in
  let l := [0; 0; 0; 0; 255; 10; 20; 30; 255; 0; 0; 255; 0] in
  show 0 s = (Ok tt, shown 0 s l)
  ∧ frame (shown 0 s l) = Some l
  ∧ attrs (shown 0 s l) = attrs s
  ∧ trace (shown 0 s l)
    = trace s ++ [SpiWrite (sent s l) (0 * _n s) ((0 + 1) * _n s)]
  ∧ length (sent s l) = length l
  ∧ (∀ k v, l !! k = Some v →
       sent s l !! k
       = Some (if num_ltb (_brightness s) num_1 then
                 if end_header_index s <=? Z.of_nat k then 255
                 else if Z.of_nat k <? 4 then 0
                 else if Z.of_nat k mod 4 =? 0 then v
                 else scaled v (_brightness s)
               else v))
  ∧ (∀ k v, l !! k = Some v → num_ltb (_brightness s) num_1 = true →
       scale v (_brightness s) = Ok (scaled v (_brightness s))
       ∧ 0 ≤ scaled v (_brightness s) ≤ v).
Proof.
  apply (show_on_spi (upd (strip true 2 seven_tenths BGR)
                        [0; 0; 0; 0; 255; 10; 20; 30; 255; 0; 0; 255; 0])
           [0; 0; 0; 0; 255; 10; 20; 30; 255; 0; 0; 255; 0] 0).
  - vm_compute. reflexivity.
  - in_working_order.
Defined.

(** At brightness 0.7 the colour bytes 10, 20 and 30 are handed to the
    peripheral as 7, 14 and 21. *)
Example show_on_spi_sends :
  sent (strip true 2 seven_tenths BGR)
    [0; 0; 0; 0; 255; 10; 20; 30; 255; 0; 0; 255; 0]
  = [0; 0; 0; 0; 255; 7; 14; 21; 255; 0; 0; 255; 255].
Proof. vm_compute. reflexivity. Qed.

(** *** Filling and blanking *)

Lemma mod4_offset i a : (i * 4 + a) mod 4 = a mod 4.
Proof. rewrite Z.add_comm. apply Z_mod_plus_full. Qed.

(** The four offsets of the frame of pixel [i]. *)
Lemma elem_of_frames n pos :
  0 ≤ n →
  pos ∈ (range1 n ≫= λ i, [i * 4 + 4; i * 4 + 5; i * 4 + 6; i * 4 + 7])
  ↔ 4 ≤ pos < 4 + n * 4.
Proof.
  intros Hn. rewrite list_elem_of_bind. split.
  - intros (i & Hpos & Hi). apply elem_of_seqZ in Hi.
    rewrite !elem_of_cons, elem_of_nil in Hpos. lia.
  - intros Hpos. exists ((pos - 4) / 4). 
    pose proof (Z.div_mod (pos - 4) 4 ltac:(lia)).
    pose proof (Z.mod_pos_bound (pos - 4) 4 ltac:(lia)).
    split.
    + rewrite !elem_of_cons. lia.
    + apply elem_of_seqZ. lia.
Qed.

Lemma stores_bind {A} G (g : A → list Z) (xs : list A) :
  stores G (xs ≫= g) = xs ≫= (λ x, stores G (g x)).
Proof.
  unfold stores. induction xs as [|x xs IH]; [done|].
  by rewrite !bind_cons, fmap_app, IH.
Qed.

Lemma set_auto_write_run v s : set_auto_write v s = (Ok tt, with_auto_write v s).
Proof. reflexivity. Qed.

Lemma upd_updb s t : upd s t = updb (_buf s) t s.
Proof. reflexivity. Qed.

Lemma write_all_bytes ws t :
  bytes t → Forall (λ pv, is_byte pv.2 = true) ws → bytes (write_all ws t).
Proof.
  revert t. induction ws as [|[p v] ws IH]; intros t Ht Hws; [done|].
  rewrite write_all_cons. apply Forall_cons in Hws as [Hv Hws].
  apply IH; [|done]. by apply Forall_insert.
Qed.

Section fill.
Variables (s : state) (l : list Z) (r g b : Z).
Hypothesis Hwf : well_formed s l.
Hypothesis Hr : is_byte r = true.
Hypothesis Hg : is_byte g = true.
Hypothesis Hb : is_byte b = true.

Let c1 := channel r g b (pixel_order s).1.1.
Let c2 := channel r g b (pixel_order s).1.2.
Let c3 := channel r g b (pixel_order s).2.
Let G (i : Z) : Z :=
  if i mod 4 =? 0 then 255
  else if i mod 4 =? 1 then c1
  else if i mod 4 =? 2 then c2
  else c3.
Let s0 := with_auto_write false s.

Lemma fill_channel k : is_byte (channel r g b k) = true.
Proof. unfold channel. by repeat case_match. Qed.

(** One round of [fill]: the frame of pixel [i] is written. *)
Lemma fill_round i t :
  0 ≤ i < _n s → length t = length l →
  __setitem__ (Index i) (PSeq [PInt r; PInt g; PInt b]) (updb (_buf s) t s0)
  = (Ok tt,
     updb (_buf s)
       (write_all (stores G [i * 4 + 4; i * 4 + 5; i * 4 + 6; i * 4 + 7]) t) s0).
Proof.
  destruct Hwf as (Hl & Hbytes & Hn & Hroom & Hehi & Hpo & Hb0).
  unfold START_HEADER_SIZE in *.
  intros Hi Ht. unfold __setitem__.
  assert (Hbuf : (_buf s < length (heap s0))%nat) by by eapply lookup_lt_Some.
  assert (Hf : frame (updb (_buf s) t s0) = Some t) by by apply heap_updb.
  rewrite bind_eq, (set_item_run _ _ _ _ _ _ Hf) by done.
  change (_n (updb (_buf s) t s0)) with (_n s).
  change (pixel_order (updb (_buf s) t s0)) with (pixel_order s).
  rewrite set_offset_in_range by lia. cbn [store_bytes].
  rewrite norm_index_nonneg by lia.
  rewrite length_insert, norm_index_nonneg by lia.
  rewrite !length_insert, norm_index_nonneg by lia.
  rewrite !length_insert, norm_index_nonneg by lia.
  cbn [fst snd]. rewrite upd_updb, updb_updb.
  change (_buf (updb (_buf s) t s0)) with (_buf s).
  rewrite bind_eq. cbn [gets]. cbn [ret].
  unfold stores. cbn [fmap list_fmap]. rewrite !write_all_cons. cbn [write_all foldl].
  subst G. cbv beta.
  rewrite !mod4_offset.
  change (4 mod 4) with 0. change (5 mod 4) with 1.
  change (6 mod 4) with 2. change (7 mod 4) with 3. cbn [Z.eqb Pos.eqb].
  change (auto_write (updb (_buf s) ?t s0)) with false. cbv iota. unfold ret.
  replace (i * 4 + 4 + 1 + 1 + 1) with (i * 4 + 7) by lia.
  replace (i * 4 + 4 + 1 + 1) with (i * 4 + 6) by lia.
  replace (i * 4 + 4 + 1) with (i * 4 + 5) by lia.
  reflexivity.
Qed.

Lemma fill_frames :
  write_all (stores G (range1 (_n s) ≫= λ i,
                         [i * 4 + 4; i * 4 + 5; i * 4 + 6; i * 4 + 7])) l
  = filled (_n s) c1 c2 c3 l.
Proof.
  destruct Hwf as (Hl & Hbytes & Hn & Hroom & Hehi & Hpo & Hb0).
  apply list_eq. intros k. unfold filled. rewrite list_lookup_imap.
  destruct (decide (k < length l)%nat) as [Hk|Hk].
  - rewrite stores_lookup; [| |done].
    2: { intros i Hi. apply elem_of_frames in Hi; lia. }
    destruct (lookup_lt_is_Some_2 l k Hk) as [v Hv]. rewrite Hv.
    cbn [fmap option_fmap option_map]. cbv zeta. unfold START_HEADER_SIZE.
    case_decide as Hin; rewrite elem_of_frames in Hin by done.
    + destruct (Z.leb_spec 4 (Z.of_nat k)); [|lia].
      destruct (Z.ltb_spec (Z.of_nat k) (4 + _n s * 4)); [|lia]. done.
    + destruct (Z.leb_spec 4 (Z.of_nat k)); [|done].
      destruct (Z.ltb_spec (Z.of_nat k) (4 + _n s * 4)); [lia|done].
  - rewrite !lookup_ge_None_2; [done| lia |rewrite write_all_length; lia].
Qed.

Lemma fill_loop :
  for_ (range1 (_n s))
    (λ i, __setitem__ (Index i) (PSeq [PInt r; PInt g; PInt b]))
    (updb (_buf s) l s0)
  = (Ok tt, updb (_buf s) (filled (_n s) c1 c2 c3 l) s0).
Proof.
  destruct Hwf as (Hl & Hbytes & Hn & Hroom & Hehi & Hpo & Hb0).
  rewrite <- fill_frames, stores_bind.
  apply for_writes. intros i t Hi Ht. apply elem_of_seqZ in Hi.
  apply fill_round; [lia | done].
Qed.

Lemma fill_bytes : bytes (filled (_n s) c1 c2 c3 l).
Proof.
  destruct Hwf as (Hl & Hbytes & Hn & Hroom & Hehi & Hpo & Hb0).
  apply Forall_lookup_2. intros k v. unfold filled.
  rewrite list_lookup_imap. destruct (l !! k) as [w|] eqn:Hw; [|done].
  cbn. intros [= <-]. pose proof (bytes_lookup _ _ _ Hbytes Hw).
  subst c1 c2 c3. repeat case_match; try done; apply fill_channel.
Qed.

Lemma fill_wf : well_formed (updb (_buf s) (filled (_n s) c1 c2 c3 l) s0)
                  (filled (_n s) c1 c2 c3 l).
Proof.
  pose proof fill_bytes as Hfb.
  destruct Hwf as (Hl & Hbytes & Hn & Hroom & Hehi & Hpo & Hb0).
  assert (Hlen : length (filled (_n s) c1 c2 c3 l) = length l) by apply length_imap.
  split; [apply heap_updb; by eapply lookup_lt_Some|].
  split; [done|]. rewrite Hlen. done.
Qed.

Lemma fill_run :
  fill (PSeq [PInt r; PInt g; PInt b]) s
  = (Ok tt,
     with_auto_write (auto_write s)
       (if auto_write s then
          shown 0 (updb (_buf s) (filled (_n s) c1 c2 c3 l) s0)
            (filled (_n s) c1 c2 c3 l)
        else updb (_buf s) (filled (_n s) c1 c2 c3 l) s0))
    ∨ _spi s = false ∧ auto_write s = true.
Proof.
  destruct (_spi s) eqn:Hspi; [left|destruct (auto_write s) eqn:Haw; [by right|left]].
  all: unfold fill; rewrite bind_eq; cbn [gets]; rewrite bind_eq, set_auto_write_run;
       rewrite bind_eq; cbn [gets]; fold s0;
       change (_n s0) with (_n s);
       rewrite <- (updb_id (_buf s) l s0) at 1 by (destruct Hwf as [Hl _]; exact Hl);
       rewrite bind_eq, fill_loop.
  - destruct (auto_write s) eqn:Haw.
    + rewrite bind_eq.
      rewrite (show_spi_run (updb (_buf s) (filled (_n s) c1 c2 c3 l) s0) _ 0
                 Hspi fill_wf).
      reflexivity.
    + reflexivity.
  - rewrite Haw. reflexivity.
Qed.
End fill.

Lemma filled_lookup n c1 c2 c3 l i k :
  0 ≤ i < n → 0 ≤ k < 4 → (Z.to_nat (i * 4 + 4 + k) < length l)%nat →
  filled n c1 c2 c3 l !! Z.to_nat (i * 4 + 4 + k)
  = Some (if k =? 0 then 255 else if k =? 1 then c1
          else if k =? 2 then c2 else c3).
Proof.
  intros Hi Hk Hlt. unfold filled. rewrite list_lookup_imap.
  destruct (lookup_lt_is_Some_2 l _ Hlt) as [v Hv]. rewrite Hv.
  cbn [fmap option_fmap option_map]. cbv zeta. rewrite Z2Nat.id by lia.
  unfold START_HEADER_SIZE.
  destruct (Z.leb_spec 4 (i * 4 + 4 + k)); [|lia].
  destruct (Z.ltb_spec (i * 4 + 4 + k) (4 + n * 4)); [|lia].
  cbn [andb]. replace (i * 4 + 4 + k) with (i * 4 + (4 + k)) by lia.
  rewrite mod4_offset.
  assert (k = 0 ∨ k = 1 ∨ k = 2 ∨ k = 3) as [->|[->|[->| ->]]] by lia; done.
Qed.

(** X5: [fill]: on a strip in working order that transmits through the
    peripheral, or does not write on its own, every pixel frame gets the
    header 255 and the colour, every pixel reads back as the stored bytes
    in reverse, the attributes, [auto_write] among them, are as before,
    and the strip is shown once, at the end, when [auto_write] is set. *)
Theorem fill_sets_every_pixel s l r g b :
  well_formed s l →
  is_byte r = true → is_byte g = true → is_byte b = true →
  _spi s = true ∨ auto_write s = false →
  let c1 := channel r g b (pixel_order s).1.1 in
  let c2 := channel r g b (pixel_order s).1.2 in
  let c3 := channel r g b (pixel_order s).2 in
  ∃ s',
    fill (PSeq [PInt r; PInt g; PInt b]) s = (Ok tt, s')
    ∧ frame s' = Some (filled (_n s) c1 c2 c3 l)
    ∧ attrs s' = attrs s
    ∧ trace s'
      = trace s ++
        (if auto_write s
         then [SpiWrite (sent s (filled (_n s) c1 c2 c3 l))
                 (0 * _n s) ((0 + 1) * _n s)]
         else [])
    ∧ ∀ i, 0 ≤ i < _n s →
        __getitem__ (Index i) s' = (Ok (PSeq [PInt c3; PInt c2; PInt c1]), s').
Proof.
  intros Hwf Hr Hg Hb Hpath c1 c2 c3.
  destruct (fill_run s l r g b Hwf Hr Hg Hb) as [E|[E1 E2]].
  2: { destruct Hpath; congruence. }
  pose proof (fill_wf s l r g b Hwf Hr Hg Hb) as Hwf'.
  fold c1 c2 c3 in E, Hwf'.
  destruct Hwf as (Hl & Hbytes & Hn & Hroom & Hehi & Hpo & Hb0).
  assert (Hbuf : (_buf s < length (heap s))%nat) by by eapply lookup_lt_Some.
  eexists. split; [exact E|].
  assert (Hframe :
    frame (with_auto_write (auto_write s)
             (if auto_write s
              then shown 0 (updb (_buf s) (filled (_n s) c1 c2 c3 l)
                              (with_auto_write false s))
                     (filled (_n s) c1 c2 c3 l)
              else updb (_buf s) (filled (_n s) c1 c2 c3 l)
                     (with_auto_write false s)))
    = Some (filled (_n s) c1 c2 c3 l)).
  { destruct (auto_write s) eqn:Haw.
    - apply (shown_frame (updb _ _ (with_auto_write false s))).
      by destruct Hwf'.
    - exact (heap_updb (_buf s) _ (with_auto_write false s) Hbuf). }
  split; [exact Hframe|].
  split.
  { unfold attrs, shown. cbn.
    destruct (auto_write s); [|reflexivity].
    cbn. by destruct (num_ltb (_brightness s) num_1). }
  split.
  { destruct (auto_write s); cbn.
    - by destruct (num_ltb (_brightness s) num_1).
    - by rewrite app_nil_r. }
  intros i Hi. unfold START_HEADER_SIZE in *.
  assert (Hlen : ∀ k, 0 ≤ k < 4 → (Z.to_nat (i * 4 + 4 + k) < length l)%nat) by (intros k Hk; clear -Hi Hk Hroom; lia).
  eapply getitem_in_range; [exact Hframe| |..].
  { cbn. destruct (auto_write s); [|exact Hi].
    cbn. by destruct (num_ltb (_brightness s) num_1). }
  - replace (i * 4 + 7) with (i * 4 + 4 + 3) by lia.
    by rewrite filled_lookup by (done || by apply Hlen).
  - replace (i * 4 + 6) with (i * 4 + 4 + 2) by lia.
    by rewrite filled_lookup by (done || by apply Hlen).
  - replace (i * 4 + 5) with (i * 4 + 4 + 1) by lia.
    by rewrite filled_lookup by (done || by apply Hlen).
Qed.

Lemma fill_sets_every_pixel_witness :
  let s := with_auto_write true (strip true 2 seven_tenths BGR) in
  let l := [0; 0; 0; 0; 255; 0; 0; 0; 255; 0; 0; 255; 0] in
  ∃ s',
    fill (PSeq [PInt 10; PInt 20; PInt 30]) s = (Ok tt, s')
    ∧ frame s' = Some (filled 2 30 20 10 l)
    ∧ attrs s' = attrs s
    ∧ trace s'
      = trace s ++ [SpiWrite (sent s (filled 2 30 20 10 l))
                      (0 * _n s) ((0 + 1) * _n s)]
    ∧ ∀ i, 0 ≤ i < 2 →
        __getitem__ (Index i) s' = (Ok (PSeq [PInt 10; PInt 20; PInt 30]), s').
Proof.
  apply (fill_sets_every_pixel (with_auto_write true (strip true 2 seven_tenths BGR))
           [0; 0; 0; 0; 255; 0; 0; 0; 255; 0; 0; 255; 0] 10 20 30).
  - in_working_order.
  - reflexivity.
  - reflexivity.
  - reflexivity.
  - left. vm_compute. reflexivity.
Defined.

(** Filling a strip of two pixels that writes on its own with (10, 20, 30)
    at brightness 0.7: one transmission, of the filled frame rendered with
    the colour bytes 21, 14 and 7 (the last byte of pixel 1 is forced to
    255). *)
Example fill_sends :
  let s := with_auto_write true (strip true 2 seven_tenths BGR) in
  (fill (PSeq [PInt 10; PInt 20; PInt 30]) s).1 = Ok tt
  ∧ frame (fill (PSeq [PInt 10; PInt 20; PInt 30]) s).2
    = Some [0; 0; 0; 0; 255; 30; 20; 10; 255; 30; 20; 10; 0]
  ∧ trace (fill (PSeq [PInt 10; PInt 20; PInt 30]) s).2
    = [SpiWrite [0; 0; 0; 0; 255; 21; 14; 7; 255; 21; 14; 255; 255] 0 2].
Proof. vm_compute. done. Qed.


(** *** Blanking *)

(** A loop that stores at some of its indices only stores at the indices
    it selects. *)
Lemma stores_filter G (p : Z → bool) (xs : list Z) :
  xs ≫= (λ i, if p i then [(Z.to_nat i, G i)] else [])
  = stores G (filter (λ i, p i = true) xs).
Proof.
  unfold stores. induction xs as [|x xs IH]; [done|].
  rewrite bind_cons, IH. destruct (p x) eqn:Hp.
  - by rewrite filter_cons_True.
  - rewrite filter_cons_False; [done|]. by rewrite Hp.
Qed.

Section deinit.
Variables (s : state) (l : list Z).
Hypothesis Hwf : well_formed s l.

Let s0 := with_auto_write false s.
Let ehi := end_header_index s.

Lemma deinit_loop :
  for_ (range2 START_HEADER_SIZE ehi)
    (λ i, if negb (i mod 4 =? 0)
          then buf <- gets _buf ;; ba_setitem buf i (PInt 0)
          else ret tt)
    (updb (_buf s) l s0)
  = (Ok tt, updb (_buf s) (blanked ehi l) s0).
Proof.
  destruct Hwf as (Hl & Hbytes & Hn & Hroom & Hehi & Hpo & Hb0).
  assert (Hbuf : (_buf s < length (heap s0))%nat) by by eapply lookup_lt_Some.
  replace (blanked ehi l)
    with (write_all (range2 START_HEADER_SIZE ehi ≫=
            λ i, if negb (i mod 4 =? 0) then [(Z.to_nat i, 0)] else []) l).
  - apply for_writes. intros i t Hi Ht. apply elem_of_seqZ in Hi.
    destruct (negb (i mod 4 =? 0)); [|done].
    rewrite bind_eq. cbn [gets].
    change (_buf (updb (_buf s) t s0)) with (_buf s).
    apply ba_setitem_updb; [done|done|].
    apply norm_index_nonneg. unfold START_HEADER_SIZE in *. subst ehi. lia.
  - rewrite (stores_filter (λ _, 0) (λ i, negb (i mod 4 =? 0))).
    apply list_eq. intros k. unfold blanked. rewrite list_lookup_imap.
    destruct (decide (k < length l)%nat) as [Hk|Hk].
    + rewrite stores_lookup; [| |done].
      2: { intros i Hi. apply list_elem_of_filter in Hi as [_ Hi].
           apply elem_of_seqZ in Hi. unfold START_HEADER_SIZE in *. lia. }
      destruct (lookup_lt_is_Some_2 l k Hk) as [v Hv]. rewrite Hv.
      cbn [fmap option_fmap option_map]. cbv zeta.
      case_decide as Hin; unfold range2 in Hin;
        rewrite list_elem_of_filter, elem_of_seqZ in Hin.
      * destruct Hin as [Hp Hin]. rewrite Hp.
        destruct (Z.leb_spec START_HEADER_SIZE (Z.of_nat k)); [|lia].
        destruct (Z.ltb_spec (Z.of_nat k) ehi); [|lia]. done.
      * destruct (Z.leb_spec START_HEADER_SIZE (Z.of_nat k)); [|done].
        destruct (Z.ltb_spec (Z.of_nat k) ehi); [|done].
        destruct (negb (Z.of_nat k mod 4 =? 0)) eqn:Hp; [|done].
        exfalso. apply Hin. split; [done|lia].
    + rewrite !lookup_ge_None_2; [done| lia |rewrite write_all_length; lia].
Qed.

Lemma blanked_bytes : bytes (blanked ehi l).
Proof.
  destruct Hwf as (Hl & Hbytes & Hn & Hroom & Hehi & Hpo & Hb0).
  apply Forall_lookup_2. intros k v. unfold blanked.
  rewrite list_lookup_imap. destruct (l !! k) as [w|] eqn:Hw; [|done].
  cbn. intros [= <-]. pose proof (bytes_lookup _ _ _ Hbytes Hw).
  by repeat case_match.
Qed.

Lemma blanked_wf : well_formed (updb (_buf s) (blanked ehi l) s0) (blanked ehi l).
Proof.
  pose proof blanked_bytes as Hfb.
  destruct Hwf as (Hl & Hbytes & Hn & Hroom & Hehi & Hpo & Hb0).
  assert (Hlen : length (blanked ehi l) = length l) by apply length_imap.
  split; [apply heap_updb; by eapply lookup_lt_Some|].
  split; [done|]. rewrite Hlen. done.
Qed.

Lemma deinit_run :
  _spi s = true →
  deinit s
  = (Ok ReleasedSpi, shown 0 (updb (_buf s) (blanked ehi l) s0) (blanked ehi l)).
Proof.
  intros Hspi. unfold deinit.
  rewrite bind_eq, set_auto_write_run. fold s0.
  rewrite bind_eq. cbn [gets]. change (end_header_index s0) with ehi.
  rewrite <- (updb_id (_buf s) l s0) at 1 by (destruct Hwf as [Hl _]; exact Hl).
  rewrite bind_eq, deinit_loop.
  rewrite bind_eq, (show_spi_run _ _ 0 (Hspi : _spi (updb _ _ s0) = true) blanked_wf).
  rewrite bind_eq. cbn [gets].
  assert (Hs : _spi (shown 0 (updb (_buf s) (blanked ehi l) s0) (blanked ehi l)) = true).
  { unfold shown. by destruct (num_ltb _ num_1). }
  by rewrite Hs.
Qed.
End deinit.

Lemma blanked_lookup ehi l k v :
  l !! k = Some v →
  blanked ehi l !! k
  = Some (if (4 <=? Z.of_nat k) && (Z.of_nat k <? ehi)
             && negb (Z.of_nat k mod 4 =? 0) then 0 else v).
Proof. intros Hv. unfold blanked. by rewrite list_lookup_imap, Hv. Qed.

(** X6: [deinit] on a strip in working order that transmits through the
    peripheral: it completes and releases the peripheral; the colour bytes
    below [end_header_index] are zero and every other byte of the frame
    buffer is as before; [auto_write] is off and the brightness kept; the
    blanked strip is shown once; a pixel whose frame ends below
    [end_header_index] reads back as black. *)
Theorem deinit_blanks s l :
  _spi s = true → well_formed s l →
  ∃ s' l',
    deinit s = (Ok ReleasedSpi, s')
    ∧ frame s' = Some l'
    ∧ length l' = length l
    ∧ (∀ k v, l !! k = Some v →
         l' !! k = Some (if (4 <=? Z.of_nat k) && (Z.of_nat k <? end_header_index s)
                            && negb (Z.of_nat k mod 4 =? 0) then 0 else v))
    ∧ auto_write s' = false
    ∧ _brightness s' = _brightness s
    ∧ trace s' = trace s ++ [SpiWrite (sent s l') (0 * _n s) ((0 + 1) * _n s)]
    ∧ ∀ i, 0 ≤ i < _n s → i * 4 + 7 < end_header_index s →
        __getitem__ (Index i) s' = (Ok (PSeq [PInt 0; PInt 0; PInt 0]), s').
Proof.
  intros Hspi Hwf. pose proof (blanked_wf s l Hwf) as Hwf'.
  set (l' := blanked (end_header_index s) l) in *.
  set (s1 := updb (_buf s) l' (with_auto_write false s)) in *.
  assert (Hframe : frame (shown 0 s1 l') = Some l')
    by (apply shown_frame; by destruct Hwf').
  assert (Ha : _n (shown 0 s1 l') = _n s
               ∧ _brightness (shown 0 s1 l') = _brightness s
               ∧ auto_write (shown 0 s1 l') = false).
  { unfold shown. by destruct (num_ltb _ num_1). }
  destruct Ha as (Hn' & Hb' & Haw').
  exists (shown 0 s1 l'), l'.
  split; [by apply deinit_run|]. split; [done|].
  split; [apply length_imap|].
  split; [intros k v; apply blanked_lookup|].
  split; [done|]. split; [done|]. split; [exact (shown_trace s1 l' 0)|].
  intros i Hi Hlt.
  destruct Hwf as (Hl & Hbytes & Hn & Hroom & Hehi & Hpo & Hb0).
  unfold START_HEADER_SIZE in *.
  assert (Hz : ∀ k, 5 ≤ k ≤ 7 → l' !! Z.to_nat (i * 4 + k) = Some 0).
  { intros k Hk.
    destruct (lookup_lt_is_Some_2 l (Z.to_nat (i * 4 + k))) as [v Hv]; [lia|].
    subst l'. rewrite (blanked_lookup _ _ _ _ Hv), Z2Nat.id by lia.
    destruct (Z.leb_spec 4 (i * 4 + k)); [|lia].
    destruct (Z.ltb_spec (i * 4 + k) (end_header_index s)); [|lia].
    rewrite mod4_offset.
    assert (k = 5 ∨ k = 6 ∨ k = 7) as [->|[->| ->]] by lia; done. }
  eapply getitem_in_range; [exact Hframe| by rewrite Hn' |..]; apply Hz; lia.
Qed.

Lemma deinit_blanks_witness :
  let s := strip true 2 half BGR in
  let l := [0; 0; 0; 0; 255; 0; 0; 0; 255; 0; 0; 255; 0] in
  ∃ s' l',
    deinit s = (Ok ReleasedSpi, s')
    ∧ frame s' = Some l'
    ∧ length l' = length l
    ∧ (∀ k v, l !! k = Some v →
         l' !! k = Some (if (4 <=? Z.of_nat k) && (Z.of_nat k <? end_header_index s)
                            && negb (Z.of_nat k mod 4 =? 0) then 0 else v))
    ∧ auto_write s' = false
    ∧ _brightness s' = _brightness s
    ∧ trace s' = trace s ++ [SpiWrite (sent s l') (0 * _n s) ((0 + 1) * _n s)]
    ∧ ∀ i, 0 ≤ i < _n s → i * 4 + 7 < end_header_index s →
        __getitem__ (Index i) s' = (Ok (PSeq [PInt 0; PInt 0; PInt 0]), s').
Proof.
  apply (deinit_blanks (strip true 2 half BGR)
           [0; 0; 0; 0; 255; 0; 0; 0; 255; 0; 0; 255; 0]).
  - vm_compute. reflexivity.
  - in_working_order.
Defined.


(** *** The frame buffer after construction *)

Lemma elem_of_range3_four b x :
  x ∈ range3 4 b 4 ↔ 4 ≤ x < b ∧ x mod 4 = 0.
Proof.
  unfold range3, range_len. change (0 <? 4) with true. cbv iota.
  rewrite list_elem_of_fmap. split.
  - intros (k & -> & Hk). apply elem_of_seqZ in Hk.
    destruct (Z.ltb_spec 4 b); [|lia].
    assert (4 * ((b - 4 - 1) / 4) ≤ b - 4 - 1) by (apply Z.mul_div_le; lia).
    split; [lia|]. replace (4 + k * 4) with (k * 4 + 4) by lia.
    by rewrite mod4_offset.
  - intros [Hx Hm]. exists ((x - 4) / 4).
    pose proof (Z.div_mod x 4 ltac:(lia)).
    pose proof (Z.div_mod (x - 4) 4 ltac:(lia)).
    assert ((x - 4) mod 4 = 0).
    { replace (x - 4) with (x + (-1) * 4) by lia. by rewrite Z_mod_plus_full. }
    split; [lia|]. apply elem_of_seqZ.
    destruct (Z.ltb_spec 4 b); [|lia].
    assert ((x - 4) / 4 ≤ (b - 4 - 1) / 4) by (apply Z.div_le_mono; lia).
    assert (0 ≤ (x - 4) / 4) by (apply Z.div_pos; lia).
    lia.
Qed.

Section init_line.
Variables (n ehs : Z) (s : state) (t : list Z).
Hypothesis Hn : 0 ≤ n.
Hypothesis Hehs : 0 ≤ ehs ≤ n.
Hypothesis Hehi : end_header_index s = START_HEADER_SIZE + n * 4 - ehs.
Hypothesis Hsz : end_header_size s = ehs.
Hypothesis Hbuf : (_buf s < length (heap s))%nat.
Hypothesis Hlen : Z.of_nat (length t) = n * 4 + 4 + ehs.

Let ehi := START_HEADER_SIZE + n * 4 - ehs.

(** The three loops of [__init__] for the first line. *)
Lemma init_line_run :
  (for_ (range1 START_HEADER_SIZE) (λ i,
      buf <- gets _buf ;; ba_setitem buf (0 * n + i) (PInt 0)) ;;
    ehi <- gets end_header_index ;;
    for_ (range3 START_HEADER_SIZE ehi 4) (λ i,
      buf <- gets _buf ;; ba_setitem buf (0 * n + i) (PInt 255)) ;;
    ehi <- gets end_header_index ;;
    ehs <- gets end_header_size ;;
    for_ (range2 ehi (ehi + ehs)) (λ i,
      buf <- gets _buf ;; ba_setitem buf (0 * n + i) (PInt 255)))
    (updb (_buf s) t s)
  = (Ok tt,
     updb (_buf s)
       (write_all (stores (λ _, 255) (range2 ehi (ehi + ehs)))
          (write_all (stores (λ _, 255) (range3 START_HEADER_SIZE ehi 4))
             (write_all (stores (λ _, 0) (range1 START_HEADER_SIZE)) t))) s).
Proof.
  assert (Hstore : ∀ z i t1, is_byte z = true → 0 ≤ i < n * 4 + 4 + ehs →
            length t1 = length t →
            (buf <- gets _buf ;; ba_setitem buf (0 * n + i) (PInt z)) (updb (_buf s) t1 s)
            = (Ok tt, updb (_buf s) (<[Z.to_nat i := z]> t1) s)).
  { intros z i t1 Hz Hi Ht1. rewrite bind_eq. cbn [gets].
    change (_buf (updb (_buf s) t1 s)) with (_buf s).
    rewrite Z.mul_0_l, Z.add_0_l.
    apply ba_setitem_updb; [done|done|]. apply norm_index_nonneg. lia. }
  unfold START_HEADER_SIZE in *.
  rewrite bind_eq.
  rewrite (for_stores (_buf s) (λ _, 0)).
  2: { intros i t1 Hi Ht1. apply elem_of_seqZ in Hi. apply Hstore; [done|lia|done]. }
  rewrite bind_eq. cbn [gets].
  change (end_header_index (updb _ _ s)) with (end_header_index s). rewrite Hehi.
  rewrite bind_eq.
  rewrite (for_stores (_buf s) (λ _, 255)).
  2: { intros i t1 Hi Ht1. apply elem_of_range3_four in Hi.
       apply Hstore; [done|lia|]. by rewrite Ht1, write_all_length. }
  rewrite bind_eq. cbn [gets].
  change (end_header_index (updb _ _ s)) with (end_header_index s). rewrite Hehi.
  rewrite bind_eq. cbn [gets].
  change (end_header_size (updb _ _ s)) with (end_header_size s). rewrite Hsz.
  rewrite (for_stores (_buf s) (λ _, 255)).
  2: { intros i t1 Hi Ht1. apply elem_of_seqZ in Hi.
       apply Hstore; [done|lia|]. by rewrite Ht1, !write_all_length. }
  done.
Qed.
End init_line.

Lemma init_frame n :
  0 ≤ n →
  write_all (stores (λ _, 255)
               (range2 (4 + n * 4 - ceil16 n) (4 + n * 4 - ceil16 n + ceil16 n)))
    (write_all (stores (λ _, 255) (range3 4 (4 + n * 4 - ceil16 n) 4))
       (write_all (stores (λ _, 0) (range1 4))
          (replicate (Z.to_nat (per_line n)) 0)))
  = initial n.
Proof.
  intros Hn. pose proof (ceil16_bounds n Hn) as Hc.
  apply list_eq. intros k. unfold initial. rewrite list_lookup_fmap.
  destruct (decide (Z.of_nat k < per_line n)) as [Hk|Hk].
  - rewrite lookup_seqZ_lt by lia. cbn [fmap option_fmap option_map].
    rewrite Z.add_0_l. unfold START_HEADER_SIZE, per_line in *.
    rewrite stores_lookup.
    2: { intros i Hi. apply elem_of_seqZ in Hi. lia. }
    2: { rewrite !write_all_length, length_replicate. lia. }
    rewrite stores_lookup.
    2: { intros i Hi. apply elem_of_range3_four in Hi. lia. }
    2: { rewrite !write_all_length, length_replicate. lia. }
    rewrite stores_lookup.
    2: { intros i Hi. apply elem_of_seqZ in Hi. lia. }
    2: { rewrite length_replicate. lia. }
    rewrite lookup_replicate_2 by lia.
    unfold range2, range1.
    repeat case_decide; rewrite ?elem_of_seqZ, ?elem_of_range3_four in *.
    all: destruct (Z.ltb_spec (Z.of_nat k) 4);
         destruct (Z.ltb_spec (Z.of_nat k) (4 + n * 4 - ceil16 n));
         destruct (Z.ltb_spec (Z.of_nat k) (4 + n * 4));
         destruct (Z.eqb_spec (Z.of_nat k mod 4) 0); try done; try lia.
    all: exfalso; lia.
  - rewrite !lookup_ge_None_2; [done| |].
    + rewrite length_seqZ. lia.
    + rewrite !write_all_length, length_replicate. lia.
Qed.

Lemma init_run spi n b aw po :
  0 ≤ n →
  __init__ spi n 1 b aw po blank
  = (Ok tt,
     State spi 1 n (ceil16 n) (START_HEADER_SIZE + n * 4 - ceil16 n) 0%nat po
       (py_min (py_max b num_0) num_1) aw [initial n]
       (if spi then [] else [Cpin false])).
Proof.
  intros Hn. pose proof (ceil16_bounds n Hn) as Hc.
  assert (Hsize : (1 * n * 4 + 1 * START_HEADER_SIZE + 1 * ceil16 n <? 0) = false).
  { apply Z.ltb_ge. unfold START_HEADER_SIZE. lia. }
  assert (Hceil : (if negb (n mod 16 =? 0) then n / 16 + 1 else n / 16) = ceil16 n).
  { unfold ceil16. by destruct (n mod 16 =? 0). }
  assert (Hrep : 1 * n * 4 + 1 * START_HEADER_SIZE + 1 * ceil16 n = per_line n).
  { unfold per_line, START_HEADER_SIZE. lia. }
  unfold __init__, blank. msimpl.
  destruct spi; msimpl.
  all: destruct (n mod 16 =? 0) eqn:Hm; cbn [negb]; msimpl.
  all: cbn [negb] in Hceil; rewrite Hceil.
  all: unfold bytearray; rewrite Hsize; msimpl.
  all: change (range1 1) with [0]; cbn [for_ length app].
  all: rewrite Hrep.
  all: match goal with
       | |- bind _ _ ?S = _ =>
           pose proof (init_line_run n (ceil16 n) S
                         (replicate (Z.to_nat (per_line n)) 0)
                         Hn Hc eq_refl eq_refl) as E
       end.
  all: cbn [heap _buf length] in E.
  all: specialize (E ltac:(lia)).
  all: rewrite length_replicate, Z2Nat.id in E by (unfold per_line; lia).
  all: specialize (E eq_refl).
  all: rewrite updb_id in E by reflexivity.
  all: rewrite bind_eq, bind_eq, E; cbn [ret]; clear E.
  all: unfold set_brightness; msimpl.
  all: unfold updb; msimpl; cbn [insert list_insert].
  all: unfold START_HEADER_SIZE; rewrite init_frame by done.
  all: reflexivity.
Qed.

Lemma initial_lookup n k :
  0 ≤ k < per_line n →
  initial n !! Z.to_nat k
  = Some (if k <? START_HEADER_SIZE then 0
          else if k <? START_HEADER_SIZE + n * 4 - ceil16 n then
            (if k mod 4 =? 0 then 255 else 0)
          else if k <? START_HEADER_SIZE + n * 4 then 255
          else 0).
Proof.
  intros Hk. unfold initial. rewrite list_lookup_fmap, lookup_seqZ_lt by lia.
  cbn [fmap option_fmap option_map]. by rewrite Z.add_0_l, Z2Nat.id by lia.
Qed.

Lemma initial_bytes n : bytes (initial n).
Proof.
  apply Forall_lookup_2. intros k v. unfold initial.
  rewrite list_lookup_fmap. destruct (seqZ 0 (per_line n) !! k); [|done].
  cbn. intros [= <-]. by repeat case_match.
Qed.

(** X7: Construction of a single-line strip of [n ≥ 0] pixels completes.  The
    attributes are the arguments, with the brightness clamped; the frame
    buffer is the only array and holds the start frame, a 255 header for
    each pixel frame that begins below [end_header_index], and 255 from
    there to the end of the pixel frames; the strip is in working order
    when the pixel order is one of the six; and a pixel reads back black
    in each colour byte that lies below [end_header_index] and 255 in the
    others. *)
Theorem init_single_line spi n b aw po :
  0 ≤ n →
  ∃ s,
    __init__ spi n 1 b aw po blank = (Ok tt, s)
    ∧ attrs s = (spi, 1, n, ceil16 n, 4 + n * 4 - ceil16 n, 0%nat, po,
                 py_min (py_max b num_0) num_1, aw)
    ∧ heap s = [initial n]
    ∧ (po ∈ pixel_orders → num_valid b → well_formed s (initial n))
    ∧ ∀ i, 0 ≤ i < n →
        let c k := if i * 4 + k <? 4 + n * 4 - ceil16 n then 0 else 255 in
        __getitem__ (Index i) s = (Ok (PSeq [PInt (c 7); PInt (c 6); PInt (c 5)]), s).
Proof.
  intros Hn. pose proof (ceil16_bounds n Hn) as Hc.
  eexists. split; [by apply init_run|].
  split; [done|]. split; [done|].
  assert (Hlen : Z.of_nat (length (initial n)) = per_line n).
  { unfold initial. rewrite length_fmap, length_seqZ. unfold per_line. lia. }
  split.
  - intros Hpo Hb. split; [done|]. split; [apply initial_bytes|].
    cbn [_n end_header_index pixel_order _brightness].
    rewrite Hlen. unfold per_line, START_HEADER_SIZE.
    repeat split; try done; try lia;
      [by apply clamp_valid | apply clamp_not_neg].
  - intros i Hi c.
    assert (Hk : ∀ k, 5 ≤ k ≤ 7 → initial n !! Z.to_nat (i * 4 + k) = Some (c k)).
    { intros k Hk. rewrite initial_lookup by (unfold per_line; lia).
      unfold START_HEADER_SIZE. subst c. cbv beta.
      destruct (Z.ltb_spec (i * 4 + k) 4); [lia|].
      destruct (Z.ltb_spec (i * 4 + k) (4 + n * 4 - ceil16 n)).
      - rewrite mod4_offset.
        assert (k = 5 ∨ k = 6 ∨ k = 7) as [->|[->| ->]] by lia; done.
      - destruct (Z.ltb_spec (i * 4 + k) (4 + n * 4)); [done|lia]. }
    eapply getitem_in_range; [done|done|..]; apply Hk; lia.
Qed.

Lemma init_single_line_witness :
  ∃ s,
    __init__ true 2 1 half false BGR blank = (Ok tt, s)
    ∧ attrs s = (true, 1, 2, ceil16 2, 4 + 2 * 4 - ceil16 2, 0%nat, BGR,
                 py_min (py_max half num_0) num_1, false)
    ∧ heap s = [initial 2]
    ∧ (BGR ∈ pixel_orders → num_valid half → well_formed s (initial 2))
    ∧ ∀ i, 0 ≤ i < 2 →
        let c k := if i * 4 + k <? 4 + 2 * 4 - ceil16 2 then 0 else 255 in
        __getitem__ (Index i) s = (Ok (PSeq [PInt (c 7); PInt (c 6); PInt (c 5)]), s).
Proof.
  apply (init_single_line true 2 half false BGR). lia.
Defined.

(** *** Pixel writes leave the other pixels alone *)

Lemma getitem_read s l index :
  frame s = Some l → 0 ≤ _n s →
  START_HEADER_SIZE + 4 * _n s ≤ Z.of_nat (length l) →
  __getitem__ (Index index) s = (read_pixel (_n s) l index, s).
Proof.
  intros Hl Hn Hlen. unfold START_HEADER_SIZE in *. unfold read_pixel. cbv zeta.
  assert (Hin : ∀ i, 0 ≤ i < _n s →
            __getitem__ (Index i) s = (Ok (pixel_at l i), s)).
  { intros i Hi. unfold pixel_at.
    eapply getitem_in_range; [done|done|..];
      apply list_lookup_lookup_total_lt; lia. }
  destruct (Z.ltb_spec index 0).
  - destruct (Z.leb_spec (_n s) (index + _n s)); [lia|]. cbn [orb].
    destruct (Z.ltb_spec (index + _n s) 0).
    + apply getitem_oob; [done|]. destruct (Z.ltb_spec index 0); lia.
    + rewrite getitem_wrap by lia. apply Hin. lia.
  - destruct (Z.leb_spec (_n s) index).
    + apply getitem_oob; [done|]. destruct (Z.ltb_spec index 0); lia.
    + cbn [orb]. destruct (Z.ltb_spec index 0); [lia|]. apply Hin. lia.
Qed.

(** What four completed stores have stored, and where. *)
Lemma store_pixel_stores s l off h rgb s' :
  frame s = Some l →
  store_pixel off h rgb s = (Ok tt, s') →
  ∃ k0 k1 k2 k3 z1 z2 z3,
    norm_index (Z.of_nat (length l)) off = Some k0
    ∧ norm_index (Z.of_nat (length l)) (off + 1) = Some k1
    ∧ norm_index (Z.of_nat (length l)) (off + 2) = Some k2
    ∧ norm_index (Z.of_nat (length l)) (off + 3) = Some k3
    ∧ is_byte h = true ∧ is_byte z1 = true
    ∧ is_byte z2 = true ∧ is_byte z3 = true
    ∧ s' = upd s (<[k3:=z3]> (<[k2:=z2]> (<[k1:=z1]> (<[k0:=h]> l)))).
Proof.
  intros Hl H. unfold store_pixel in H.
  apply bind_ok_inv in H as (? & ? & [= <- <-] & H).
  apply bind_ok_inv in H as ([] & s1 & E & H).
  apply (ba_setitem_frame_inv _ _ _ _ _ Hl) in E as (z0 & k0 & [= <-] & Hz0 & Hk0 & ->).
  pose proof (frame_upd s l (<[k0:=h]> l) Hl) as Hl0.
  apply bind_ok_inv in H as (? & ? & [= <- <-] & H).
  apply bind_ok_inv in H as (c1 & ? & E & H).
  apply py_getitem_ok_inv in E as (_ & _ & _ & _ & _ & ->).
  apply bind_ok_inv in H as (? & ? & [= <- <-] & H).
  apply bind_ok_inv in H as ([] & s1 & E & H).
  apply (ba_setitem_frame_inv _ _ _ _ _ Hl0) in E as (z1 & k1 & -> & Hz1 & Hk1 & ->).
  rewrite upd_upd in H.
  pose proof (frame_upd s l (<[k1:=z1]> (<[k0:=h]> l)) Hl) as Hl1.
  apply bind_ok_inv in H as (? & ? & [= <- <-] & H).
  apply bind_ok_inv in H as (c2 & ? & E & H).
  apply py_getitem_ok_inv in E as (_ & _ & _ & _ & _ & ->).
  apply bind_ok_inv in H as (? & ? & [= <- <-] & H).
  apply bind_ok_inv in H as ([] & s1 & E & H).
  apply (ba_setitem_frame_inv _ _ _ _ _ Hl1) in E as (z2 & k2 & -> & Hz2 & Hk2 & ->).
  rewrite upd_upd in H.
  pose proof (frame_upd s l (<[k2:=z2]> (<[k1:=z1]> (<[k0:=h]> l))) Hl) as Hl2.
  apply bind_ok_inv in H as (? & ? & [= <- <-] & H).
  apply bind_ok_inv in H as (c3 & ? & E & H).
  apply py_getitem_ok_inv in E as (_ & _ & _ & _ & _ & ->).
  apply bind_ok_inv in H as (? & ? & [= <- <-] & H).
  apply (ba_setitem_frame_inv _ _ _ _ _ Hl2) in H as (z3 & k3 & -> & Hz3 & Hk3 & ->).
  rewrite upd_upd.
  rewrite !length_insert in *.
  replace (off + 1 + 1) with (off + 2) in * by lia.
  replace (off + 2 + 1) with (off + 3) in * by lia.
  exists k0, k1, k2, k3, z1, z2, z3. done.
Qed.

(** What a completed [_set_item] has stored, and where. *)
Lemma set_item_stores s l index value s' :
  frame s = Some l →
  _set_item index value s = (Ok tt, s') →
  ∃ k0 k1 k2 k3 h z1 z2 z3,
    norm_index (Z.of_nat (length l)) (set_offset (_n s) index) = Some k0
    ∧ norm_index (Z.of_nat (length l)) (set_offset (_n s) index + 1) = Some k1
    ∧ norm_index (Z.of_nat (length l)) (set_offset (_n s) index + 2) = Some k2
    ∧ norm_index (Z.of_nat (length l)) (set_offset (_n s) index + 3) = Some k3
    ∧ is_byte h = true ∧ is_byte z1 = true
    ∧ is_byte z2 = true ∧ is_byte z3 = true
    ∧ s' = upd s (<[k3:=z3]> (<[k2:=z2]> (<[k1:=z1]> (<[k0:=h]> l)))).
Proof.
  intros Hl H. rewrite set_item_unfold in H.
  apply bind_ok_inv in H as (n & s1 & [= <- <-] & H).
  apply bind_ok_inv in H as (num & s1 & E & H).
  assert (num = (if _n s <? index then - ((- _n s) / index) else 0) ∧ s1 = s) as [-> ->].
  { destruct (_n s <? index); [|by injection E].
    unfold ceil_div in E. destruct (index =? 0); [discriminate | by injection E]. }
  clear E. fold (set_offset (_n s) index) in H.
  apply bind_ok_inv in H as (len & s1 & E & H).
  assert (s1 = s) as ->.
  { destruct (rgb_of value); cbn in E; by injection E. }
  apply bind_ok_inv in H as (br & s2 & Ebr & H).
  assert (s2 = s) as ->.
  { destruct (len =? 4); [|by injection Ebr].
    by apply py_getitem_ok_inv in Ebr as (_ & _ & _ & _ & _ & ->). }
  apply bind_ok_inv in H as (b & s3 & Eb & H).
  assert (s3 = s) as ->.
  { destruct br; cbn in Eb; by injection Eb. }
  apply bind_ok_inv in H as (h & s4 & Eh & H).
  apply lift_ok_inv in Eh as [Eh ->].
  destruct (store_pixel_stores _ _ _ _ _ _ Hl H)
    as (k0 & k1 & k2 & k3 & z1 & z2 & z3 & ?).
  by exists k0, k1, k2, k3, h, z1, z2, z3.
Qed.

Lemma pixel_at_agree l l' j :
  (∀ k, 5 ≤ k ≤ 7 → l' !! Z.to_nat (j * 4 + k) = l !! Z.to_nat (j * 4 + k)) →
  pixel_at l' j = pixel_at l j.
Proof.
  intros H. unfold pixel_at. rewrite !list_lookup_total_alt.
  by rewrite (H 7), (H 6), (H 5) by lia.
Qed.

Lemma shown_wf s l line : well_formed s l → well_formed (shown line s l) l.
Proof.
  intros (Hl & H). split; [by apply shown_frame|].
  unfold shown. by destruct (num_ltb (_brightness s) num_1).
Qed.

(** X8: A completed write of pixel [i] on a strip in working order, with any
    colour that the write accepts: the strip stays in working order, the
    frame buffer changes within the frame of pixel [i] only, the
    attributes are as before, every other pixel reads as it did, and the
    strip is shown once when [auto_write] is set. *)
Theorem setitem_touches_one_pixel s l i value s' :
  well_formed s l → 0 ≤ i < _n s →
  _spi s = true ∨ auto_write s = false →
  __setitem__ (Index i) value s = (Ok tt, s') →
  ∃ l',
    well_formed s' l'
    ∧ length l' = length l
    ∧ attrs s' = attrs s
    ∧ (∀ k, ¬ (i * 4 + 4 ≤ Z.of_nat k < i * 4 + 8) → l' !! k = l !! k)
    ∧ (∀ j, j ≠ i → j + _n s ≠ i →
         __getitem__ (Index j) s' = ((__getitem__ (Index j) s).1, s'))
    ∧ trace s'
      = trace s ++
        (if auto_write s
         then [SpiWrite (sent s l') (0 * _n s) ((0 + 1) * _n s)] else []).
Proof.
  intros Hwf Hi Hpath H.
  destruct Hwf as (Hl & Hbytes & Hn & Hroom & Hehi & Hpo & Hb0).
  unfold START_HEADER_SIZE in *.
  unfold __setitem__ in H.
  apply bind_ok_inv in H as ([] & s1 & E & H).
  apply (set_item_stores _ _ _ _ _ Hl) in E
    as (k0 & k1 & k2 & k3 & h & z1 & z2 & z3
        & Hk0 & Hk1 & Hk2 & Hk3 & Hh & Hz1 & Hz2 & Hz3 & ->).
  rewrite set_offset_in_range in * by lia.
  apply norm_index_nonneg_inv in Hk0, Hk1, Hk2, Hk3; try lia. subst k0 k1 k2 k3.
  set (l' := <[Z.to_nat (i * 4 + 4 + 3):=z3]> (<[Z.to_nat (i * 4 + 4 + 2):=z2]>
              (<[Z.to_nat (i * 4 + 4 + 1):=z1]> (<[Z.to_nat (i * 4 + 4):=h]> l)))) in *.
  assert (Hlen : length l' = length l) by (subst l'; by rewrite !length_insert).
  assert (Hwf1 : well_formed (upd s l') l').
  { split; [by eapply frame_upd|]. split.
    - subst l'. repeat apply Forall_insert; done.
    - rewrite Hlen. done. }
  assert (Hagree : ∀ k, ¬ (i * 4 + 4 ≤ Z.of_nat k < i * 4 + 8) → l' !! k = l !! k).
  { intros k Hk. subst l'. rewrite !list_lookup_insert_ne by lia. done. }
  assert (Hread : ∀ j, j ≠ i → j + _n s ≠ i →
            read_pixel (_n s) l' j = read_pixel (_n s) l j).
  { intros j Hj1 Hj2. unfold read_pixel. cbv zeta.
    destruct (_ || _); [done|]. f_equal. apply pixel_at_agree.
    intros k Hk. apply Hagree. destruct (j <? 0); lia. }
  exists l'.
  rewrite bind_eq in H. cbn [gets] in H.
  change (auto_write (upd s l')) with (auto_write s) in H.
  destruct (auto_write s) eqn:Haw.
  - destruct Hpath as [Hspi|]; [|done].
    rewrite (show_spi_run (upd s l') l' 0 Hspi Hwf1) in H. injection H as <-.
    assert (Hf : frame (shown 0 (upd s l') l') = Some l')
      by (apply shown_frame; by destruct Hwf1).
    assert (Ha : attrs (shown 0 (upd s l') l') = attrs s)
      by (rewrite shown_attrs; unfold attrs; cbn; by rewrite Haw).
    assert (Hn' : _n (shown 0 (upd s l') l') = _n s)
      by (unfold attrs in Ha; by injection Ha).
    split.
    { by apply shown_wf. }
    split; [done|]. split; [done|]. split; [done|].
    split; [|exact (shown_trace (upd s l') l' 0)].
    intros j Hj1 Hj2.
    rewrite (getitem_read _ _ _ Hf), (getitem_read _ _ _ Hl), Hn' by (rewrite ?Hn', ?Hlen; unfold START_HEADER_SIZE; lia).
    cbn [fst]. by rewrite Hread.
  - injection H as <-.
    split; [done|]. split; [done|].
    split; [unfold attrs; cbn; by rewrite Haw|]. split; [done|].
    split; [|cbn; by rewrite app_nil_r].
    intros j Hj1 Hj2.
    rewrite (getitem_read _ l' j (frame_upd s l l' Hl)), (getitem_read _ _ _ Hl)
      by (cbn; rewrite ?Hlen; unfold START_HEADER_SIZE; lia).
    cbn [fst]. by rewrite Hread.
Qed.

Lemma setitem_touches_one_pixel_witness :
  let s := with_auto_write true (strip true 2 seven_tenths BGR) in
  let l := [0; 0; 0; 0; 255; 0; 0; 0; 255; 0; 0; 255; 0] in
  let s' := (__setitem__ (Index 0) (PSeq [PInt 10; PInt 20; PInt 30]) s).2 in
  ∃ l',
    well_formed s' l'
    ∧ length l' = length l
    ∧ attrs s' = attrs s
    ∧ (∀ k, ¬ (0 * 4 + 4 ≤ Z.of_nat k < 0 * 4 + 8) → l' !! k = l !! k)
    ∧ (∀ j, j ≠ 0 → j + _n s ≠ 0 →
         __getitem__ (Index j) s' = ((__getitem__ (Index j) s).1, s'))
    ∧ trace s' = trace s ++ [SpiWrite (sent s l') (0 * _n s) ((0 + 1) * _n s)].
Proof.
  apply (setitem_touches_one_pixel
           (with_auto_write true (strip true 2 seven_tenths BGR))
           [0; 0; 0; 0; 255; 0; 0; 0; 255; 0; 0; 255; 0] 0
           (PSeq [PInt 10; PInt 20; PInt 30])).
  - in_working_order.
  - vm_compute. split; [discriminate|reflexivity].
  - left. vm_compute. reflexivity.
  - vm_compute. reflexivity.
Defined.

(** Writing (10, 20, 30) to pixel 0 of a strip that writes on its own at
    brightness 0.7 stores 30, 20 and 10 and transmits 21, 14 and 7. *)
Example setitem_sends :
  let s := with_auto_write true (strip true 2 seven_tenths BGR) in
  let s' := (__setitem__ (Index 0) (PSeq [PInt 10; PInt 20; PInt 30]) s).2 in
  frame s' = Some [0; 0; 0; 0; 255; 30; 20; 10; 255; 0; 0; 255; 0]
  ∧ trace s' = [SpiWrite [0; 0; 0; 0; 255; 21; 14; 7; 255; 0; 0; 255; 255] 0 2].
Proof. vm_compute. done. Qed.

(** *** Packed colours *)

Lemma packed_rgb v :
  rgb_of (PInt v)
  = PSeq [PInt (v / 65536); PInt (v / 256 mod 256); PInt (v mod 256)].
Proof.
  unfold rgb_of. rewrite !Z.shiftr_div_pow2 by lia.
  change 255 with (Z.ones 8). rewrite !Z.land_ones by lia. done.
Qed.

Lemma set_item_packed index v s :
  _set_item index (PInt v) s
  = _set_item index
      (PSeq [PInt (v / 65536); PInt (v / 256 mod 256); PInt (v mod 256)]) s.
Proof.
  rewrite !set_item_unfold, packed_rgb. reflexivity.
Qed.

Lemma packed_bytes v :
  is_byte (v / 256 mod 256) = true ∧ is_byte (v mod 256) = true
  ∧ (is_byte (v / 65536) = true ↔ 0 ≤ v < 16777216).
Proof.
  unfold is_byte.
  pose proof (Z.mod_pos_bound (v / 256) 256 ltac:(lia)).
  pose proof (Z.mod_pos_bound v 256 ltac:(lia)).
  pose proof (Z.div_mod v 65536 ltac:(lia)).
  pose proof (Z.mod_pos_bound v 65536 ltac:(lia)).
  rewrite !andb_true_iff, !Z.leb_le, !Z.ltb_lt. lia.
Qed.

(** Four stores of a triple one of whose members is no byte end in
    [ValueError], whatever the pixel order among the six. *)
Lemma store_pixel_bad s l off h r g b :
  frame s = Some l → pixel_order s ∈ pixel_orders →
  0 ≤ off → off + 3 < Z.of_nat (length l) →
  is_byte h = true →
  is_byte r && is_byte g && is_byte b = false →
  (store_pixel off h (PSeq [PInt r; PInt g; PInt b]) s).1 = Raise ValueError.
Proof.
  intros Hl Hpo Hoff Hlen Hh Hbad.
  assert (Hstore : ∀ (k : unit → M unit) t z j, 0 ≤ j ≤ 3 → length t = length l →
            bind (ba_setitem (_buf s) (off + j) (PInt z)) k (upd s t)
            = if is_byte z then k tt (upd s (<[Z.to_nat (off + j) := z]> t))
              else (Raise ValueError, upd s t)).
  { intros k t z j Hj Ht. rewrite bind_eq.
    rewrite (ba_setitem_frame (upd s t) t) by by eapply frame_upd.
    destruct (is_byte z); [|done].
    rewrite norm_index_nonneg by lia. by rewrite upd_upd. }
  unfold store_pixel.
  rewrite <- (upd_id s l Hl).
  rewrite bind_eq. cbn [gets]. change (_buf (upd s l)) with (_buf s).
  rewrite <- (Z.add_0_r off) at 1. rewrite Hstore, Hh by (done || lia).
  assert (Hlast : ∀ t z, length t = length l →
            (ba_setitem (_buf s) (off + 3) (PInt z) (upd s t)).1
            = if is_byte z then Ok tt else Raise ValueError).
  { intros t z Ht.
    rewrite (ba_setitem_frame (upd s t) t) by by eapply frame_upd.
    destruct (is_byte z); [|done]. by rewrite norm_index_nonneg by lia. }
  unfold pixel_orders in Hpo. rewrite !elem_of_cons, elem_of_nil in Hpo.
  destruct Hpo as [Hp|[Hp|[Hp|[Hp|[Hp|[Hp|[]]]]]]].
  all: repeat (rewrite bind_eq; cbn [gets];
               change (pixel_order (upd s ?t)) with (pixel_order s);
               change (_buf (upd s ?t)) with (_buf s);
               rewrite ?Hp; cbn [RGB RBG GRB GBR BRG BGR fst snd];
               rewrite bind_eq, py_getitem_seq3 by lia; cbn [Z.eqb Pos.eqb];
               rewrite bind_eq; cbn [gets];
               change (_buf (upd s ?t)) with (_buf s);
               try rewrite Hstore by (lia || by rewrite ?length_insert)).
  all: destruct (is_byte r) eqn:Er, (is_byte g) eqn:Eg, (is_byte b) eqn:Eb;
       try done.
  all: rewrite Hlast by (by rewrite ?length_insert).
  all: by rewrite ?Er, ?Eg, ?Eb.
Qed.

(** X9: A pixel write of a packed integer [0xRRGGBB] is the write of the
    triple of its bytes.  On a strip in working order that does not write
    on its own, it completes when the integer fits 24 bits, and the pixel
    then reads back as the stored bytes in reverse; a negative or wider
    integer ends in [ValueError]. *)
Theorem packed_int_write s l i v :
  well_formed s l → 0 ≤ i < _n s → auto_write s = false →
  let r := v / 65536 in
  let g := v / 256 mod 256 in
  let b := v mod 256 in
  __setitem__ (Index i) (PInt v) s
  = __setitem__ (Index i) (PSeq [PInt r; PInt g; PInt b]) s
  ∧ (0 ≤ v < 16777216 →
     ∃ s', __setitem__ (Index i) (PInt v) s = (Ok tt, s')
           ∧ __getitem__ (Index i) s'
             = (Ok (PSeq [PInt (channel r g b (pixel_order s).2);
                          PInt (channel r g b (pixel_order s).1.2);
                          PInt (channel r g b (pixel_order s).1.1)]), s'))
  ∧ (¬ 0 ≤ v < 16777216 →
     (__setitem__ (Index i) (PInt v) s).1 = Raise ValueError).
Proof.
  intros (Hl & Hbytes & Hn & Hroom & Hehi & Hpo & Hb0) Hi Haw r g b.
  unfold START_HEADER_SIZE in *.
  destruct (packed_bytes v) as (Hg & Hb & Hr). fold r in Hr. fold g in Hg. fold b in Hb.
  assert (E : __setitem__ (Index i) (PInt v) s
              = __setitem__ (Index i) (PSeq [PInt r; PInt g; PInt b]) s).
  { unfold __setitem__. by rewrite !bind_eq, set_item_packed. }
  split; [exact E|]. rewrite E. unfold __setitem__. split.
  - intros Hv. apply Hr in Hv.
    destruct (get_after_set s l i r g b) as (s' & E1 & E2); try done; [lia|].
    exists s'. split; [|done].
    rewrite bind_eq, E1, bind_eq. cbn [gets].
    assert (auto_write s' = false) as ->; [|done].
    destruct (attrs_blind (attrs s)) as [H1 H2].
    pose proof (presb_set_item _ i (PSeq [PInt r; PInt g; PInt b]) H1 s eq_refl) as Ha.
    rewrite E1 in Ha. unfold attrs in Ha. cbn [snd] in Ha. congruence.
  - intros Hv.
    assert (Hbad : is_byte r && is_byte g && is_byte b = false).
    { destruct (is_byte r) eqn:Er; [|done]. exfalso. apply Hv. by apply Hr. }
    rewrite bind_eq, set_item_unfold.
    rewrite bind_eq. cbn [gets]. destruct (Z.ltb_spec (_n s) i); [lia|].
    rewrite bind_eq. cbn [ret rgb_of py_len length].
    rewrite bind_eq. cbn [ret]. change (Z.of_nat 3 =? 4) with false. cbv iota.
    rewrite bind_eq. cbn [ret py_num]. rewrite bind_eq. cbn [ret].
    change (header_byte (NInt 1)) with (Ok 255 : res Z).
    rewrite bind_eq. cbn [lift].
    pose proof (store_pixel_bad s l (i * 4 + START_HEADER_SIZE * (0 + 1)) 255 r g b
                  Hl Hpo) as Hs.
    unfold START_HEADER_SIZE in *.
    specialize (Hs ltac:(lia) ltac:(lia) eq_refl Hbad).
    destruct (store_pixel _ _ _ s) as [r0 s1]. cbn [fst] in Hs. by subst r0.
Qed.

Lemma packed_int_write_witness :
  let s := strip true 2 half BGR in
  let v := 66051 in
  let r := v / 65536 in
  let g := v / 256 mod 256 in
  let b := v mod 256 in
  __setitem__ (Index 0) (PInt v) s
  = __setitem__ (Index 0) (PSeq [PInt r; PInt g; PInt b]) s
  ∧ (0 ≤ v < 16777216 →
     ∃ s', __setitem__ (Index 0) (PInt v) s = (Ok tt, s')
           ∧ __getitem__ (Index 0) s'
             = (Ok (PSeq [PInt (channel r g b (pixel_order s).2);
                          PInt (channel r g b (pixel_order s).1.2);
                          PInt (channel r g b (pixel_order s).1.1)]), s'))
  ∧ (¬ 0 ≤ v < 16777216 →
     (__setitem__ (Index 0) (PInt v) s).1 = Raise ValueError).
Proof.
  apply (packed_int_write (strip true 2 half BGR)
           [0; 0; 0; 0; 255; 0; 0; 0; 255; 0; 0; 255; 0] 0 66051).
  - in_working_order.
  - vm_compute. split; [discriminate|reflexivity].
  - vm_compute. reflexivity.
Defined.

(** *** Slice reads *)

Lemma elem_of_range3_neg a b c x : c < 0 → x ∈ range3 a b c → b < x ≤ a.
Proof.
  intros Hc. unfold range3, range_len.
  rewrite list_elem_of_fmap. intros (k & -> & Hk).
  apply elem_of_seqZ in Hk.
  destruct (Z.ltb_spec 0 c); [lia|].
  destruct (Z.ltb_spec c 0); [|lia].
  destruct (Z.ltb_spec b a); [|lia].
  assert (- c * ((a - b - 1) / - c) ≤ a - b - 1) by (apply Z.mul_div_le; lia).
  nia.
Qed.

(** The indices of a slice of a strip of [n] pixels are pixels of the
    strip. *)
Lemma slice_indices_in_range start stop step n s a b c x :
  0 ≤ n → slice_indices start stop step n s = (Ok (a, b, c), s) →
  x ∈ range3 a b c → 0 ≤ x < n.
Proof.
  intros Hn. unfold slice_indices. cbv zeta.
  destruct (Z.eqb_spec (default 1 step) 0); [discriminate|].
  destruct (Z.ltb_spec n 0); [lia|].
  intros [= <- <- <-] Hx.
  destruct (Z.ltb_spec (default 1 step) 0).
  - apply elem_of_range3_neg in Hx; [|done].
    destruct start as [v1|], stop as [v2|];
      repeat match goal with
             | H : context [if ?v <? 0 then _ else _] |- _ =>
                 destruct (Z.ltb_spec v 0)
             end; lia.
  - apply elem_of_range3_pos in Hx; [|lia].
    destruct start as [v1|], stop as [v2|];
      repeat match goal with
             | H : context [if ?v <? 0 then _ else _] |- _ =>
                 destruct (Z.ltb_spec v 0)
             end; lia.
Qed.

Lemma slice_indices_run start stop step n s :
  0 ≤ n → default 1 step ≠ 0 →
  ∃ a b, slice_indices start stop step n s = (Ok (a, b, default 1 step), s).
Proof.
  intros Hn Hstep. unfold slice_indices. cbv zeta.
  destruct (Z.eqb_spec (default 1 step) 0); [done|].
  destruct (Z.ltb_spec n 0); [lia|]. by eexists _, _.
Qed.

Lemma collect_run s l xs :
  frame s = Some l →
  (∀ j, j ∈ xs → 0 ≤ j ∧ j * 4 + 7 < Z.of_nat (length l)) →
  (fix collect (xs : list Z) : M (list pyobj) :=
     match xs with
     | [] => ret []
     | in_i :: xs' =>
         buf <- gets _buf ;;
         a <- ba_getitem buf (in_i * 4 + (3 - 0) + START_HEADER_SIZE) ;;
         b <- ba_getitem buf (in_i * 4 + (3 - 1) + START_HEADER_SIZE) ;;
         c <- ba_getitem buf (in_i * 4 + (3 - 2) + START_HEADER_SIZE) ;;
         out <- collect xs' ;;
         ret (PSeq [PInt a; PInt b; PInt c] :: out)
     end) xs s
  = (Ok (pixel_at l <$> xs), s).
Proof.
  intros Hl. induction xs as [|j xs IH]; intros Hxs; [done|].
  destruct (Hxs j (list_elem_of_here _ _)) as [Hj Hlen].
  assert (Hget : ∀ k, 5 ≤ k ≤ 7 →
            ba_getitem (_buf s) (j * 4 + k) s = (Ok (l !!! Z.to_nat (j * 4 + k)), s)).
  { intros k Hk. apply (ba_getitem_frame_some _ l); [done|lia|].
    apply list_lookup_lookup_total_lt. lia. }
  unfold START_HEADER_SIZE.
  replace (j * 4 + (3 - 0) + 4) with (j * 4 + 7) by lia.
  replace (j * 4 + (3 - 1) + 4) with (j * 4 + 6) by lia.
  replace (j * 4 + (3 - 2) + 4) with (j * 4 + 5) by lia.
  rewrite bind_eq. cbn [gets].
  rewrite bind_eq, Hget by lia. rewrite bind_eq, Hget by lia.
  rewrite bind_eq, Hget by lia.
  rewrite bind_eq. unfold START_HEADER_SIZE in IH. rewrite IH.
  - reflexivity.
  - intros j' Hj'. apply Hxs. by apply list_elem_of_further.
Qed.

(** X10: A slice read on a strip in working order, with a step other than 0,
    completes: it returns, in the order of the slice, what the indexed
    read returns for each index of the slice, all of which are pixels of
    the strip, and it changes nothing. *)
Theorem getitem_slice_reads s l start stop step :
  well_formed s l → step ≠ Some 0 →
  ∃ a b c,
    slice_indices start stop step (_n s) s = (Ok (a, b, c), s)
    ∧ __getitem__ (Slice start stop step) s
      = (Ok (PSeq (pixel_at l <$> range3 a b c)), s)
    ∧ ∀ j, j ∈ range3 a b c →
        0 ≤ j < _n s ∧ __getitem__ (Index j) s = (Ok (pixel_at l j), s).
Proof.
  intros (Hl & Hbytes & Hn & Hroom & Hehi & Hpo & Hb0) Hstep.
  unfold START_HEADER_SIZE in *.
  destruct (slice_indices_run start stop step (_n s) s Hn) as (a & b & E).
  { destruct step as [c|]; [|done]. cbn. congruence. }
  exists a, b, (default 1 step). split; [done|].
  assert (Hin : ∀ j, j ∈ range3 a b (default 1 step) → 0 ≤ j < _n s)
    by (intros j; by eapply slice_indices_in_range).
  split.
  - unfold __getitem__. rewrite bind_eq. cbn [gets]. rewrite bind_eq, E.
    rewrite bind_eq, (collect_run s l _ Hl); [reflexivity|].
    intros j Hj. apply Hin in Hj. lia.
  - intros j Hj. apply Hin in Hj. split; [done|].
    rewrite (getitem_read s l) by (done || unfold START_HEADER_SIZE; lia).
    unfold read_pixel. cbv zeta.
    rewrite (proj2 (Z.ltb_ge j 0)) by lia. cbv iota.
    rewrite (proj2 (Z.ltb_ge j 0)), (proj2 (Z.leb_gt (_n s) j)) by lia.
    reflexivity.
Qed.

Lemma getitem_slice_reads_witness :
  let s := strip true 2 half BGR in
  let l := [0; 0; 0; 0; 255; 0; 0; 0; 255; 0; 0; 255; 0] in
  ∃ a b c,
    slice_indices None None (Some (-1)) (_n s) s = (Ok (a, b, c), s)
    ∧ __getitem__ (Slice None None (Some (-1))) s
      = (Ok (PSeq (pixel_at l <$> range3 a b c)), s)
    ∧ ∀ j, j ∈ range3 a b c →
        0 ≤ j < _n s ∧ __getitem__ (Index j) s = (Ok (pixel_at l j), s).
Proof.
  apply (getitem_slice_reads (strip true 2 half BGR)
           [0; 0; 0; 0; 255; 0; 0; 0; 255; 0; 0; 255; 0] None None (Some (-1))).
  - in_working_order.
  - discriminate.
Defined.

(** *** Brightness *)

(** X11: the brightness setter on a strip in working order that transmits
    through the peripheral, or does not write on its own: it completes,
    stores [min(max(b, 0.0), 1.0)] and leaves every other attribute and the
    live frame buffer as they were; when [auto_write] is set it shows the
    strip once, rendered at the new brightness with the binary64 products
    of [show], or unscaled when the new brightness is not below 1.0 (1.0
    itself, or NaN). *)
Theorem brightness_setter_shows s l b :
  well_formed s l → _spi s = true ∨ auto_write s = false →
  num_valid b →
  let c := py_min (py_max b num_0) num_1 in
  ∃ s',
    set_brightness b s = (Ok tt, s')
    ∧ frame s' = Some l
    ∧ well_formed s' l
    ∧ attrs s'
      = (_spi s, _line s, _n s, end_header_size s, end_header_index s,
         _buf s, pixel_order s, c, auto_write s)
    ∧ trace s'
      = trace s ++
        (if auto_write s
         then [SpiWrite (if num_ltb c num_1 then rendered (end_header_index s) c l else l)
                 (0 * _n s) ((0 + 1) * _n s)]
         else []).
Proof.
  intros (Hl & Hbytes & Hn & Hroom & Hehi & Hpo & Hb0) Hpath Hb c.
  unfold set_brightness. rewrite bind_eq. cbn [set__brightness modify].
  set (s1 := State _ _ _ _ _ _ _ _ _ _ _).
  assert (Hwf1 : well_formed s1 l).
  { split; [done|]. split; [done|]. split; [done|]. split; [done|].
    split; [done|]. split; [done|].
    split; [by apply clamp_valid | apply clamp_not_neg]. }
  rewrite bind_eq. cbn [gets]. change (auto_write s1) with (auto_write s).
  destruct (auto_write s) eqn:Haw.
  - destruct Hpath as [Hspi|]; [|done].
    rewrite (show_spi_run s1 l 0 Hspi Hwf1).
    eexists. split; [done|]. split; [by apply shown_frame|].
    split; [by apply shown_wf|].
    split; [rewrite shown_attrs; unfold attrs; cbn; by rewrite ?Haw|].
    exact (shown_trace s1 l 0).
  - eexists. split; [done|]. split; [done|]. split; [done|].
    split; [unfold attrs; cbn; by rewrite ?Haw|]. cbn. by rewrite app_nil_r.
Qed.

Lemma brightness_setter_shows_witness :
  let s := upd (with_auto_write true (strip true 2 num_1 BGR))
             [0; 0; 0; 0; 255; 10; 20; 30; 255; 0; 0; 255; 0] in
  let l := [0; 0; 0; 0; 255; 10; 20; 30; 255; 0; 0; 255; 0] in
  let c := py_min (py_max seven_tenths num_0) num_1 in
  ∃ s',
    set_brightness seven_tenths s = (Ok tt, s')
    ∧ frame s' = Some l
    ∧ well_formed s' l
    ∧ attrs s'
      = (_spi s, _line s, _n s, end_header_size s, end_header_index s,
         _buf s, pixel_order s, c, auto_write s)
    ∧ trace s'
      = trace s ++
        [SpiWrite (if num_ltb c num_1 then rendered (end_header_index s) c l else l)
           (0 * _n s) ((0 + 1) * _n s)].
Proof.
  apply (brightness_setter_shows
           (upd (with_auto_write true (strip true 2 num_1 BGR))
              [0; 0; 0; 0; 255; 10; 20; 30; 255; 0; 0; 255; 0])
           [0; 0; 0; 0; 255; 10; 20; 30; 255; 0; 0; 255; 0] seven_tenths).
  - in_working_order.
  - left. vm_compute. reflexivity.
  - vm_compute. reflexivity.
Defined.

(** Setting the brightness of a strip that writes on its own to 0.7 sends
    the colour bytes 10, 20 and 30 as 7, 14 and 21; setting it to NaN
    stores NaN and sends them as they are. *)
Example brightness_setter_sends :
  let s := upd (with_auto_write true (strip true 2 num_1 BGR))
             [0; 0; 0; 0; 255; 10; 20; 30; 255; 0; 0; 255; 0] in
  trace (set_brightness seven_tenths s).2
  = [SpiWrite [0; 0; 0; 0; 255; 7; 14; 21; 255; 0; 0; 255; 255] 0 2]
  ∧ trace (set_brightness (NFloat S754_nan) s).2
    = [SpiWrite [0; 0; 0; 0; 255; 10; 20; 30; 255; 0; 0; 255; 0] 0 2]
  ∧ _brightness (set_brightness (NFloat S754_nan) s).2 = NFloat S754_nan.
Proof. vm_compute. done. Qed.

Lemma sent_pixel_byte s l k v :
  l !! k = Some v → START_HEADER_SIZE ≤ Z.of_nat k < end_header_index s →
  sent s l !! k
  = Some (if num_ltb (_brightness s) num_1 && negb (Z.of_nat k mod 4 =? 0)
          then scaled v (_brightness s) else v).
Proof.
  intros Hv Hk. unfold sent, START_HEADER_SIZE in *.
  destruct (num_ltb (_brightness s) num_1); [|done].
  unfold rendered. rewrite list_lookup_imap, Hv. cbn. unfold START_HEADER_SIZE.
  destruct (Z.leb_spec (end_header_index s) (Z.of_nat k)); [lia|].
  destruct (Z.ltb_spec (Z.of_nat k) 4); [lia|].
  by destruct (Z.of_nat k mod 4 =? 0).
Qed.



(** *** Slice assignment *)

Lemma channel_byte r g b k :
  is_byte r = true → is_byte g = true → is_byte b = true →
  is_byte (channel r g b k) = true.
Proof. intros. unfold channel. by repeat case_match. Qed.

(** A pixel write of a byte triple at a pixel of the strip. *)
Lemma set_item_pixel u t j c :
  frame u = Some t → 0 ≤ j < _n u →
  START_HEADER_SIZE + 4 * _n u ≤ Z.of_nat (length t) →
  pixel_order u ∈ pixel_orders →
  is_byte c.1.1 = true → is_byte c.1.2 = true → is_byte c.2 = true →
  _set_item j (triple c) u
  = (Ok tt, upd u (write_all (pixel_stores (pixel_order u) c j) t)).
Proof.
  intros Hf Hj Hlen Hpo Hr Hg Hb. unfold START_HEADER_SIZE in *.
  unfold triple. rewrite (set_item_run _ _ _ _ _ _ Hf) by (done || lia).
  rewrite set_offset_in_range by lia. cbn [store_bytes].
  rewrite norm_index_nonneg by lia.
  rewrite length_insert, norm_index_nonneg by lia.
  rewrite !length_insert, norm_index_nonneg by lia.
  rewrite !length_insert, norm_index_nonneg by lia.
  cbn [fst snd]. unfold pixel_stores. rewrite !write_all_cons. cbn [write_all foldl].
  replace (j * 4 + 4 + 1 + 1 + 1) with (j * 4 + 7) by lia.
  replace (j * 4 + 4 + 1 + 1) with (j * 4 + 6) by lia.
  replace (j * 4 + 4 + 1) with (j * 4 + 5) by lia.
  reflexivity.
Qed.

Lemma range3_lookup a b c k :
  0 ≤ k < range_len a b c → range3 a b c !! Z.to_nat k = Some (a + k * c).
Proof.
  intros Hk. unfold range3. rewrite list_lookup_fmap, lookup_seqZ_lt by lia.
  cbn [fmap option_fmap option_map]. by rewrite Z.add_0_l, Z2Nat.id by lia.
Qed.

Lemma range3_length a b c : 0 < c →
  Z.of_nat (length (range3 a b c)) = Z.max 0 ((b - a + c - 1) / c).
Proof.
  intros Hc. unfold range3. rewrite length_fmap, length_seqZ. unfold range_len.
  destruct (Z.ltb_spec 0 c); [|lia].
  destruct (Z.ltb_spec a b).
  - replace (b - a + c - 1) with (b - a - 1 + 1 * c) by lia.
    rewrite Z.div_add by lia.
    assert (0 ≤ (b - a - 1) / c) by (apply Z.div_pos; lia). lia.
  - assert ((b - a + c - 1) / c ≤ 0); [|lia].
    assert ((b - a + c - 1) / c < 1); [|lia].
    apply Z.div_lt_upper_bound; lia.
Qed.

Lemma elem_of_enumerate {A} (xs : list A) k x :
  (k, x) ∈ enumerate xs ↔ 0 ≤ k ∧ xs !! Z.to_nat k = Some x.
Proof.
  unfold enumerate. rewrite list_elem_of_lookup. split.
  - intros (i & Hi). apply lookup_zip_with_Some in Hi as (k' & x' & [= -> ->] & Hk & Hx).
    apply lookup_seqZ in Hk as [-> Hk]. rewrite Z.add_0_l, Nat2Z.id. split; [lia|done].
  - intros [Hk Hx]. exists (Z.to_nat k). apply lookup_zip_with_Some.
    exists k, x. split; [done|]. split; [|done].
    apply lookup_seqZ. apply lookup_lt_Some in Hx. lia.
Qed.

Lemma elem_of_pixel_stores po c j q v :
  (q, v) ∈ pixel_stores po c j ↔
  ∃ o, 0 ≤ o < 4 ∧ q = Z.to_nat (j * 4 + 4 + o)
       ∧ v = (if o =? 0 then 255
              else channel c.1.1 c.1.2 c.2
                     (if o =? 1 then po.1.1 else if o =? 2 then po.1.2 else po.2)).
Proof.
  unfold pixel_stores. rewrite !elem_of_cons, elem_of_nil. split.
  - intros [H|[H|[H|[H|[]]]]]; apply pair_equal_spec in H as [-> ->].
    + exists 0. split; [lia|]. split; [f_equal; lia|done].
    + exists 1. split; [lia|]. split; [f_equal; lia|done].
    + exists 2. split; [lia|]. split; [f_equal; lia|done].
    + exists 3. split; [lia|]. split; [f_equal; lia|done].
  - intros (o & Ho & -> & ->).
    assert (o = 0 ∨ o = 1 ∨ o = 2 ∨ o = 3) as [->|[->|[->| ->]]] by lia; cbn.
    + left. f_equal; f_equal; lia.
    + right; left. f_equal; f_equal; lia.
    + right; right; left. f_equal; f_equal; lia.
    + right; right; right; left. f_equal; f_equal; lia.
Qed.

Section slice.
Variables (s : state) (l : list Z) (cols : list (Z * Z * Z)) (xs : list Z).
Hypothesis Hwf : well_formed s l.
Hypothesis Hxs : ∀ j, j ∈ xs → 0 ≤ j < _n s.
Hypothesis Hnd : NoDup xs.
Hypothesis Hlen : length xs = length cols.
Hypothesis Hcols :
  Forall (λ c, is_byte c.1.1 = true ∧ is_byte c.1.2 = true ∧ is_byte c.2 = true) cols.

Let ws (p : Z * Z) : list (nat * Z) :=
  match cols !! Z.to_nat p.1 with
  | Some c => pixel_stores (pixel_order s) c p.2
  | None => []
  end.
Let l' := write_all (enumerate xs ≫= ws) l.

Lemma slice_loop :
  for_ (enumerate xs)
    (λ p, v <- py_getitem (PSeq (triple <$> cols)) p.1 ;; _set_item p.2 v)
    (updb (_buf s) l s)
  = (Ok tt, updb (_buf s) l' s).
Proof.
  destruct Hwf as (Hl & Hbytes & Hn & Hroom & Hehi & Hpo & Hb0).
  assert (Hbuf : (_buf s < length (heap s))%nat) by by eapply lookup_lt_Some.
  apply for_writes. intros [k j] t Hp Ht. apply elem_of_enumerate in Hp as [Hk Hj].
  cbn [fst snd]. subst ws. cbv beta. cbn [fst snd].
  assert (Hklt : (Z.to_nat k < length cols)%nat).
  { rewrite <- Hlen. by eapply lookup_lt_Some. }
  destruct (lookup_lt_is_Some_2 cols _ Hklt) as [c Hc]. rewrite Hc.
  pose proof (Forall_lookup_1 _ _ _ _ Hcols Hc) as (Hr & Hg & Hb).
  rewrite bind_eq. cbn [py_getitem]. unfold tuple_getitem.
  rewrite length_fmap, norm_index_nonneg by lia.
  rewrite list_lookup_fmap, Hc. cbn [fmap option_fmap option_map ret].
  rewrite (set_item_pixel _ t); try done.
  - by rewrite upd_updb, updb_updb.
  - by apply heap_updb.
  - apply Hxs. by eapply list_elem_of_lookup_2.
  - cbn [_n updb with_heap]. by rewrite Ht.
Qed.

Lemma slice_stores q v :
  (q, v) ∈ enumerate xs ≫= ws ↔
  ∃ k j c, 0 ≤ k ∧ xs !! Z.to_nat k = Some j ∧ cols !! Z.to_nat k = Some c
           ∧ (q, v) ∈ pixel_stores (pixel_order s) c j.
Proof.
  rewrite list_elem_of_bind. split.
  - intros ([k j] & Hin & Hp). apply elem_of_enumerate in Hp as [Hk Hj].
    subst ws. cbv beta in Hin. cbn [fst snd] in Hin.
    destruct (cols !! Z.to_nat k) as [c|] eqn:Hc; [|by apply elem_of_nil in Hin].
    by exists k, j, c.
  - intros (k & j & c & Hk & Hj & Hc & Hin). exists (k, j).
    split; [|by apply elem_of_enumerate].
    subst ws. cbv beta. cbn [fst snd]. by rewrite Hc.
Qed.

Lemma slice_length : length l' = length l.
Proof. apply write_all_length. Qed.

(** A pixel of the slice holds its colour. *)
Lemma slice_written k j c o :
  xs !! k = Some j → cols !! k = Some c → 0 ≤ o < 4 →
  l' !! Z.to_nat (j * 4 + 4 + o)
  = Some (if o =? 0 then 255
          else channel c.1.1 c.1.2 c.2
                 (if o =? 1 then (pixel_order s).1.1
                  else if o =? 2 then (pixel_order s).1.2
                  else (pixel_order s).2)).
Proof.
  destruct Hwf as (Hl & Hbytes & Hn & Hroom & Hehi & Hpo & Hb0).
  intros Hj Hc Ho. unfold START_HEADER_SIZE in *.
  assert (Hjn : 0 ≤ j < _n s) by (apply Hxs; by eapply list_elem_of_lookup_2).
  apply write_all_lookup_in; [| |lia].
  - intros q v1 v2 H1 H2.
    apply slice_stores in H1 as (k1 & j1 & c1 & Hk1 & Hj1 & Hc1 & H1).
    apply slice_stores in H2 as (k2 & j2 & c2 & Hk2 & Hj2 & Hc2 & H2).
    assert (0 ≤ j1 ∧ 0 ≤ j2) as [Hj1' Hj2'].
    { split; [apply (Hxs j1)|apply (Hxs j2)]; by eapply list_elem_of_lookup_2. }
    apply elem_of_pixel_stores in H1 as (o1 & Ho1 & -> & ->).
    apply elem_of_pixel_stores in H2 as (o2 & Ho2 & E & ->).
    assert (j1 = j2) as -> by lia. assert (o1 = o2) as -> by lia.
    assert (Z.to_nat k1 = Z.to_nat k2) as Ek by by eapply NoDup_lookup.
    rewrite Ek in Hc1. by assert (c1 = c2) as -> by congruence.
  - apply slice_stores. exists (Z.of_nat k), j, c. rewrite Nat2Z.id.
    split; [lia|]. split; [done|]. split; [done|].
    apply elem_of_pixel_stores. by exists o.
Qed.

(** A byte outside the frames of the pixels of the slice is as before. *)
Lemma slice_unwritten q :
  (∀ j, j ∈ xs → ¬ (j * 4 + 4 ≤ Z.of_nat q < j * 4 + 8)) →
  l' !! q = l !! q.
Proof.
  intros Hq. apply write_all_lookup_notin. intros Hin.
  apply list_elem_of_fmap in Hin as ([q' v] & -> & Hin). cbn [fst] in Hq.
  apply slice_stores in Hin as (k & j & c & Hk & Hj & Hc & Hin).
  assert (Hjn : 0 ≤ j < _n s) by (apply Hxs; by eapply list_elem_of_lookup_2).
  apply (Hq j); [by eapply list_elem_of_lookup_2|].
  apply elem_of_pixel_stores in Hin as (o & Ho & -> & _). lia.
Qed.

Lemma slice_bytes : bytes l'.
Proof.
  destruct Hwf as (Hl & Hbytes & Hn & Hroom & Hehi & Hpo & Hb0).
  apply write_all_bytes; [done|]. apply Forall_forall. intros [q v] Hin.
  apply slice_stores in Hin as (k & j & c & Hk & Hj & Hc & Hin).
  pose proof (Forall_lookup_1 _ _ _ _ Hcols Hc) as (Hr & Hg & Hb).
  apply elem_of_pixel_stores in Hin as (o & Ho & _ & ->). cbn [snd].
  destruct (o =? 0); [done|]. by apply channel_byte.
Qed.

Lemma slice_wf : well_formed (updb (_buf s) l' s) l'.
Proof.
  pose proof slice_bytes as Hb'.
  destruct Hwf as (Hl & Hbytes & Hn & Hroom & Hehi & Hpo & Hb0).
  split; [apply heap_updb; by eapply lookup_lt_Some|].
  split; [done|]. rewrite slice_length. done.
Qed.
End slice.

Lemma range3_NoDup a b c : c ≠ 0 → NoDup (range3 a b c).
Proof.
  intros Hc. unfold range3. apply NoDup_fmap_2; [|apply NoDup_seqZ].
  intros k1 k2 H. nia.
Qed.

(** X13: Assignment to a slice with a positive step, of as many byte triples as
    the code computes for the slice, on a strip in working order that
    transmits through the peripheral or does not write on its own: it
    completes and keeps the strip in working order and its attributes; the
    pixel at each index of the slice reads back as the bytes stored for its
    colour, in reverse; every other pixel reads as it did; the strip is
    shown once, at the end, when [auto_write] is set. *)
Theorem setitem_slice_forward s l start stop step a b c cols :
  well_formed s l → _spi s = true ∨ auto_write s = false →
  slice_indices start stop step (_n s) s = (Ok (a, b, c), s) → 0 < c →
  Z.of_nat (length cols) = (b - a + c - 1) / c →
  Forall (λ c, is_byte c.1.1 = true ∧ is_byte c.1.2 = true ∧ is_byte c.2 = true) cols →
  ∃ s' l',
    __setitem__ (Slice start stop step) (PSeq (triple <$> cols)) s = (Ok tt, s')
    ∧ well_formed s' l'
    ∧ attrs s' = attrs s
    ∧ (∀ k col, cols !! k = Some col →
         __getitem__ (Index (a + Z.of_nat k * c)) s'
         = (Ok (PSeq [PInt (channel col.1.1 col.1.2 col.2 (pixel_order s).2);
                      PInt (channel col.1.1 col.1.2 col.2 (pixel_order s).1.2);
                      PInt (channel col.1.1 col.1.2 col.2 (pixel_order s).1.1)]),
            s'))
    ∧ (∀ j, j ∉ range3 a b c → j + _n s ∉ range3 a b c →
         __getitem__ (Index j) s' = ((__getitem__ (Index j) s).1, s'))
    ∧ trace s'
      = trace s ++
        (if auto_write s
         then [SpiWrite (sent s l') (0 * _n s) ((0 + 1) * _n s)] else []).
Proof.
  intros Hwf Hpath E Hc Hlen Hcols.
  pose proof Hwf as (Hl & Hbytes & Hn & Hroom & Hehi & Hpo & Hb0).
  unfold START_HEADER_SIZE in *.
  set (xs := range3 a b c).
  assert (Hxs : ∀ j, j ∈ xs → 0 ≤ j < _n s)
    by (intros j; by eapply slice_indices_in_range).
  assert (Hnd : NoDup xs) by (apply range3_NoDup; lia).
  assert (Hlen' : length xs = length cols).
  { pose proof (range3_length a b c Hc) as H. fold xs in H. lia. }
  pose proof (slice_loop s l cols xs Hwf Hxs Hlen' Hcols) as Hloop.
  pose proof (slice_wf s l cols xs Hwf Hcols) as Hwf1.
  pose proof (slice_written s l cols xs Hwf Hxs Hnd Hlen') as Hwr.
  pose proof (slice_unwritten s l cols xs Hxs Hlen') as Hun.
  cbv zeta in Hloop, Hwf1, Hwr, Hun.
  set (l' := write_all _ l) in *.
  set (s1 := updb (_buf s) l' s) in *.
  assert (Hlen1 : length l' = length l) by apply write_all_length.
  assert (Hrun : __setitem__ (Slice start stop step) (PSeq (triple <$> cols)) s
                 = (Ok tt, if auto_write s then shown 0 s1 l' else s1)).
  { unfold __setitem__. rewrite bind_eq. rewrite bind_eq. cbn [gets].
    rewrite bind_eq, E. cbv iota beta zeta.
    rewrite bind_eq. cbn [py_len ret]. rewrite length_fmap, Hlen.
    rewrite (proj2 (Z.eqb_neq c 0)) by lia. cbn [negb].
    rewrite Z.eqb_refl. cbn [negb].
    rewrite <- (updb_id (_buf s) l s Hl) at 1. fold xs. rewrite Hloop.
    rewrite bind_eq. cbn [gets]. change (auto_write s1) with (auto_write s).
    destruct (auto_write s) eqn:Haw; [|done].
    destruct Hpath as [Hspi|]; [|done].
    by rewrite (show_spi_run s1 l' 0 Hspi Hwf1). }
  set (s' := if auto_write s then shown 0 s1 l' else s1) in *.
  assert (Hf : frame s' = Some l').
  { subst s'. destruct (auto_write s); [apply shown_frame|]; by destruct Hwf1. }
  assert (Hn' : _n s' = _n s).
  { subst s'. destruct (auto_write s); [|done]. unfold shown. by destruct (num_ltb _ num_1). }
  exists s', l'. split; [done|].
  split. { subst s'. destruct (auto_write s); [by apply shown_wf|done]. }
  split.
  { subst s'. destruct (auto_write s) eqn:Haw.
    - rewrite shown_attrs. unfold attrs. cbn. by rewrite Haw.
    - unfold attrs. cbn. by rewrite Haw. }
  split.
  { intros k col Hcol.
    assert (Hk : xs !! k = Some (a + Z.of_nat k * c)).
    { rewrite <- (Nat2Z.id k) at 1. apply range3_lookup.
      apply lookup_lt_Some in Hcol. rewrite <- Hlen' in Hcol.
      unfold xs, range3 in Hcol. rewrite length_fmap, length_seqZ in Hcol. lia. }
    assert (Hj : 0 ≤ a + Z.of_nat k * c < _n s)
      by (apply Hxs; by eapply list_elem_of_lookup_2).
    eapply getitem_in_range; [exact Hf|by rewrite Hn'|..].
    - replace (_ * 4 + 7) with ((a + Z.of_nat k * c) * 4 + 4 + 3) by lia.
      by rewrite (Hwr _ _ _ 3 Hk Hcol) by lia.
    - replace (_ * 4 + 6) with ((a + Z.of_nat k * c) * 4 + 4 + 2) by lia.
      by rewrite (Hwr _ _ _ 2 Hk Hcol) by lia.
    - replace (_ * 4 + 5) with ((a + Z.of_nat k * c) * 4 + 4 + 1) by lia.
      by rewrite (Hwr _ _ _ 1 Hk Hcol) by lia. }
  split.
  { intros j Hj1 Hj2.
    rewrite (getitem_read _ _ _ Hf), (getitem_read _ _ _ Hl), Hn'
      by (rewrite ?Hn', ?Hlen1; unfold START_HEADER_SIZE; lia).
    cbn [fst]. f_equal. unfold read_pixel. cbv zeta.
    set (x := if j <? 0 then j + _n s else j).
    assert (Hx : x ∉ xs) by (subst x; by destruct (j <? 0)).
    destruct (Z.leb_spec (_n s) x); [done|].
    destruct (Z.ltb_spec x 0); [done|]. cbn [orb]. f_equal.
    apply pixel_at_agree.
    intros o Ho. apply Hun. intros j' Hj'.
    assert (j' ≠ x) by (by intros ->). lia. }
  subst s'. destruct (auto_write s).
  - exact (shown_trace s1 l' 0).
  - cbn. by rewrite app_nil_r.
Qed.

Lemma setitem_slice_forward_witness :
  let s := with_auto_write true (strip true 3 seven_tenths BGR) in
  let l := [0; 0; 0; 0; 255; 0; 0; 0; 255; 0; 0; 0; 255; 0; 0; 255; 0] in
  let cols := [(10, 20, 30); (40, 50, 60)] in
  ∃ s' l',
    __setitem__ (Slice (Some 0) (Some 2) None) (PSeq (triple <$> cols)) s = (Ok tt, s')
    ∧ well_formed s' l'
    ∧ attrs s' = attrs s
    ∧ (∀ k col, cols !! k = Some col →
         __getitem__ (Index (0 + Z.of_nat k * 1)) s'
         = (Ok (PSeq [PInt (channel col.1.1 col.1.2 col.2 (pixel_order s).2);
                      PInt (channel col.1.1 col.1.2 col.2 (pixel_order s).1.2);
                      PInt (channel col.1.1 col.1.2 col.2 (pixel_order s).1.1)]),
            s'))
    ∧ (∀ j, j ∉ range3 0 2 1 → j + _n s ∉ range3 0 2 1 →
         __getitem__ (Index j) s' = ((__getitem__ (Index j) s).1, s'))
    ∧ trace s' = trace s ++ [SpiWrite (sent s l') (0 * _n s) ((0 + 1) * _n s)].
Proof.
  apply (setitem_slice_forward
           (with_auto_write true (strip true 3 seven_tenths BGR))
           [0; 0; 0; 0; 255; 0; 0; 0; 255; 0; 0; 0; 255; 0; 0; 255; 0]
           (Some 0) (Some 2) None 0 2 1 [(10, 20, 30); (40, 50, 60)]).
  - in_working_order.
  - left. vm_compute. reflexivity.
  - vm_compute. reflexivity.
  - lia.
  - vm_compute. reflexivity.
  - repeat constructor.
Defined.

(** Assigning two colours to the slice [0:2] of a strip of three pixels
    that writes on its own at brightness 0.7: one transmission, after both
    writes, of the colour bytes scaled in binary64. *)
Example slice_sends :
  let s := with_auto_write true (strip true 3 seven_tenths BGR) in
  let s' := (__setitem__ (Slice (Some 0) (Some 2) None)
               (PSeq [PSeq [PInt 10; PInt 20; PInt 30];
                      PSeq [PInt 40; PInt 50; PInt 60]]) s).2 in
  frame s'
  = Some [0; 0; 0; 0; 255; 30; 20; 10; 255; 60; 50; 40; 255; 0; 0; 255; 0]
  ∧ trace s'
    = [SpiWrite [0; 0; 0; 0; 255; 21; 14; 7; 255; 42; 35; 28; 255; 0; 0;
                 255; 255] 0 3].
Proof. vm_compute. done. Qed.

(** *** The bit-banged path *)

(** The manual [show] ends in [ValueError] when one of the bytes it is to
    transmit is not zero. *)
Lemma show_pins_raises s l line :
  _spi s = false → well_formed s l →
  0 ≤ line → (line + 1) * _n s ≤ Z.of_nat (length l) →
  (∃ i, line * _n s ≤ i < (line + 1) * _n s ∧ sent s l !! Z.to_nat i ≠ Some 0) →
  (show line s).1 = Raise ValueError.
Proof.
  intros Hspi (Hl & Hbytes & Hn & Hroom & Hehi & Hpo & Hbv & Hb0) Hline Hstop (i & Hi & Hnz).
  assert (Hm1 : (line + 1) * _n s ≠ -1) by nia.
  unfold sent in Hnz. destruct (num_ltb (_brightness s) num_1) eqn:Hb.
  - rewrite (render_show s l Hl Hbytes Hehi Hbv Hb0 Hb line).
    set (t := rendered _ _ l) in *.
    set (s1 := updb _ t _).
    assert (Ht : heap s1 !! length (heap s) = Some t).
    { subst s1. apply heap_updb. cbn. rewrite length_app. cbn. lia. }
    rewrite bind_eq. cbn [gets]. change (_spi s1) with (_spi s). rewrite Hspi.
    rewrite bind_eq. cbn [gets]. change (_n s1) with (_n s).
    destruct (ds_writebytes_run (length (heap s)) (line * _n s) ((line + 1) * _n s)
                s1 t Ht Hm1) as (s2 & E & _ & _).
    rewrite bind_eq, E.
    assert (Hlen : length t = length l) by apply rendered_length.
    rewrite clock_bytes_nonzero; [done| |].
    + intros j Hj. apply elem_of_seqZ in Hj. rewrite norm_index_nonneg by nia. done.
    + exists i, (Z.to_nat i). split; [apply elem_of_seqZ; lia|].
      split; [apply norm_index_nonneg; nia|done].
  - destruct (show_live_run s l line Hspi Hb Hl Hm1) as (s2 & E & _ & _).
    rewrite E. cbn [fst].
    apply clock_bytes_nonzero.
    + intros j Hj. apply elem_of_seqZ in Hj. rewrite norm_index_nonneg by nia. done.
    + exists i, (Z.to_nat i). split; [apply elem_of_seqZ; lia|].
      split; [apply norm_index_nonneg; nia|done].
Qed.

(** X14: without the peripheral, a strip in working order of five pixels or
    more whose first pixel header is not zero, as it is after construction
    and after any write of the first pixel, cannot be shown: [show] ends in
    [ValueError], the in-place shift of the header byte being refused, and
    so does [deinit], which therefore never releases the pins. *)
Theorem pins_cannot_drive s l v :
  _spi s = false → well_formed s l →
  5 ≤ _n s → 4 < end_header_index s →
  l !! 4%nat = Some v → v ≠ 0 →
  (show 0 s).1 = Raise ValueError
  ∧ (deinit s).1 = Raise ValueError.
Proof.
  intros Hspi Hwf Hn5 Hehi4 Hv Hnz.
  assert (Hshow : ∀ u t, _spi u = false → well_formed u t → _n u = _n s →
            end_header_index u = end_header_index s → t !! 4%nat = Some v →
            (show 0 u).1 = Raise ValueError).
  { intros u t Hu Hwfu Hnu Hehiu Ht.
    pose proof Hwfu as (Hl & Hbytes & Hn & Hroom & Hehi & Hpo & Hb0).
    unfold START_HEADER_SIZE in *.
    apply (show_pins_raises u t 0 Hu Hwfu); [lia|lia|].
    exists 4. split; [lia|]. change (Z.to_nat 4) with 4%nat.
    rewrite (sent_pixel_byte u t 4 v Ht) by (unfold START_HEADER_SIZE; lia).
    change (Z.of_nat 4 mod 4 =? 0) with true. cbn [negb]. rewrite andb_false_r.
    congruence. }
  split; [by apply (Hshow s l)|].
  unfold deinit. rewrite bind_eq, set_auto_write_run.
  rewrite bind_eq. cbn [gets].
  change (end_header_index (with_auto_write false s)) with (end_header_index s).
  pose proof Hwf as (Hl & _).
  rewrite <- (updb_id (_buf s) l (with_auto_write false s) Hl) at 1.
  rewrite bind_eq, (deinit_loop s l Hwf).
  rewrite bind_eq.
  pose proof (Hshow _ _ (Hspi : _spi (updb (_buf s) _ (with_auto_write false s)) = false)
                (blanked_wf s l Hwf) eq_refl eq_refl) as E.
  destruct (show 0 _) as [r u]. cbn [fst] in E. rewrite E; [reflexivity|].
  rewrite (blanked_lookup _ _ _ _ Hv).
  change (Z.of_nat 4 mod 4 =? 0) with true. cbn [negb]. by rewrite andb_false_r.
Qed.

Lemma pins_cannot_drive_witness :
  (show 0 (strip false 5 num_1 BGR)).1 = Raise ValueError
  ∧ (deinit (strip false 5 num_1 BGR)).1 = Raise ValueError.
Proof.
  apply (pins_cannot_drive (strip false 5 num_1 BGR)
           [0; 0; 0; 0; 255; 0; 0; 0; 255; 0; 0; 0; 255; 0; 0; 0; 255; 0; 0; 0;
            255; 0; 0; 255; 0] 255).
  - vm_compute. reflexivity.
  - in_working_order.
  - vm_compute. discriminate.
  - vm_compute. reflexivity.
  - reflexivity.
  - discriminate.
Defined.
